(** * Moving-average crossover back-tester: model and verified properties

    Shallow embedding of [src/averageMoveTrader/averageMoveAlgorithm.py]
    (and of the older [src/averageMoveAlgorithm.py], whose
    [calc_strategy_performance] is the same function and whose
    [analyze_strategy_performance] shares the first half of
    [calculate_metrics]).

    - A pandas column is a list of float values in row order; the
      date index only aligns rows, so rows are addressed by position.
    - A float is an extended rational: exact arithmetic on finite values,
      the two infinities and NaN with the IEEE rules for them.  Rounding,
      overflow and the sign of zero are not modelled.  The properties
      below are stated so as not to rest on that: they follow from the
      propagation of NaN, from comparisons and from the order of the
      assignments, and where a computed value enters, it is read from the
      column the code wrote, not recomputed from the prices.
    - A DataFrame is a finite map from column names to columns; frames
      live in a store and are passed by reference, as Python objects are.
    - A function of the source is a computation in a state-and-exception
      monad over that store. *)

From Stdlib Require Import QArith Qreduction Lqa.
From stdpp Require Import gmap strings list fin_maps.

Local Open Scope nat_scope.

(** ** Floats *)

Module Float.

Inductive float64 : Type :=
  | NaN
  | NInf
  | Fin (q : Q)
  | PInf.

Definition of_Z (z : Z) : float64 := Fin (inject_Z z).
Definition of_nat (n : nat) : float64 := of_Z (Z.of_nat n).

Definition qsgn (q : Q) : Z := Z.sgn (Qnum q).

Definition is_nan (x : float64) : bool :=
  match x with NaN => true | _ => false end.

Definition notna (x : float64) : bool := negb (is_nan x).

Definition is_finite (x : float64) : bool :=
  match x with Fin _ => true | _ => false end.

(** The four operations: exact on finite values (no result is rounded,
    none overflows to an infinity or underflows to 0), IEEE on NaN, on the
    infinities and on division by zero. *)
Definition fadd (x y : float64) : float64 :=
  match x, y with
  | NaN, _ | _, NaN => NaN
  | PInf, NInf | NInf, PInf => NaN
  | PInf, _ | _, PInf => PInf
  | NInf, _ | _, NInf => NInf
  | Fin a, Fin b => Fin (Qred (a + b))
  end.

Definition fsub (x y : float64) : float64 :=
  match x, y with
  | NaN, _ | _, NaN => NaN
  | PInf, PInf | NInf, NInf => NaN
  | PInf, _ | _, NInf => PInf
  | NInf, _ | _, PInf => NInf
  | Fin a, Fin b => Fin (Qred (a - b))
  end.

(** The infinity of the sign [s], NaN for [s = 0] (inf * 0). *)
Definition inf_of_sign (s : Z) : float64 :=
  match s with
  | Z0 => NaN
  | Zpos _ => PInf
  | Zneg _ => NInf
  end.

Definition fsign (x : float64) : Z :=
  match x with
  | NaN => 0
  | NInf => -1
  | PInf => 1
  | Fin q => qsgn q
  end.

Definition fmul (x y : float64) : float64 :=
  match x, y with
  | NaN, _ | _, NaN => NaN
  | Fin a, Fin b => Fin (Qred (a * b))
  | _, _ => inf_of_sign (fsign x * fsign y)
  end.

Definition fdiv (x y : float64) : float64 :=
  match x, y with
  | NaN, _ | _, NaN => NaN
  | Fin a, Fin b =>
      if Qeq_bool b 0 then inf_of_sign (qsgn a) else Fin (Qred (a / b))
  | Fin _, _ => Fin 0
  | _, Fin b => if Qeq_bool b 0 then x else inf_of_sign (fsign x * qsgn b)
  | _, _ => NaN
  end.

(** Ordered comparison; [None] when an operand is NaN. *)
Definition fcmp (x y : float64) : option comparison :=
  match x, y with
  | NaN, _ | _, NaN => None
  | NInf, NInf | PInf, PInf => Some Eq
  | NInf, _ | _, PInf => Some Lt
  | _, NInf | PInf, _ => Some Gt
  | Fin a, Fin b => Some (a ?= b)%Q
  end.

(** Python's [x > y] and [x == y] on floats: false on NaN. *)
Definition fgtb (x y : float64) : bool :=
  match fcmp x y with Some Gt => true | _ => false end.

Definition feqb (x y : float64) : bool :=
  match fcmp x y with Some Eq => true | _ => false end.

(** [np.maximum]. *)
Definition fmax (x y : float64) : float64 :=
  match x, y with
  | NaN, _ | _, NaN => NaN
  | _, _ => if fgtb y x then y else x
  end.

End Float.
Export Float.

(** ** Columns (pandas Series of floats) *)

Module Pandas.

Abbreviation Series := (list float64).

(** Element-wise arithmetic on two columns of one frame and with a
    scalar. *)
Definition smul (a b : Series) : Series := zip_with fmul a b.
Definition ssub (a b : Series) : Series := zip_with fsub a b.
Definition sdiv (a b : Series) : Series := zip_with fdiv a b.
Definition scalar_add (c : float64) (a : Series) : Series := fmap (fadd c) a.
Definition sub_scalar (a : Series) (c : float64) : Series :=
  fmap (fun x => fsub x c) a.

(** [s.shift(1)]: every value moves one row down, the first row is NaN
    and the last value is dropped. *)
Definition shift1 (s : Series) : Series := take (length s) (NaN :: s).

(** [s.diff()]: [s - s.shift(1)]. *)
Definition diff (s : Series) : Series := ssub s (shift1 s).

(** [s.pct_change()]: [s / s.shift(1) - 1]. Prices are numbers; the
    padding pandas applies to NaN prices before dividing is left out. *)
Definition pct_change (s : Series) : Series :=
  sub_scalar (sdiv s (shift1 s)) (Fin 1).

(** Reductions skip NaN ([skipna=True], the default). *)
Definition valid (s : Series) : Series := filter (fun x => notna x = true) s.
Definition count (s : Series) : nat := length (valid s).
Definition nansum (s : Series) : float64 := foldl fadd (Fin 0) (valid s).

(** [s.mean()]. *)
Definition mean (s : Series) : float64 :=
  if count s is 0 then NaN else fdiv (nansum s) (of_nat (count s)).

(** [s.var()] with the default [ddof=1]; exact, so equal values have
    variance 0 without a residue of rounding. *)
Definition var (s : Series) : float64 :=
  if decide (count s <= 1) then NaN
  else
    let avg := mean s in
    let sqr := fmap (fun x => let d := fsub avg x in fmul d d) (valid s) in
    fdiv (foldl fadd (Fin 0) sqr) (of_nat (count s - 1)).

(** [s.max()]: NaN when no value is defined. *)
Definition smax (s : Series) : float64 :=
  match valid s with
  | [] => NaN
  | x :: xs => foldl fmax x xs
  end.

(** [a.cov(b)]: rows where either value is NaN are dropped; sample
    covariance ([np.cov], [ddof=1]); NaN when no row is left. *)
Definition cov (a b : Series) : float64 :=
  let rows := filter (fun p => notna p.1 && notna p.2 = true) (zip a b) in
  let n := length rows in
  if n is 0 then NaN
  else
    let ma := fdiv (foldl fadd (Fin 0) rows.*1) (of_nat n) in
    let mb := fdiv (foldl fadd (Fin 0) rows.*2) (of_nat n) in
    let prods := fmap (fun p => fmul (fsub p.1 ma) (fsub p.2 mb)) rows in
    fdiv (foldl fadd (Fin 0) prods) (of_nat (n - 1)).

(** [s.cumprod()] and [s.cummax()]: a NaN row stays NaN in the result and
    is skipped by the running value. *)
Fixpoint accumulate (f : float64 -> float64 -> float64) (acc : float64)
    (s : Series) : Series :=
  match s with
  | [] => []
  | x :: s' =>
      if is_nan x then NaN :: accumulate f acc s'
      else let acc' := f acc x in acc' :: accumulate f acc' s'
  end.

Definition cumprod (s : Series) : Series := accumulate fmul (Fin 1) s.
Definition cummax (s : Series) : Series := accumulate fmax NInf s.

(** [s.rolling(window=w).mean()]: [min_periods] defaults to the window, so
    a row is NaN unless the [w] rows ending at it are all defined; each
    window is averaged on its own and exactly, where pandas updates a
    running sum in doubles. *)
Definition window (w t : nat) (s : Series) : Series :=
  take (t + 1 - (t + 1 - w)) (drop (t + 1 - w) s).

Definition rolling_mean_at (w : nat) (s : Series) (t : nat) : float64 :=
  let win := window w t s in
  if decide (w <= count win /\ 0 < count win) then mean win else NaN.

Definition rolling_mean (w : nat) (s : Series) : Series :=
  fmap (rolling_mean_at w s) (seq 0 (length s)).

(** [np.where(a > b, 1.0, 0.0)]. *)
Definition where_gt (a b : Series) : Series :=
  zip_with (fun x y => if fgtb x y then Fin 1 else Fin 0) a b.

(** Row [t] of a column; NaN stands for a row outside the column. *)
Definition at_row (s : Series) (t : nat) : float64 := default NaN (s !! t).

End Pandas.
Export Pandas.

(** ** Frames, the store, and computations that may raise *)

Module Frames.

Abbreviation DataFrame := (gmap string Series).

(** A frame reference is a position in the store; a frame that was never
    allocated reads as the frame without columns. *)
Abbreviation ref := nat.
Abbreviation store := (list (gmap string Series)).

Inductive exn : Type :=
  | KeyError (column : string)
  | IndexError.

Inductive result (A : Type) : Type :=
  | Ok (a : A)
  | Raise (e : exn).
Arguments Ok {A} a.
Arguments Raise {A} e.

Definition M (A : Type) : Type := store -> result A * store.

Definition ret {A} (a : A) : M A := fun h => (Ok a, h).

Definition raise {A} (e : exn) : M A := fun h => (Raise e, h).

Definition bind {A B} (m : M A) (k : A -> M B) : M B :=
  fun h =>
    match m h with
    | (Ok a, h') => k a h'
    | (Raise e, h') => (Raise e, h')
    end.

Definition frame (h : store) (r : ref) : DataFrame := default ∅ (h !! r).

(** [data.copy()] *)
Definition copy (r : ref) : M ref :=
  fun h => (Ok (length h), h ++ [frame h r]).

(** [df[name]] *)
Definition getcol (r : ref) (name : string) : M Series :=
  fun h =>
    match frame h r !! name with
    | Some s => (Ok s, h)
    | None => (Raise (KeyError name), h)
    end.

(** [df[name] = s] *)
Definition setcol (r : ref) (name : string) (s : Series) : M unit :=
  fun h => (Ok tt, <[r := <[name := s]> (frame h r)]> h).

(** [s.iloc[-1]] *)
Definition iloc_last (s : Series) : M float64 :=
  match last s with
  | Some x => ret x
  | None => raise IndexError
  end.

End Frames.
Export Frames.

Declare Scope py_scope.
Delimit Scope py_scope with py.
Notation "x <- m ;; k" := (bind m (fun x => k))
  (at level 100, m at next level, right associativity) : py_scope.
Notation "m ;; k" := (bind m (fun _ => k))
  (at level 100, right associativity) : py_scope.
Local Open Scope py_scope.

(** ** The strategy engine *)

(** Python's [range(start, stop, step)] for a positive step. *)
Definition range (start stop step : nat) : list nat :=
  (fun i => start + i * step) <$> seq 0 ((stop - start + step - 1) / step).

(** The dict [calculate_metrics] returns has a fixed set of keys. *)
Record Metrics : Type := {
  total_strategy_return : float64;   (* "Total Strategy Return" *)
  total_benchmark_return : float64;  (* "Total Buy-and-Hold Return" *)
  sharpe_ratio : float64;            (* "Sharpe Ratio" *)
  maximum_drawdown : float64;        (* "Maximum Drawdown" *)
  beta : float64;                    (* "Beta" *)
  annualised_alpha : float64;        (* "Annualised Alpha" *)
  annualised_volatility : float64;   (* "Annualised Volatility" *)
  calmar_ratio : float64             (* "Calmar Ratio" *)
}.

(** [for x in xs: state = body x state], stopping at the first exception. *)
Fixpoint for_each {A S} (xs : list A) (body : A -> S -> M S) (s : S) : M S :=
  match xs with
  | [] => ret s
  | x :: xs' => s' <- body x s ;; for_each xs' body s'
  end.

(** The loop state of [optimise_strategy]: [(best_sharpe, best_params)]. *)
Abbreviation incumbent := (float64 * (nat * nat))%type.

Section Engine.

(** [np.sqrt], used by [Series.std] and for the annualisation factor. *)
Variable sqrt : float64 -> float64.

(** [s.std()]: the square root of [s.var()]. *)
Definition std (s : Series) : float64 := sqrt (var s).

(** [calc_strategy_performance(data, short_window, long_window)]: works on
    a copy of [data] and returns the copy. *)
Definition calc_strategy_performance (data : ref) (short_window long_window : nat)
    : M ref :=
  df <- copy data ;;
  close <- getcol df "Close" ;;
  setcol df "Fast_MA" (rolling_mean short_window close) ;;
  close <- getcol df "Close" ;;
  setcol df "Slow_MA" (rolling_mean long_window close) ;;
  (* a scalar is broadcast over the index, which every column shares *)
  setcol df "Signal" (replicate (length close) (Fin 0)) ;;
  fast_ma <- getcol df "Fast_MA" ;;
  slow_ma <- getcol df "Slow_MA" ;;
  signal <- getcol df "Signal" ;;
  (* df.loc[df.index[long_window:], 'Signal'] = np.where(...) *)
  setcol df "Signal"
    (take long_window signal
       ++ where_gt (drop long_window fast_ma) (drop long_window slow_ma)) ;;
  signal <- getcol df "Signal" ;;
  setcol df "Crossover" (diff signal) ;;
  signal <- getcol df "Signal" ;;
  setcol df "Position" (shift1 signal) ;;
  ret df.

(** [calculate_metrics(data)]: assigns its columns on [data] itself and
    returns the dict of metrics. *)
Definition calculate_metrics (data : ref) : M Metrics :=
  close <- getcol data "Close" ;;
  setcol data "Daily_Return" (pct_change close) ;;
  daily_return <- getcol data "Daily_Return" ;;
  position <- getcol data "Position" ;;
  setcol data "Strategy_Return" (smul daily_return (shift1 position)) ;;
  daily_return <- getcol data "Daily_Return" ;;
  setcol data "Cumulative_Benchmark" (cumprod (scalar_add (Fin 1) daily_return)) ;;
  strategy_return <- getcol data "Strategy_Return" ;;
  setcol data "Cumulative_Strategy" (cumprod (scalar_add (Fin 1) strategy_return)) ;;
  cumulative_strategy <- getcol data "Cumulative_Strategy" ;;
  last_strategy <- iloc_last cumulative_strategy ;;
  let total_strategy_return := fsub last_strategy (Fin 1) in
  cumulative_benchmark <- getcol data "Cumulative_Benchmark" ;;
  last_benchmark <- iloc_last cumulative_benchmark ;;
  let total_benchmark_return := fsub last_benchmark (Fin 1) in
  strategy_return <- getcol data "Strategy_Return" ;;
  let mean_daily_return := mean strategy_return in
  let std_daily_return := std strategy_return in
  let annualised_sharpe :=
    if feqb std_daily_return (Fin 0) then NaN
    else fdiv (fmul mean_daily_return (Fin 252))
              (fmul std_daily_return (sqrt (Fin 252))) in
  cumulative_strategy <- getcol data "Cumulative_Strategy" ;;
  setcol data "Cumulative_Max" (cummax cumulative_strategy) ;;
  cumulative_max <- getcol data "Cumulative_Max" ;;
  cumulative_strategy <- getcol data "Cumulative_Strategy" ;;
  setcol data "Drawdown"
    (sdiv (ssub cumulative_max cumulative_strategy) cumulative_max) ;;
  drawdown <- getcol data "Drawdown" ;;
  let max_drawdown := smax drawdown in
  strategy_return <- getcol data "Strategy_Return" ;;
  daily_return <- getcol data "Daily_Return" ;;
  let beta := fdiv (cov strategy_return daily_return) (var daily_return) in
  let mean_strategy_return := mean strategy_return in
  let mean_benchmark_return := mean daily_return in
  let alpha := fsub mean_strategy_return (fmul beta mean_benchmark_return) in
  let annualised_alpha := fmul alpha (Fin 252) in
  let annualised_volatility := fmul (std strategy_return) (sqrt (Fin 252)) in
  let annualised_return := fmul (mean strategy_return) (Fin 252) in
  let calmar_ratio :=
    if feqb max_drawdown (Fin 0) then NaN
    else fdiv annualised_return max_drawdown in
  ret {| total_strategy_return := total_strategy_return;
         total_benchmark_return := total_benchmark_return;
         sharpe_ratio := annualised_sharpe;
         maximum_drawdown := max_drawdown;
         beta := beta;
         annualised_alpha := annualised_alpha;
         annualised_volatility := annualised_volatility;
         calmar_ratio := calmar_ratio |}.

(** [analyze_strategy_performance] of the older script: the same columns,
    written into the frame it is given, which it returns. The figures it
    prints (returns, Sharpe, drawdown) are not modelled. *)
Definition analyze_strategy_performance (data : ref) : M ref :=
  close <- getcol data "Close" ;;
  setcol data "Daily_Return" (pct_change close) ;;
  daily_return <- getcol data "Daily_Return" ;;
  position <- getcol data "Position" ;;
  setcol data "Strategy_Return" (smul daily_return (shift1 position)) ;;
  daily_return <- getcol data "Daily_Return" ;;
  setcol data "Cumulative_Benchmark" (cumprod (scalar_add (Fin 1) daily_return)) ;;
  strategy_return <- getcol data "Strategy_Return" ;;
  setcol data "Cumulative_Strategy" (cumprod (scalar_add (Fin 1) strategy_return)) ;;
  cumulative_strategy <- getcol data "Cumulative_Strategy" ;;
  iloc_last cumulative_strategy ;;
  cumulative_benchmark <- getcol data "Cumulative_Benchmark" ;;
  iloc_last cumulative_benchmark ;;
  getcol data "Strategy_Return" ;;
  cumulative_strategy <- getcol data "Cumulative_Strategy" ;;
  setcol data "Cumulative_Max" (cummax cumulative_strategy) ;;
  cumulative_max <- getcol data "Cumulative_Max" ;;
  cumulative_strategy <- getcol data "Cumulative_Strategy" ;;
  setcol data "Drawdown"
    (sdiv (ssub cumulative_max cumulative_strategy) cumulative_max) ;;
  getcol data "Drawdown" ;;
  ret data.

Definition short_window_range : list nat := range 10 61 5.
Definition long_window_range : list nat := range 100 251 10.

(** The body of the inner loop of [optimise_strategy]. *)
Definition optimise_body (data : ref) (short long : nat) (best : incumbent)
    : M incumbent :=
  if decide (long <= short) then ret best   (* continue *)
  else
    temp_data <- calc_strategy_performance data short long ;;
    metrics <- calculate_metrics temp_data ;;
    if fgtb (sharpe_ratio metrics) best.1
    then ret (sharpe_ratio metrics, (short, long))
    else ret best.

(** [optimise_strategy(data)]. Console output (the progress lines) is not
    modelled. *)
Definition optimise_strategy (data : ref) : M (nat * nat) :=
  best <- for_each short_window_range
            (fun short => for_each long_window_range (optimise_body data short))
            (NInf, (0, 0)) ;;
  ret best.2.

End Engine.

(** ** Running computations: the store after each primitive *)

Section Execution.

Implicit Types (h : store) (r : ref) (df : gmap string Series).

Lemma bind_ok {A B} (m : M A) (k : A -> M B) h a h' :
  m h = (Ok a, h') -> bind m k h = k a h'.
Proof. intros E. unfold bind. by rewrite E. Qed.

Lemma bind_raise {A B} (m : M A) (k : A -> M B) h e h' :
  m h = (Raise e, h') -> bind m k h = (Raise e, h').
Proof. intros E. unfold bind. by rewrite E. Qed.

Lemma frame_lookup h r df : h !! r = Some df -> frame h r = df.
Proof. intros E. unfold frame. by rewrite E. Qed.

Lemma frame_snoc h df : frame (h ++ [df]) (length h) = df.
Proof. apply frame_lookup. by rewrite lookup_app_r, Nat.sub_diag. Qed.

Lemma frame_insert h r df : r < length h -> frame (<[r := df]> h) r = df.
Proof. intros Hr. apply frame_lookup. by apply list_lookup_insert_eq. Qed.

Lemma insert_snoc h (df df' : gmap string Series) :
  <[length h := df']> (h ++ [df]) = h ++ [df'].
Proof.
  replace (length h) with (length h + 0) at 1 by lia.
  by rewrite insert_app_r.
Qed.

Lemma getcol_ok h r name s :
  frame h r !! name = Some s -> getcol r name h = (Ok s, h).
Proof. intros E. unfold getcol. by rewrite E. Qed.

Lemma getcol_raise h r name :
  frame h r !! name = None -> getcol r name h = (Raise (KeyError name), h).
Proof. intros E. unfold getcol. by rewrite E. Qed.

Lemma setcol_snoc h df name s :
  setcol (length h) name s (h ++ [df]) = (Ok tt, h ++ [<[name := s]> df]).
Proof. unfold setcol. by rewrite frame_snoc, insert_snoc. Qed.

Lemma setcol_at h r df name s :
  r < length h -> frame h r = df ->
  setcol r name s h = (Ok tt, <[r := <[name := s]> df]> h).
Proof. intros _ <-. reflexivity. Qed.

Lemma iloc_last_ok (s : Series) x h : last s = Some x -> iloc_last s h = (Ok x, h).
Proof. intros E. unfold iloc_last. by rewrite E. Qed.

Lemma iloc_last_nil h : iloc_last [] h = (Raise IndexError, h).
Proof. reflexivity. Qed.

End Execution.

(** One step of a computation on the frame allocated last. *)
Ltac step_snoc :=
  first
    [ rewrite setcol_snoc
    | erewrite getcol_ok by (rewrite frame_snoc; simplify_map_eq; reflexivity) ];
  cbn beta iota.

(** ** Closed forms of the derived columns *)

Section Columns.

Variable sqrt : float64 -> float64.

Definition signal_of (short_window long_window : nat) (close : Series) : Series :=
  take long_window (replicate (length close) (Fin 0))
    ++ where_gt (drop long_window (rolling_mean short_window close))
                (drop long_window (rolling_mean long_window close)).

Definition crossover_of (short_window long_window : nat) (close : Series) : Series :=
  diff (signal_of short_window long_window close).

Definition position_of (short_window long_window : nat) (close : Series) : Series :=
  shift1 (signal_of short_window long_window close).

(** The frame [calc_strategy_performance] returns, as a function of the
    frame it copied. *)
Definition signals_frame (short_window long_window : nat) (close : Series)
    (df : gmap string Series) : gmap string Series :=
  <["Position" := position_of short_window long_window close]>
    (<["Crossover" := crossover_of short_window long_window close]>
       (<["Signal" := signal_of short_window long_window close]>
          (<["Slow_MA" := rolling_mean long_window close]>
             (<["Fast_MA" := rolling_mean short_window close]> df)))).

Lemma calc_strategy_performance_run h data short_window long_window close :
  frame h data !! "Close" = Some close ->
  calc_strategy_performance data short_window long_window h
  = (Ok (length h),
     h ++ [signals_frame short_window long_window close (frame h data)]).
Proof.
  intros Hclose. unfold calc_strategy_performance.
  rewrite (bind_ok (copy data) _ h (length h) (h ++ [frame h data])) by done.
  repeat (erewrite bind_ok; [| step_snoc; reflexivity]).
  unfold ret, signals_frame, position_of, crossover_of, signal_of.
  do 2 f_equal. f_equal.
  by rewrite (insert_insert_eq _ "Signal").
Qed.

Definition daily_return_of (close : Series) : Series := pct_change close.

Definition strategy_return_of (close position : Series) : Series :=
  smul (daily_return_of close) (shift1 position).

Definition cumulative_benchmark_of (close : Series) : Series :=
  cumprod (scalar_add (Fin 1) (daily_return_of close)).

Definition cumulative_strategy_of (close position : Series) : Series :=
  cumprod (scalar_add (Fin 1) (strategy_return_of close position)).

Definition cumulative_max_of (close position : Series) : Series :=
  cummax (cumulative_strategy_of close position).

Definition drawdown_of (close position : Series) : Series :=
  sdiv (ssub (cumulative_max_of close position)
             (cumulative_strategy_of close position))
       (cumulative_max_of close position).

(** The frame [calculate_metrics] leaves behind in place of [df]. *)
Definition metrics_frame (close position : Series) (df : gmap string Series)
    : gmap string Series :=
  <["Drawdown" := drawdown_of close position]>
    (<["Cumulative_Max" := cumulative_max_of close position]>
       (<["Cumulative_Strategy" := cumulative_strategy_of close position]>
          (<["Cumulative_Benchmark" := cumulative_benchmark_of close]>
             (<["Strategy_Return" := strategy_return_of close position]>
                (<["Daily_Return" := daily_return_of close]> df))))).

(** The frame as it stands when [.iloc[-1]] raises. *)
Definition returns_frame (close position : Series) (df : gmap string Series)
    : gmap string Series :=
  <["Cumulative_Strategy" := cumulative_strategy_of close position]>
    (<["Cumulative_Benchmark" := cumulative_benchmark_of close]>
       (<["Strategy_Return" := strategy_return_of close position]>
          (<["Daily_Return" := daily_return_of close]> df))).

Definition last_value (s : Series) : float64 := default NaN (last s).

Definition sharpe_of (strategy_return : Series) : float64 :=
  if feqb (std sqrt strategy_return) (Fin 0) then NaN
  else fdiv (fmul (mean strategy_return) (Fin 252))
            (fmul (std sqrt strategy_return) (sqrt (Fin 252))).

Definition calmar_of (strategy_return : Series) (max_drawdown : float64)
    : float64 :=
  if feqb max_drawdown (Fin 0) then NaN
  else fdiv (fmul (mean strategy_return) (Fin 252)) max_drawdown.

Definition beta_of (strategy_return daily_return : Series) : float64 :=
  fdiv (cov strategy_return daily_return) (var daily_return).

(** The report [calculate_metrics] returns. *)
Definition metrics_of (close position : Series) : Metrics :=
  let sr := strategy_return_of close position in
  let dr := daily_return_of close in
  {| total_strategy_return :=
       fsub (last_value (cumulative_strategy_of close position)) (Fin 1);
     total_benchmark_return :=
       fsub (last_value (cumulative_benchmark_of close)) (Fin 1);
     sharpe_ratio := sharpe_of sr;
     maximum_drawdown := smax (drawdown_of close position);
     beta := beta_of sr dr;
     annualised_alpha :=
       fmul (fsub (mean sr) (fmul (beta_of sr dr) (mean dr))) (Fin 252);
     annualised_volatility := fmul (std sqrt sr) (sqrt (Fin 252));
     calmar_ratio := calmar_of sr (smax (drawdown_of close position)) |}.

Lemma shift1_length (s : Series) : length (shift1 s) = length s.
Proof. unfold shift1. rewrite length_take. simpl. lia. Qed.

Lemma accumulate_length f acc (s : Series) :
  length (accumulate f acc s) = length s.
Proof.
  revert acc. induction s as [|x s IH]; intros acc; simpl; [done|].
  destruct (is_nan x); simpl; by rewrite IH.
Qed.

Lemma pct_change_length (s : Series) : length (pct_change s) = length s.
Proof.
  unfold pct_change, sub_scalar, sdiv.
  rewrite length_fmap, length_zip_with, shift1_length. lia.
Qed.

Lemma strategy_return_length (close position : Series) :
  length position = length close ->
  length (strategy_return_of close position) = length close.
Proof.
  intros E. unfold strategy_return_of, smul, daily_return_of.
  rewrite length_zip_with, pct_change_length, shift1_length. lia.
Qed.

Lemma cumulative_strategy_length (close position : Series) :
  length position = length close ->
  length (cumulative_strategy_of close position) = length close.
Proof.
  intros E. unfold cumulative_strategy_of, cumprod, scalar_add.
  by rewrite accumulate_length, length_fmap, strategy_return_length.
Qed.

Lemma cumulative_benchmark_length (close : Series) :
  length (cumulative_benchmark_of close) = length close.
Proof.
  unfold cumulative_benchmark_of, cumprod, scalar_add, daily_return_of.
  by rewrite accumulate_length, length_fmap, pct_change_length.
Qed.

Lemma last_value_ok (s : Series) : s <> [] -> last s = Some (last_value s).
Proof.
  intros Hs. unfold last_value.
  destruct (last s) eqn:E; [done|]. by apply last_None in E.
Qed.

Lemma nonempty_length (s : Series) : s <> [] <-> 0 < length s.
Proof. destruct s; simpl; split; (done || lia). Qed.

End Columns.

(** One step of a computation on the frame at [r], which is in the store. *)
Ltac step_at Hr :=
  first
    [ erewrite setcol_at;
      [| by rewrite ?length_insert
       | rewrite ?frame_insert by (by rewrite ?length_insert); reflexivity ];
      rewrite ?list_insert_insert_eq
    | erewrite getcol_ok
        by (rewrite ?frame_insert by (by rewrite ?length_insert);
            simplify_map_eq; reflexivity) ];
  cbn beta iota.

Section MetricsRun.

Variable sqrt : float64 -> float64.

Lemma calculate_metrics_run h data df close position :
  h !! data = Some df ->
  df !! "Close" = Some close ->
  df !! "Position" = Some position ->
  length position = length close ->
  close <> [] ->
  calculate_metrics sqrt data h
  = (Ok (metrics_of sqrt close position),
     <[data := metrics_frame close position df]> h).
Proof.
  intros Hdf Hclose Hpos Hlen Hne.
  assert (Hr : data < length h) by (by eapply lookup_lt_Some).
  assert (Hf : frame h data = df) by (by apply frame_lookup).
  unfold calculate_metrics.
  erewrite bind_ok; [| erewrite getcol_ok by (rewrite Hf; eassumption); reflexivity].
  erewrite bind_ok; [| erewrite setcol_at by (done || exact Hf); reflexivity].
  cbn beta iota.
  assert (Hcs : last (cumulative_strategy_of close position)
                = Some (last_value (cumulative_strategy_of close position))).
  { apply last_value_ok, nonempty_length.
    rewrite cumulative_strategy_length by done. by apply nonempty_length. }
  assert (Hcb : last (cumulative_benchmark_of close)
                = Some (last_value (cumulative_benchmark_of close))).
  { apply last_value_ok, nonempty_length.
    rewrite cumulative_benchmark_length. by apply nonempty_length. }
  repeat (erewrite bind_ok;
          [| first [ step_at Hr; reflexivity
                   | apply iloc_last_ok; first [exact Hcs | exact Hcb] ] ]).
  unfold ret. reflexivity.
Qed.

Lemma analyze_strategy_performance_run h data df close position :
  h !! data = Some df ->
  df !! "Close" = Some close ->
  df !! "Position" = Some position ->
  length position = length close ->
  close <> [] ->
  analyze_strategy_performance data h
  = (Ok data, <[data := metrics_frame close position df]> h).
Proof.
  intros Hdf Hclose Hpos Hlen Hne.
  assert (Hr : data < length h) by (by eapply lookup_lt_Some).
  assert (Hf : frame h data = df) by (by apply frame_lookup).
  unfold analyze_strategy_performance.
  erewrite bind_ok; [| erewrite getcol_ok by (rewrite Hf; eassumption); reflexivity].
  erewrite bind_ok; [| erewrite setcol_at by (done || exact Hf); reflexivity].
  cbn beta iota.
  assert (Hcs : last (cumulative_strategy_of close position)
                = Some (last_value (cumulative_strategy_of close position))).
  { apply last_value_ok, nonempty_length.
    rewrite cumulative_strategy_length by done. by apply nonempty_length. }
  assert (Hcb : last (cumulative_benchmark_of close)
                = Some (last_value (cumulative_benchmark_of close))).
  { apply last_value_ok, nonempty_length.
    rewrite cumulative_benchmark_length. by apply nonempty_length. }
  repeat (erewrite bind_ok;
          [| first [ step_at Hr; reflexivity
                   | apply iloc_last_ok; first [exact Hcs | exact Hcb] ] ]).
  unfold ret. reflexivity.
Qed.

(** On a frame without rows the last-row access raises, after the four
    return columns have been written. *)
Lemma calculate_metrics_empty h data df position :
  h !! data = Some df ->
  df !! "Close" = Some [] ->
  df !! "Position" = Some position ->
  calculate_metrics sqrt data h
  = (Raise IndexError, <[data := returns_frame [] position df]> h).
Proof.
  intros Hdf Hclose Hpos.
  assert (Hr : data < length h) by (by eapply lookup_lt_Some).
  assert (Hf : frame h data = df) by (by apply frame_lookup).
  unfold calculate_metrics.
  erewrite bind_ok; [| erewrite getcol_ok by (rewrite Hf; eassumption); reflexivity].
  erewrite bind_ok; [| erewrite setcol_at by (done || exact Hf); reflexivity].
  cbn beta iota.
  do 8 (erewrite bind_ok; [| step_at Hr; reflexivity]).
  erewrite bind_raise; [reflexivity | apply iloc_last_nil].
Qed.

End MetricsRun.

(** ** Sample data and a sample square root, for evaluating the model *)

(** A price frame as the data provider returns it: the closes in row
    order under the column "Close". *)
Definition prices_frame (closes : list Q) : gmap string Series :=
  {[ "Close" := Fin <$> closes ]}.

Definition demo_prices : list Q :=
  [100; 102; 101; 105; 110; 108; 115; 120; 118; 125]%Q.

(** A constant price series. *)
Definition flat_prices : list Q := [100; 100; 100]%Q.

(** An upper rational approximation of the square root (six decimals),
    positive on positive arguments. *)
Definition sample_sqrt (x : float64) : float64 :=
  match x with
  | Fin q =>
      match Qnum q with
      | Z0 => Fin 0
      | Zpos n =>
          Fin (Qred ((Z.sqrt (Zpos n * Zpos (Qden q) * 1000000000000) + 1)
                     # (Qden q * 1000000)))
      | Zneg _ => NaN
      end
  | NInf => NaN
  | other => other
  end.

(** The two calls the script makes once the windows are known. *)
Definition backtest (sqrt : float64 -> float64) (data : ref)
    (short_window long_window : nat) : M (ref * Metrics) :=
  data_with_signals <- calc_strategy_performance data short_window long_window ;;
  metrics <- calculate_metrics sqrt data_with_signals ;;
  ret (data_with_signals, metrics).

(** ** Rows of the signal, crossover and position columns *)

Section SignalRows.

Implicit Types (s close : Series) (t : nat).

Lemma shift1_lookup_0 s : s <> [] -> shift1 s !! 0 = Some NaN.
Proof. destruct s; [done|]. reflexivity. Qed.

Lemma shift1_lookup_S s t : S t < length s -> shift1 s !! S t = s !! t.
Proof.
  intros Ht. unfold shift1. rewrite lookup_take_lt by done. reflexivity.
Qed.

Lemma rolling_mean_length w s : length (rolling_mean w s) = length s.
Proof. unfold rolling_mean. by rewrite length_fmap, length_seq. Qed.

Lemma rolling_mean_lookup w s t :
  t < length s -> rolling_mean w s !! t = Some (rolling_mean_at w s t).
Proof.
  intros Ht. unfold rolling_mean.
  by rewrite list_lookup_fmap, lookup_seq_lt.
Qed.

Lemma at_row_lookup s t x : s !! t = Some x -> at_row s t = x.
Proof. intros E. unfold at_row. by rewrite E. Qed.

Lemma lookup_at_row s t : t < length s -> s !! t = Some (at_row s t).
Proof.
  intros Ht. destruct (lookup_lt_is_Some_2 s t Ht) as [x E].
  by rewrite (at_row_lookup _ _ _ E).
Qed.

Lemma signal_length short_window long_window close :
  length (signal_of short_window long_window close) = length close.
Proof.
  unfold signal_of, where_gt.
  rewrite length_app, length_take, length_replicate, length_zip_with,
    !length_drop, !rolling_mean_length.
  lia.
Qed.

Lemma signal_lookup short_window long_window close t :
  t < length close ->
  signal_of short_window long_window close !! t
  = Some (if decide (long_window <= t)
          then if fgtb (at_row (rolling_mean short_window close) t)
                       (at_row (rolling_mean long_window close) t)
               then Fin 1 else Fin 0
          else Fin 0).
Proof.
  intros Ht. unfold signal_of.
  destruct (decide (long_window <= t)) as [Hl|Hl].
  - rewrite lookup_app_r; rewrite length_take, length_replicate; [|lia].
    replace (long_window `min` length close) with long_window by lia.
    unfold where_gt. rewrite lookup_zip_with, !lookup_drop.
    replace (long_window + (t - long_window)) with t by lia.
    rewrite !rolling_mean_lookup by done. simpl.
    by rewrite !(at_row_lookup _ _ _ (rolling_mean_lookup _ _ _ Ht)).
  - rewrite lookup_app_l; [|rewrite length_take, length_replicate; lia].
    rewrite lookup_take_lt by lia. apply lookup_replicate_2. lia.
Qed.

Lemma position_length short_window long_window close :
  length (position_of short_window long_window close) = length close.
Proof. unfold position_of. by rewrite shift1_length, signal_length. Qed.

End SignalRows.

Section SignalFrame.

Variables (short_window long_window : nat) (close : Series).
Variable df : gmap string Series.

Lemma signals_frame_fast_ma :
  signals_frame short_window long_window close df !! "Fast_MA"
  = Some (rolling_mean short_window close).
Proof. unfold signals_frame. by simplify_map_eq. Qed.

Lemma signals_frame_slow_ma :
  signals_frame short_window long_window close df !! "Slow_MA"
  = Some (rolling_mean long_window close).
Proof. unfold signals_frame. by simplify_map_eq. Qed.

Lemma signals_frame_signal :
  signals_frame short_window long_window close df !! "Signal"
  = Some (signal_of short_window long_window close).
Proof. unfold signals_frame. by simplify_map_eq. Qed.

Lemma signals_frame_crossover :
  signals_frame short_window long_window close df !! "Crossover"
  = Some (crossover_of short_window long_window close).
Proof. unfold signals_frame. by simplify_map_eq. Qed.

Lemma signals_frame_position :
  signals_frame short_window long_window close df !! "Position"
  = Some (position_of short_window long_window close).
Proof. unfold signals_frame. by simplify_map_eq. Qed.

Lemma signals_frame_close :
  df !! "Close" = Some close ->
  signals_frame short_window long_window close df !! "Close" = Some close.
Proof. intros E. unfold signals_frame. by simplify_map_eq. Qed.

End SignalFrame.

(** ** C3: the signal rule *)

(** C3. In the frame [calc_strategy_performance] returns, the signal at
    row [t] is 1.0 exactly when [t >= long_window] and
    [Fast_MA[t] > Slow_MA[t]], and 0.0 at every other row; every row before
    [long_window] is 0.0 whatever the averages are. *)
Theorem signal_rule (h : store) (data : ref) (close : Series)
    (short_window long_window : nat) :
  frame h data !! "Close" = Some close ->
  exists (r : ref) (h' : store) (fast_ma slow_ma signal : Series),
    calc_strategy_performance data short_window long_window h = (Ok r, h')
    /\ frame h' r !! "Fast_MA" = Some fast_ma
    /\ frame h' r !! "Slow_MA" = Some slow_ma
    /\ frame h' r !! "Signal" = Some signal
    /\ length signal = length close
    /\ forall t, t < length close ->
         (signal !! t = Some (Fin 1) \/ signal !! t = Some (Fin 0))
         /\ (signal !! t = Some (Fin 1)
             <-> long_window <= t
                 /\ fgtb (at_row fast_ma t) (at_row slow_ma t) = true)
         /\ (t < long_window -> signal !! t = Some (Fin 0)).
Proof.
  intros Hclose.
  eexists _, _, _, _, _. split.
  { by apply calc_strategy_performance_run. }
  rewrite frame_snoc, signals_frame_fast_ma, signals_frame_slow_ma,
    signals_frame_signal.
  split_and!; try reflexivity; [apply signal_length|].
  intros t Ht. rewrite signal_lookup by done.
  destruct (decide (long_window <= t)) as [Hl|Hl];
    [destruct (fgtb _ _) eqn:Hgt|]; split_and!; auto;
    try lia; try (split; [intros [=] | intros [? ?]]; (done || lia)).
Qed.

Lemma signal_rule_witness :
  exists (r : ref) (h' : store) (fast_ma slow_ma signal : Series),
    calc_strategy_performance 0 2 4 [prices_frame demo_prices] = (Ok r, h')
    /\ frame h' r !! "Fast_MA" = Some fast_ma
    /\ frame h' r !! "Slow_MA" = Some slow_ma
    /\ frame h' r !! "Signal" = Some signal
    /\ length signal = length (Fin <$> demo_prices)
    /\ forall t, t < length (Fin <$> demo_prices) ->
         (signal !! t = Some (Fin 1) \/ signal !! t = Some (Fin 0))
         /\ (signal !! t = Some (Fin 1)
             <-> 4 <= t /\ fgtb (at_row fast_ma t) (at_row slow_ma t) = true)
         /\ (t < 4 -> signal !! t = Some (Fin 0)).
Proof.
  apply (signal_rule [prices_frame demo_prices] 0 (Fin <$> demo_prices) 2 4).
  vm_compute. reflexivity.
Defined.

(** ** C2: the position is the signal of the previous row *)

(** C2. For a non-empty price series, the frame
    [calc_strategy_performance] returns has [Position[t] = Signal[t-1]] at
    every row [t > 0], and [Position[0]] is NaN (undefined). *)
Theorem position_lags_signal (h : store) (data : ref) (close : Series)
    (short_window long_window : nat) :
  frame h data !! "Close" = Some close ->
  close <> [] ->
  exists (r : ref) (h' : store) (signal position : Series),
    calc_strategy_performance data short_window long_window h = (Ok r, h')
    /\ frame h' r !! "Signal" = Some signal
    /\ frame h' r !! "Position" = Some position
    /\ length signal = length close
    /\ length position = length close
    /\ position !! 0 = Some NaN
    /\ forall t, 0 < t -> t < length close ->
         position !! t = signal !! (t - 1)
         /\ position !! t = Some (at_row signal (t - 1)).
Proof.
  intros Hclose Hne.
  eexists _, _, _, _. split.
  { by apply calc_strategy_performance_run. }
  rewrite frame_snoc, signals_frame_signal, signals_frame_position.
  split_and!; try reflexivity.
  - apply signal_length.
  - apply position_length.
  - apply shift1_lookup_0. apply nonempty_length.
    rewrite signal_length. by apply nonempty_length.
  - intros t Hpos Ht. destruct t as [|t]; [lia|].
    unfold position_of. rewrite shift1_lookup_S by (by rewrite signal_length).
    replace (S t - 1) with t by lia. split; [done|].
    apply lookup_at_row. rewrite signal_length. lia.
Qed.

Lemma position_lags_signal_witness :
  exists (r : ref) (h' : store) (signal position : Series),
    calc_strategy_performance 0 2 4 [prices_frame demo_prices] = (Ok r, h')
    /\ frame h' r !! "Signal" = Some signal
    /\ frame h' r !! "Position" = Some position
    /\ length signal = length (Fin <$> demo_prices)
    /\ length position = length (Fin <$> demo_prices)
    /\ position !! 0 = Some NaN
    /\ forall t, 0 < t -> t < length (Fin <$> demo_prices) ->
         position !! t = signal !! (t - 1)
         /\ position !! t = Some (at_row signal (t - 1)).
Proof.
  apply (position_lags_signal [prices_frame demo_prices] 0
           (Fin <$> demo_prices) 2 4).
  - vm_compute. reflexivity.
  - discriminate.
Defined.

(** ** C9: crossovers *)

Section Crossovers.

(** The number of rows a comparison [column == v] selects, as
    [data.loc[data['Crossover'] == 1.0]] does for the buy markers. *)
Definition count_eq (s : Series) (v : float64) : nat :=
  length (filter (fun x => feqb x v = true) s).

Definition binary (x : float64) : Prop := x = Fin 0 \/ x = Fin 1.

(** [f] applied to every row and the row before it, for a column whose
    previous row holds [prev]. *)
Fixpoint pairwise (f : float64 -> float64 -> float64) (prev : float64)
    (s : Series) : Series :=
  match s with
  | [] => []
  | x :: s' => f x prev :: pairwise f x s'
  end.

(** The differences of a column whose previous row holds [prev]. *)
Abbreviation diffs_from := (pairwise fsub).

Definition bit (x : float64) : nat := if feqb x (Fin 1) then 1 else 0.

Lemma zip_shift (f : float64 -> float64 -> float64) (prev : float64)
    (s : Series) :
  zip_with f s (take (length s) (prev :: s)) = pairwise f prev s.
Proof.
  revert prev. induction s as [|x s IH]; intros prev; [done|].
  simpl. f_equal. apply IH.
Qed.

Lemma diff_cons (x : float64) (s : Series) :
  diff (x :: s) = fsub x NaN :: diffs_from x s.
Proof.
  unfold diff, ssub, shift1. simpl. f_equal. apply zip_shift.
Qed.

Lemma fsub_nan_r (x : float64) : fsub x NaN = NaN.
Proof. by destruct x. Qed.

Lemma count_eq_cons (x : float64) (s : Series) (v : float64) :
  count_eq (x :: s) v = (if feqb x v then 1 else 0) + count_eq s v.
Proof.
  unfold count_eq. rewrite filter_cons.
  destruct (decide (feqb x v = true)) as [E|E].
  - rewrite E. reflexivity.
  - apply not_true_is_false in E. rewrite E. reflexivity.
Qed.

Lemma last_cons_default (x d : float64) (s : Series) :
  List.last (x :: s) d = List.last s x.
Proof.
  revert x d. induction s as [|y s IH]; intros x d; [done|].
  change (List.last (x :: y :: s) d) with (List.last (y :: s) d).
  rewrite IH. symmetry. apply IH.
Qed.

(** Ups and downs telescope: each +1 raises a 0/1 column from 0 to 1 and
    each -1 lowers it back. *)
Lemma diffs_balance (prev : float64) (s : Series) :
  binary prev -> Forall binary s ->
  count_eq (diffs_from prev s) (Fin 1) + bit prev
  = count_eq (diffs_from prev s) (Fin (-1)) + bit (List.last s prev).
Proof.
  intros Hp Hs. revert prev Hp.
  induction Hs as [|x s Hx Hs IH]; intros prev Hp; [reflexivity|].
  cbn [pairwise]. rewrite !count_eq_cons.
  specialize (IH x Hx).
  rewrite last_cons_default.
  remember (count_eq (diffs_from x s) (Fin 1)) as ups.
  remember (count_eq (diffs_from x s) (Fin (-1))) as downs.
  remember (bit (List.last s x)) as final.
  clear -IH Hp Hx.
  destruct Hp as [-> | ->], Hx as [-> | ->]; unfold bit in *;
    repeat match goal with
      | |- context [feqb ?a ?b] =>
          let v := eval vm_compute in (feqb a b) in change (feqb a b) with v
      | H : context [feqb ?a ?b] |- _ =>
          let v := eval vm_compute in (feqb a b) in
          change (feqb a b) with v in H
      end;
    lia.
Qed.

End Crossovers.

Section CrossoverRows.

Variables (short_window long_window : nat) (close : Series).

Lemma fgtb_nan_r (x : float64) : fgtb x NaN = false.
Proof. by destruct x. Qed.

Lemma fgtb_nan_l (x : float64) : fgtb NaN x = false.
Proof. by destruct x. Qed.

Lemma rolling_mean_at_window_0 (s : Series) (t : nat) :
  rolling_mean_at 0 s t = NaN.
Proof.
  unfold rolling_mean_at, window.
  replace (t + 1 - (t + 1 - 0)) with 0 by lia.
  rewrite take_0. reflexivity.
Qed.

Lemma signal_binary : Forall binary (signal_of short_window long_window close).
Proof.
  apply Forall_lookup. intros t x Hx.
  assert (Ht : t < length close).
  { rewrite <- (signal_length short_window long_window). by eapply lookup_lt_Some. }
  rewrite signal_lookup in Hx by done. injection Hx as <-.
  destruct (decide _); [destruct (fgtb _ _)|]; by (left + right).
Qed.

(** The first signal is 0.0: row 0 is before any positive [long_window],
    and with [long_window = 0] the slow average is NaN everywhere. *)
Lemma signal_head (x : float64) :
  signal_of short_window long_window close !! 0 = Some x -> x = Fin 0.
Proof.
  intros Hx.
  assert (Ht : 0 < length close).
  { rewrite <- (signal_length short_window long_window). by eapply lookup_lt_Some. }
  rewrite signal_lookup in Hx by done. injection Hx as <-.
  destruct (decide (long_window <= 0)) as [Hl|Hl]; [|done].
  assert (long_window = 0) as -> by lia.
  rewrite (at_row_lookup _ _ _ (rolling_mean_lookup 0 close 0 Ht)).
  by rewrite rolling_mean_at_window_0, fgtb_nan_r.
Qed.

Lemma crossover_length :
  length (crossover_of short_window long_window close) = length close.
Proof.
  unfold crossover_of, diff, ssub.
  rewrite length_zip_with, shift1_length, signal_length. lia.
Qed.

Lemma crossover_lookup_0 :
  close <> [] -> crossover_of short_window long_window close !! 0 = Some NaN.
Proof.
  intros Hne. unfold crossover_of, diff, ssub.
  assert (Hs : signal_of short_window long_window close <> []).
  { apply nonempty_length. rewrite signal_length. by apply nonempty_length. }
  rewrite lookup_zip_with, shift1_lookup_0 by done.
  destruct (signal_of short_window long_window close) as [|x s]; [done|].
  simpl. by rewrite fsub_nan_r.
Qed.

Lemma crossover_lookup_S (t : nat) :
  S t < length close ->
  crossover_of short_window long_window close !! S t
  = Some (fsub (at_row (signal_of short_window long_window close) (S t))
               (at_row (signal_of short_window long_window close) t)).
Proof.
  intros Ht. unfold crossover_of, diff, ssub.
  rewrite lookup_zip_with, shift1_lookup_S by (by rewrite signal_length).
  rewrite !lookup_at_row by (rewrite signal_length; lia). reflexivity.
Qed.

Lemma crossover_counts :
  count_eq (crossover_of short_window long_window close) (Fin 1)
  = count_eq (crossover_of short_window long_window close) (Fin (-1))
  \/ count_eq (crossover_of short_window long_window close) (Fin 1)
     = count_eq (crossover_of short_window long_window close) (Fin (-1)) + 1.
Proof.
  unfold crossover_of.
  pose proof signal_binary as Hb. pose proof signal_head as Hh.
  destruct (signal_of short_window long_window close) as [|x s]; [by left|].
  rewrite (Hh x) in * by done. apply Forall_cons in Hb as [Hx Hs].
  rewrite diff_cons, fsub_nan_r, !count_eq_cons.
  pose proof (diffs_balance (Fin 0) s Hx Hs) as Hbal.
  change (feqb NaN (Fin 1)) with false. change (feqb NaN (Fin (-1))) with false.
  change (bit (Fin 0)) with 0 in Hbal.
  unfold bit in Hbal. destruct (feqb (List.last s (Fin 0)) (Fin 1)); [right|left]; lia.
Qed.

End CrossoverRows.

(** C9. In the frame [calc_strategy_performance] returns,
    [Crossover[t] = Signal[t] - Signal[t-1]] at every row [t > 0] and
    [Crossover[0]] is NaN; the number of rows with crossover +1 equals the
    number of rows with crossover -1 or exceeds it by exactly one. *)
Theorem crossover_balance (h : store) (data : ref) (close : Series)
    (short_window long_window : nat) :
  frame h data !! "Close" = Some close ->
  exists (r : ref) (h' : store) (signal crossover : Series),
    calc_strategy_performance data short_window long_window h = (Ok r, h')
    /\ frame h' r !! "Signal" = Some signal
    /\ frame h' r !! "Crossover" = Some crossover
    /\ length crossover = length close
    /\ (close <> [] -> crossover !! 0 = Some NaN)
    /\ (forall t, 0 < t -> t < length close ->
          crossover !! t
          = Some (fsub (at_row signal t) (at_row signal (t - 1))))
    /\ (count_eq crossover (Fin 1) = count_eq crossover (Fin (-1))
        \/ count_eq crossover (Fin 1) = count_eq crossover (Fin (-1)) + 1).
Proof.
  intros Hclose.
  eexists _, _, _, _. split.
  { by apply calc_strategy_performance_run. }
  rewrite frame_snoc, signals_frame_signal, signals_frame_crossover.
  split_and!; try reflexivity.
  - apply crossover_length.
  - apply crossover_lookup_0.
  - intros t Hpos Ht. destruct t as [|t]; [lia|].
    rewrite crossover_lookup_S by done.
    by replace (S t - 1) with t by lia.
  - apply crossover_counts.
Qed.

Lemma crossover_balance_witness :
  exists (r : ref) (h' : store) (signal crossover : Series),
    calc_strategy_performance 0 2 4 [prices_frame demo_prices] = (Ok r, h')
    /\ frame h' r !! "Signal" = Some signal
    /\ frame h' r !! "Crossover" = Some crossover
    /\ length crossover = length (Fin <$> demo_prices)
    /\ (Fin <$> demo_prices <> [] -> crossover !! 0 = Some NaN)
    /\ (forall t, 0 < t -> t < length (Fin <$> demo_prices) ->
          crossover !! t
          = Some (fsub (at_row signal t) (at_row signal (t - 1))))
    /\ (count_eq crossover (Fin 1) = count_eq crossover (Fin (-1))
        \/ count_eq crossover (Fin 1) = count_eq crossover (Fin (-1)) + 1).
Proof.
  apply (crossover_balance [prices_frame demo_prices] 0
           (Fin <$> demo_prices) 2 4).
  vm_compute. reflexivity.
Defined.

(** ** The back-test as a whole *)

Section Backtest.

Variable sqrt : float64 -> float64.
Variables (short_window long_window : nat) (close : Series).

Lemma backtest_run (h : store) (data : ref) :
  frame h data !! "Close" = Some close ->
  close <> [] ->
  backtest sqrt data short_window long_window h
  = (Ok (length h,
         metrics_of sqrt close (position_of short_window long_window close)),
     h ++ [metrics_frame close (position_of short_window long_window close)
             (signals_frame short_window long_window close (frame h data))]).
Proof.
  intros Hclose Hne. unfold backtest.
  erewrite bind_ok by (by apply calc_strategy_performance_run).
  erewrite bind_ok.
  2:{ apply calculate_metrics_run with
        (df := signals_frame short_window long_window close (frame h data))
        (close := close)
        (position := position_of short_window long_window close);
        [ by rewrite lookup_app_r, Nat.sub_diag
        | by apply signals_frame_close
        | apply signals_frame_position
        | apply position_length
        | done ]. }
  unfold ret. by rewrite insert_snoc.
Qed.

(** On a price frame without rows the back-test raises IndexError. *)
Lemma backtest_empty (h : store) (data : ref) :
  frame h data !! "Close" = Some [] ->
  backtest sqrt data short_window long_window h
  = (Raise IndexError,
     h ++ [returns_frame [] (position_of short_window long_window [])
             (signals_frame short_window long_window [] (frame h data))]).
Proof.
  intros Hclose. unfold backtest.
  erewrite bind_ok by (by apply calc_strategy_performance_run).
  erewrite bind_raise; [reflexivity|].
  erewrite calculate_metrics_empty;
    [ by rewrite insert_snoc
    | by rewrite lookup_app_r, Nat.sub_diag
    | by apply signals_frame_close
    | apply signals_frame_position ].
Qed.

Variable df : gmap string Series.

Lemma metrics_frame_daily_return (position : Series) :
  metrics_frame close position df !! "Daily_Return" = Some (daily_return_of close).
Proof. unfold metrics_frame. by simplify_map_eq. Qed.

Lemma metrics_frame_strategy_return (position : Series) :
  metrics_frame close position df !! "Strategy_Return"
  = Some (strategy_return_of close position).
Proof. unfold metrics_frame. by simplify_map_eq. Qed.

Lemma metrics_frame_other (position : Series) (name : string) :
  name <> "Daily_Return" -> name <> "Strategy_Return" ->
  name <> "Cumulative_Benchmark" -> name <> "Cumulative_Strategy" ->
  name <> "Cumulative_Max" -> name <> "Drawdown" ->
  metrics_frame close position df !! name = df !! name.
Proof. intros. unfold metrics_frame. by simplify_map_eq. Qed.

Lemma strategy_return_lookup_S (position : Series) (t : nat) :
  length position = length close -> S t < length close ->
  strategy_return_of close position !! S t
  = Some (fmul (at_row (daily_return_of close) (S t)) (at_row position t)).
Proof.
  intros Hlen Ht. unfold strategy_return_of, smul.
  rewrite lookup_zip_with, shift1_lookup_S by lia.
  rewrite (lookup_at_row (daily_return_of close))
    by (unfold daily_return_of; by rewrite pct_change_length).
  rewrite (lookup_at_row position) by lia. reflexivity.
Qed.

End Backtest.

(** The older script: [calc_strategy_performance] followed by
    [analyze_strategy_performance]. *)
Definition legacy_backtest (data : ref) (short_window long_window : nat) : M ref :=
  data_with_signals <- calc_strategy_performance data short_window long_window ;;
  analyze_strategy_performance data_with_signals.

Lemma legacy_backtest_run (short_window long_window : nat) (close : Series)
    (h : store) (data : ref) :
  frame h data !! "Close" = Some close ->
  close <> [] ->
  legacy_backtest data short_window long_window h
  = (Ok (length h),
     h ++ [metrics_frame close (position_of short_window long_window close)
             (signals_frame short_window long_window close (frame h data))]).
Proof.
  intros Hclose Hne. unfold legacy_backtest.
  erewrite bind_ok by (by apply calc_strategy_performance_run).
  erewrite analyze_strategy_performance_run with
      (df := signals_frame short_window long_window close (frame h data))
      (close := close)
      (position := position_of short_window long_window close);
    [ by rewrite insert_snoc
    | by rewrite lookup_app_r, Nat.sub_diag
    | by apply signals_frame_close
    | apply signals_frame_position
    | apply position_length
    | done ].
Qed.

(** ** C1: the strategy return lags the signal by two rows *)

(** C1. After [calc_strategy_performance] and [calculate_metrics] (or, in
    the older script, [analyze_strategy_performance]), every row [t >= 2]
    has [Strategy_Return[t] = Daily_Return[t] * Position[t-1]], and
    [Position[t-1] = Signal[t-2]]: the signal of row [t] is multiplied into
    the return of row [t+2] and into no other. *)
Theorem strategy_return_double_lag (sqrt : float64 -> float64) (h : store)
    (data : ref) (close : Series) (short_window long_window : nat) :
  frame h data !! "Close" = Some close ->
  close <> [] ->
  exists (r : ref) (m : Metrics) (h' : store)
         (signal position daily_return strategy_return : Series),
    backtest sqrt data short_window long_window h = (Ok (r, m), h')
    /\ legacy_backtest data short_window long_window h = (Ok r, h')
    /\ frame h' r !! "Signal" = Some signal
    /\ frame h' r !! "Position" = Some position
    /\ frame h' r !! "Daily_Return" = Some daily_return
    /\ frame h' r !! "Strategy_Return" = Some strategy_return
    /\ length strategy_return = length close
    /\ forall t, 2 <= t -> t < length close ->
         strategy_return !! t
         = Some (fmul (at_row daily_return t) (at_row position (t - 1)))
         /\ position !! (t - 1) = signal !! (t - 2)
         /\ strategy_return !! t
            = Some (fmul (at_row daily_return t) (at_row signal (t - 2))).
Proof.
  intros Hclose Hne.
  eexists _, _, _, _, _, _, _. split; [by apply backtest_run|].
  split; [by apply legacy_backtest_run|].
  rewrite frame_snoc, metrics_frame_daily_return, metrics_frame_strategy_return,
    !metrics_frame_other, signals_frame_signal, signals_frame_position by done.
  split_and!; try reflexivity.
  { apply strategy_return_length, position_length. }
  intros t H2 Ht.
  destruct t as [|[|t]]; [lia|lia|].
  replace (S (S t) - 1) with (S t) by lia.
  replace (S (S t) - 2) with t by lia.
  assert (Hpos : position_of short_window long_window close !! S t
                 = signal_of short_window long_window close !! t).
  { unfold position_of. apply shift1_lookup_S. rewrite signal_length. lia. }
  split_and!.
  - apply strategy_return_lookup_S; [apply position_length|done].
  - exact Hpos.
  - rewrite strategy_return_lookup_S by (apply position_length || done).
    unfold at_row at 2 3. by rewrite Hpos.
Qed.

Lemma strategy_return_double_lag_witness :
  exists (r : ref) (m : Metrics) (h' : store)
         (signal position daily_return strategy_return : Series),
    backtest sample_sqrt 0 2 4 [prices_frame demo_prices] = (Ok (r, m), h')
    /\ legacy_backtest 0 2 4 [prices_frame demo_prices] = (Ok r, h')
    /\ frame h' r !! "Signal" = Some signal
    /\ frame h' r !! "Position" = Some position
    /\ frame h' r !! "Daily_Return" = Some daily_return
    /\ frame h' r !! "Strategy_Return" = Some strategy_return
    /\ length strategy_return = length (Fin <$> demo_prices)
    /\ forall t, 2 <= t -> t < length (Fin <$> demo_prices) ->
         strategy_return !! t
         = Some (fmul (at_row daily_return t) (at_row position (t - 1)))
         /\ position !! (t - 1) = signal !! (t - 2)
         /\ strategy_return !! t
            = Some (fmul (at_row daily_return t) (at_row signal (t - 2))).
Proof.
  apply (strategy_return_double_lag sample_sqrt [prices_frame demo_prices] 0
           (Fin <$> demo_prices) 2 4).
  - vm_compute. reflexivity.
  - discriminate.
Defined.

(** ** C6: the worked example *)

(** C6, as stated, fails: on the ten demo prices with windows 2 and 4 the
    averages at row 3 are 103 and 102, but the signal at row 3 is not 1. *)
Lemma demo_signal_row3_not_one :
  ~ exists (r : ref) (h' : store) (fast_ma slow_ma signal position : Series),
      calc_strategy_performance 0 2 4 [prices_frame demo_prices] = (Ok r, h')
      /\ frame h' r !! "Fast_MA" = Some fast_ma
      /\ frame h' r !! "Slow_MA" = Some slow_ma
      /\ frame h' r !! "Signal" = Some signal
      /\ frame h' r !! "Position" = Some position
      /\ fast_ma !! 3 = Some (Fin 103)
      /\ slow_ma !! 3 = Some (Fin 102)
      /\ signal !! 3 = Some (Fin 1)
      /\ position !! 3 = signal !! 2
      /\ position !! 3 = Some (Fin 0).
Proof.
  intros (r & h' & fast_ma & slow_ma & signal & position
          & Hrun & _ & _ & Hsig & _ & _ & _ & H3 & _).
  rewrite (calc_strategy_performance_run _ _ _ _ (Fin <$> demo_prices)) in Hrun
    by reflexivity.
  injection Hrun as <- <-.
  change (frame _ _)
    with (signals_frame 2 4 (Fin <$> demo_prices)
            (frame [prices_frame demo_prices] 0)) in Hsig.
  rewrite signals_frame_signal in Hsig. injection Hsig as <-.
  vm_compute in H3. discriminate H3.
Qed.

(** C6, amended. On the ten demo prices with windows 2 and 4 the fast
    average at row 3 is 103 and the slow one 102, and 103 > 102, but row 3
    is before [long_window = 4], so the signal at row 3 is 0; the position
    at row 3 is the signal at row 2, which is 0; the first signal of 1 is
    at row 4. *)
Theorem demo_scenario :
  exists (r : ref) (h' : store) (fast_ma slow_ma signal position : Series),
    calc_strategy_performance 0 2 4 [prices_frame demo_prices] = (Ok r, h')
    /\ frame h' r !! "Fast_MA" = Some fast_ma
    /\ frame h' r !! "Slow_MA" = Some slow_ma
    /\ frame h' r !! "Signal" = Some signal
    /\ frame h' r !! "Position" = Some position
    /\ fast_ma !! 3 = Some (Fin 103)
    /\ slow_ma !! 3 = Some (Fin 102)
    /\ fgtb (Fin 103) (Fin 102) = true
    /\ signal !! 3 = Some (Fin 0)
    /\ signal !! 4 = Some (Fin 1)
    /\ position !! 3 = signal !! 2
    /\ position !! 3 = Some (Fin 0).
Proof.
  eexists _, _, _, _, _, _.
  split; [by apply (calc_strategy_performance_run _ _ _ _ (Fin <$> demo_prices))|].
  rewrite frame_snoc, signals_frame_fast_ma, signals_frame_slow_ma,
    signals_frame_signal, signals_frame_position.
  split_and!; vm_compute; reflexivity.
Qed.

(** ** The optimiser's loop *)

Section Optimiser.

Variable sqrt : float64 -> float64.

(** The window pairs in the order the nested loops visit them. *)
Definition candidates : list (nat * nat) :=
  list_prod short_window_range long_window_range.

(** The comparison at the end of the loop body. *)
Definition improve (sharpe : float64) (params : nat * nat) (best : incumbent)
    : incumbent :=
  if fgtb sharpe best.1 then (sharpe, params) else best.

(** The incumbent after scoring [pairs] in order with [score]. *)
Definition select (score : nat * nat -> float64) (pairs : list (nat * nat))
    (best : incumbent) : incumbent :=
  foldl (fun b p => improve (score p) p b) best pairs.

Variables (data : ref) (df : gmap string Series) (close : Series).

(** The Sharpe ratio of a window pair, and the frame its evaluation
    leaves in the store. *)
Definition candidate_sharpe (p : nat * nat) : float64 :=
  sharpe_ratio (metrics_of sqrt close (position_of p.1 p.2 close)).

Definition candidate_frame (p : nat * nat) : gmap string Series :=
  metrics_frame close (position_of p.1 p.2 close)
    (signals_frame p.1 p.2 close df).

Hypothesis Hclose : df !! "Close" = Some close.
Hypothesis Hne : close <> [].

Lemma optimise_body_run (short long : nat) (best : incumbent) (h : store) :
  h !! data = Some df ->
  short < long ->
  optimise_body sqrt data short long best h
  = (Ok (improve (candidate_sharpe (short, long)) (short, long) best),
     h ++ [candidate_frame (short, long)]).
Proof.
  intros Hdf Hlt. unfold optimise_body.
  rewrite decide_False by lia.
  pose proof (frame_lookup _ _ _ Hdf) as Hf.
  erewrite bind_ok
    by (apply calc_strategy_performance_run; rewrite Hf; exact Hclose).
  erewrite bind_ok.
  2:{ apply calculate_metrics_run with
        (df := signals_frame short long close (frame h data))
        (close := close) (position := position_of short long close);
        [ by rewrite lookup_app_r, Nat.sub_diag
        | apply signals_frame_close; by rewrite Hf
        | apply signals_frame_position
        | apply position_length
        | done ]. }
  rewrite insert_snoc, Hf.
  unfold improve, candidate_sharpe, candidate_frame. simpl.
  by destruct (fgtb _ _).
Qed.

Lemma inner_loop_run (short : nat) (longs : list nat) (best : incumbent)
    (h : store) :
  h !! data = Some df ->
  Forall (fun long => short < long) longs ->
  for_each longs (optimise_body sqrt data short) best h
  = (Ok (select candidate_sharpe (pair short <$> longs) best),
     h ++ (candidate_frame <$> (pair short <$> longs))).
Proof.
  intros Hdf Hall. revert best h Hdf.
  induction Hall as [|long longs Hlt Hall IH]; intros best h Hdf.
  { simpl. unfold ret. by rewrite app_nil_r. }
  cbn [for_each].
  erewrite bind_ok by (by apply optimise_body_run).
  rewrite IH by (by apply lookup_app_l_Some).
  cbn. by rewrite <- app_assoc.
Qed.

Lemma select_app (score : nat * nat -> float64) (ps qs : list (nat * nat))
    (best : incumbent) :
  select score (ps ++ qs) best = select score qs (select score ps best).
Proof. apply foldl_app. Qed.

Lemma outer_loop_run (shorts longs : list nat) (best : incumbent) (h : store) :
  h !! data = Some df ->
  Forall (fun short => Forall (fun long => short < long) longs) shorts ->
  for_each shorts (fun short => for_each longs (optimise_body sqrt data short))
    best h
  = (Ok (select candidate_sharpe (list_prod shorts longs) best),
     h ++ (candidate_frame <$> list_prod shorts longs)).
Proof.
  intros Hdf Hall. revert best h Hdf.
  induction Hall as [|short shorts Hlt Hall IH]; intros best h Hdf.
  { simpl. unfold ret. by rewrite app_nil_r. }
  cbn [for_each list_prod].
  erewrite bind_ok by (by apply inner_loop_run).
  rewrite IH by (by apply lookup_app_l_Some).
  rewrite select_app, fmap_app, app_assoc. reflexivity.
Qed.

Lemma ranges_ordered :
  Forall (fun short => Forall (fun long => short < long) long_window_range)
    short_window_range.
Proof. vm_compute. repeat (constructor; [repeat (constructor; [lia|]); constructor|]). constructor. Qed.

Lemma optimise_strategy_run (h : store) :
  h !! data = Some df ->
  optimise_strategy sqrt data h
  = (Ok (select candidate_sharpe candidates (NInf, (0, 0))).2,
     h ++ (candidate_frame <$> candidates)).
Proof.
  intros Hdf. unfold optimise_strategy.
  erewrite bind_ok by (apply outer_loop_run; [done | apply ranges_ordered]).
  reflexivity.
Qed.

End Optimiser.

(** ** Arithmetic on zero and on undefined values *)

Section ZeroOrNaN.

Implicit Types (x y : float64) (s : Series).

Lemma Qred_zero (q : Q) : (q == 0)%Q -> Qred q = 0%Q.
Proof. intros E. by rewrite (Qred_complete _ _ E). Qed.

Lemma fmul_zero_l (b : Q) : fmul (Fin 0) (Fin b) = Fin 0.
Proof. reflexivity. Qed.

Lemma fmul_zero_r (a : Q) : fmul (Fin a) (Fin 0) = Fin 0.
Proof. unfold fmul. f_equal. apply Qred_zero. lra. Qed.

Lemma fdiv_nan_r x : fdiv x NaN = NaN.
Proof. by destruct x. Qed.

Lemma fmul_nan_r x : fmul x NaN = NaN.
Proof. by destruct x. Qed.

(** A value that is NaN or exactly zero. *)
Definition nullish x : Prop := x = NaN \/ x = Fin 0.

(** A value that is NaN or finite. *)
Definition no_inf x : Prop := x = NaN \/ exists q, x = Fin q.

Lemma binary_no_inf x : binary x -> no_inf x.
Proof. intros [-> | ->]; right; eauto. Qed.

Lemma fmul_nullish_l x y : nullish x -> no_inf y -> nullish (fmul x y).
Proof.
  intros [-> | ->] [-> | [q ->]]; try (by left).
  right. apply fmul_zero_l.
Qed.

Lemma Forall_shift1 (P : float64 -> Prop) s :
  P NaN -> Forall P s -> Forall P (shift1 s).
Proof. intros H0 Hs. unfold shift1. apply Forall_take. by constructor. Qed.

Lemma Forall_zip_with (P Q R : float64 -> Prop)
    (f : float64 -> float64 -> float64) (a b : Series) :
  (forall x y, P x -> Q y -> R (f x y)) ->
  Forall P a -> Forall Q b -> Forall R (zip_with f a b).
Proof.
  intros Hf Ha. revert b.
  induction Ha as [|x a Hx Ha IH]; intros b Hb; [constructor|].
  destruct Hb as [|y b Hy Hb]; constructor; auto.
Qed.

Lemma valid_nullish s : Forall nullish s -> valid s = replicate (count s) (Fin 0).
Proof.
  unfold count, valid. induction 1 as [|x s [-> | ->] Hs IH].
  - reflexivity.
  - rewrite filter_cons_False by (by intros [=]). exact IH.
  - rewrite filter_cons_True by done. simpl. by rewrite <- IH.
Qed.

Lemma foldl_fadd_zeros (k : nat) : foldl fadd (Fin 0) (replicate k (Fin 0)) = Fin 0.
Proof. induction k as [|k IH]; [done|]. exact IH. Qed.

Lemma Qeq_bool_of_nat_S (k : nat) : Qeq_bool (inject_Z (Z.of_nat (S k))) 0 = false.
Proof.
  destruct (Qeq_bool _ _) eqn:E; [|done].
  apply Qeq_bool_eq in E. unfold Qeq in E. simpl in E. lia.
Qed.

Lemma fdiv_zero_of_nat_S (k : nat) : fdiv (Fin 0) (of_nat (S k)) = Fin 0.
Proof.
  unfold of_nat, of_Z, fdiv. rewrite Qeq_bool_of_nat_S. reflexivity.
Qed.

Lemma mean_nullish s :
  Forall nullish s -> mean s = if count s is 0 then NaN else Fin 0.
Proof.
  intros Hs. unfold mean, nansum. rewrite (valid_nullish s Hs).
  destruct (count s) as [|k]; [done|].
  rewrite foldl_fadd_zeros. apply fdiv_zero_of_nat_S.
Qed.

Lemma var_nullish s :
  Forall nullish s -> var s = if decide (count s <= 1) then NaN else Fin 0.
Proof.
  intros Hs. unfold var. destruct (decide (count s <= 1)) as [|Hk]; [done|].
  cbv zeta. rewrite (mean_nullish s Hs), (valid_nullish s Hs).
  destruct (count s) as [|[|k]]; [lia|lia|].
  rewrite fmap_replicate.
  change (fmul (fsub (Fin 0) (Fin 0)) (fsub (Fin 0) (Fin 0))) with (Fin 0).
  rewrite foldl_fadd_zeros.
  replace (S (S k) - 1) with (S k) by lia. apply fdiv_zero_of_nat_S.
Qed.

End ZeroOrNaN.

(** ** What the engine needs of the square root *)

(** [np.sqrt] maps NaN to NaN and 0 to 0, and [np.sqrt(252)] is a finite
    number other than 0. *)
Record sqrt_spec (sqrt : float64 -> float64) : Prop := {
  sqrt_nan : sqrt NaN = NaN;
  sqrt_zero : sqrt (Fin 0) = Fin 0;
  sqrt_252 : exists r : Q, sqrt (Fin 252) = Fin r /\ ~ (r == 0)%Q
}.

Lemma sample_sqrt_spec : sqrt_spec sample_sqrt.
Proof.
  split; [reflexivity | reflexivity |].
  eexists. split; [vm_compute; reflexivity|]. intros E. discriminate E.
Qed.

Section FlatReturns.

Variable sqrt : float64 -> float64.
Hypothesis Hsqrt : sqrt_spec sqrt.

Lemma sharpe_nullish (sr : Series) : Forall nullish sr -> sharpe_of sqrt sr = NaN.
Proof.
  intros Hs. unfold sharpe_of, std. rewrite (var_nullish sr Hs).
  destruct (decide (count sr <= 1)).
  - rewrite (sqrt_nan _ Hsqrt). simpl. apply fdiv_nan_r.
  - by rewrite (sqrt_zero _ Hsqrt).
Qed.

Lemma strategy_return_nullish (close position : Series) :
  Forall nullish (daily_return_of close) ->
  Forall no_inf position ->
  Forall nullish (strategy_return_of close position).
Proof.
  intros Hd Hp. unfold strategy_return_of, smul.
  apply (Forall_zip_with nullish no_inf nullish); [apply fmul_nullish_l|done|].
  apply Forall_shift1; [by left | done].
Qed.

Lemma position_no_inf (short_window long_window : nat) (close : Series) :
  Forall no_inf (position_of short_window long_window close).
Proof.
  unfold position_of. apply Forall_shift1; [by left|].
  eapply Forall_impl; [apply signal_binary | apply binary_no_inf].
Qed.

(** On constant prices every daily return is 0, or NaN in the first row
    and when the constant is 0. *)
Lemma constant_daily_return (c : Q) (n : nat) :
  Forall nullish (daily_return_of (replicate n (Fin c))).
Proof.
  unfold daily_return_of, pct_change, sub_scalar, sdiv.
  apply Forall_fmap.
  apply (Forall_zip_with (fun x => x = Fin c)
           (fun y => y = NaN \/ y = Fin c)).
  - intros x y -> [-> | ->]; simpl; [by left|].
    destruct (Qeq_bool c 0) eqn:E.
    + apply Qeq_bool_eq in E. unfold Qeq in E. simpl in E.
      unfold qsgn. replace (Qnum c) with 0%Z by lia. by left.
    + rewrite (Qred_complete (c / c) 1).
      * by right.
      * apply Qeq_bool_neq in E. by field.
  - apply Forall_replicate. reflexivity.
  - apply Forall_shift1; [by left|]. apply Forall_replicate. by right.
Qed.

Lemma constant_sharpe (c : Q) (n : nat) (p : nat * nat) :
  candidate_sharpe sqrt (replicate n (Fin c)) p = NaN.
Proof.
  unfold candidate_sharpe, metrics_of. cbn [sharpe_ratio].
  apply sharpe_nullish, strategy_return_nullish.
  - apply constant_daily_return.
  - apply position_no_inf.
Qed.

End FlatReturns.

(** ** The selection rule of the optimiser *)

Section Selection.

Implicit Types (x y z : float64) (p q : nat * nat) (best : incumbent).

Lemma fgtb_fin (a b : Q) : fgtb (Fin a) (Fin b) = true <-> (b < a)%Q.
Proof.
  unfold fgtb, fcmp. rewrite Qgt_alt.
  destruct (a ?= b)%Q; split; (done || intros; congruence).
Qed.

Lemma fgtb_fin_false (a b : Q) : fgtb (Fin a) (Fin b) = false <-> (a <= b)%Q.
Proof.
  rewrite <- not_true_iff_false, fgtb_fin. split; [apply Qnot_lt_le | apply Qle_not_lt].
Qed.

Lemma fgtb_irrefl x : fgtb x x = false.
Proof. destruct x; try done. apply fgtb_fin_false. lra. Qed.

(** Whatever does not beat the old incumbent does not beat a better one. *)
Lemma fgtb_raise x y z : fgtb y x = true -> fgtb z x = false -> fgtb z y = false.
Proof.
  destruct x as [| |a|], y as [| |b|], z as [| |c|]; try done.
  rewrite fgtb_fin, !fgtb_fin_false. lra.
Qed.

(** ... and is strictly below the better one, unless it is NaN. *)
Lemma fgtb_below x y z :
  fgtb y x = true -> fgtb z x = false -> fgtb y z = true \/ z = NaN.
Proof.
  destruct x as [| |a|], y as [| |b|], z as [| |c|]; try done; auto.
  rewrite !fgtb_fin, fgtb_fin_false. intros. left. lra.
Qed.

Lemma improve_keeps sharpe p best :
  fgtb sharpe best.1 = false -> improve sharpe p best = best.
Proof. intros E. unfold improve. by rewrite E. Qed.

Lemma improve_tie sharpe p best :
  feqb sharpe best.1 = true -> improve sharpe p best = best.
Proof.
  intros E. apply improve_keeps. unfold feqb in E. unfold fgtb.
  by destruct (fcmp sharpe best.1) as [[]|].
Qed.

Lemma improve_nan p best : improve NaN p best = best.
Proof. apply improve_keeps, fgtb_nan_l. Qed.

Variable score : nat * nat -> float64.

Lemma select_snoc (ps : list (nat * nat)) p best :
  select score (ps ++ [p]) best = improve (score p) p (select score ps best).
Proof. unfold select. by rewrite foldl_app. Qed.

Lemma select_none (ps : list (nat * nat)) best :
  Forall (fun p => fgtb (score p) best.1 = false) ps ->
  select score ps best = best.
Proof.
  induction 1 as [|p ps Hp Hps IH]; [done|].
  unfold select in *. simpl. by rewrite improve_keeps.
Qed.

(** The incumbent after a scan: the initial one if no score beat it, and
    otherwise the first pair whose score no pair of the list beats. *)
Definition first_strict_max (ps : list (nat * nat)) (init result : incumbent)
    : Prop :=
  (result = init /\ Forall (fun q => fgtb (score q) init.1 = false) ps)
  \/ (exists i : nat,
        ps !! i = Some result.2
        /\ result.1 = score result.2
        /\ fgtb result.1 init.1 = true
        /\ Forall (fun q => fgtb (score q) result.1 = false) ps
        /\ forall j q, j < i -> ps !! j = Some q ->
             fgtb result.1 (score q) = true \/ score q = NaN).

Lemma select_first_strict_max (ps : list (nat * nat)) (init : incumbent) :
  first_strict_max ps init (select score ps init).
Proof.
  induction ps as [|p ps IH] using rev_ind.
  { left. split; [done | constructor]. }
  rewrite select_snoc. unfold improve.
  destruct (fgtb (score p) (select score ps init).1) eqn:Hgt.
  - (* [p] strictly improves on the incumbent *)
    right. exists (length ps). cbn [fst snd].
    assert (Hall : Forall (fun q => fgtb (score q) (select score ps init).1 = false) ps).
    { destruct IH as [[-> Hall] | (i & _ & _ & _ & Hall & _)]; done. }
    assert (Hinit : fgtb (score p) init.1 = true).
    { destruct IH as [[E _] | (i & _ & _ & Hi & _)]; [by rewrite E in Hgt|].
      destruct (fgtb (score p) init.1) eqn:E; [done|].
      pose proof (fgtb_raise _ _ _ Hi E) as Hc. congruence. }
    split_and!.
    + by rewrite lookup_app_r, Nat.sub_diag.
    + done.
    + done.
    + apply Forall_app. split.
      * eapply Forall_impl; [exact Hall|]. intros q Hq. cbn beta in *.
        exact (fgtb_raise _ _ _ Hgt Hq).
      * constructor; [apply fgtb_irrefl | constructor].
    + intros j q Hj Hq. rewrite lookup_app_l in Hq by done.
      eapply fgtb_below; [exact Hgt|].
      eapply (proj1 (Forall_lookup _ _) Hall); eauto.
  - (* the incumbent stays *)
    destruct IH as [[E Hall] | (i & Hi & Hs & Hgi & Hall & Hbefore)].
    + left. split; [done|]. apply Forall_app. split; [done|].
      constructor; [by rewrite <- E | constructor].
    + right. exists i. split_and!; try done.
      * by apply lookup_app_l_Some.
      * apply Forall_app. split; [done|]. by repeat constructor.
      * intros j q Hj Hq. apply (Hbefore j q Hj).
        rewrite lookup_app_l in Hq; [done|].
        apply lookup_lt_Some in Hi. lia.
Qed.

End Selection.

(** ** When the first evaluation of the sweep raises *)

Section SweepFailure.

Variable sqrt : float64 -> float64.

Lemma calc_strategy_performance_no_close (h : store) (data : ref)
    (short_window long_window : nat) :
  frame h data !! "Close" = None ->
  calc_strategy_performance data short_window long_window h
  = (Raise (KeyError "Close"), h ++ [frame h data]).
Proof.
  intros Hclose. unfold calc_strategy_performance.
  rewrite (bind_ok (copy data) _ h (length h) (h ++ [frame h data])) by done.
  by erewrite bind_raise by (apply getcol_raise; by rewrite frame_snoc).
Qed.

(** A loop ends with the exception its first iteration raises. *)
Lemma for_each_raise {A S} (x : A) (xs : list A) (body : A -> S -> M S)
    (s : S) (h h' : store) (e : exn) :
  body x s h = (Raise e, h') -> for_each (x :: xs) body s h = (Raise e, h').
Proof. intros E. cbn [for_each]. by erewrite bind_raise. Qed.

Lemma optimise_strategy_first_raise (h h' : store) (data : ref) (e : exn) :
  optimise_body sqrt data 10 100 (NInf, (0, 0)) h = (Raise e, h') ->
  optimise_strategy sqrt data h = (Raise e, h').
Proof.
  intros E. unfold optimise_strategy.
  erewrite bind_raise; [reflexivity|].
  change short_window_range with (10 :: range 15 61 5).
  apply for_each_raise.
  change long_window_range with (100 :: range 110 251 10).
  by apply for_each_raise.
Qed.

Lemma optimise_body_no_close (h : store) (data : ref) (short long : nat)
    (best : incumbent) :
  short < long ->
  frame h data !! "Close" = None ->
  optimise_body sqrt data short long best h
  = (Raise (KeyError "Close"), h ++ [frame h data]).
Proof.
  intros Hlt Hclose. unfold optimise_body. rewrite decide_False by lia.
  by erewrite bind_raise by (by apply calc_strategy_performance_no_close).
Qed.

Lemma optimise_body_empty (h : store) (data : ref) (short long : nat)
    (best : incumbent) :
  short < long ->
  frame h data !! "Close" = Some [] ->
  optimise_body sqrt data short long best h
  = (Raise IndexError,
     h ++ [returns_frame [] (position_of short long [])
             (signals_frame short long [] (frame h data))]).
Proof.
  intros Hlt Hclose. unfold optimise_body. rewrite decide_False by lia.
  erewrite bind_ok by (by apply calc_strategy_performance_run).
  erewrite bind_raise; [reflexivity|].
  erewrite calculate_metrics_empty;
    [ by rewrite insert_snoc
    | by rewrite lookup_app_r, Nat.sub_diag
    | by apply signals_frame_close
    | apply signals_frame_position ].
Qed.

End SweepFailure.

(** ** C10: every pair of the grid is scored *)

(** C10, as stated, fails in its "on every run": on a price frame without
    rows only the first pair, (10, 100), is evaluated; [calculate_metrics]
    raises IndexError at [.iloc[-1]] and the sweep ends there, with one
    frame allocated instead of 176. *)
Lemma sweep_on_empty_frame :
  exists f : gmap string Series,
    optimise_strategy sample_sqrt 0 [prices_frame []]
    = (Raise IndexError, [prices_frame []; f]).
Proof.
  eexists. apply optimise_strategy_first_raise.
  apply (optimise_body_empty sample_sqrt [prices_frame []] 0 10 100);
    [lia | vm_compute; reflexivity].
Qed.

(** C10, amended. The ranges are 10, 15, ..., 60 and 100, 110, ..., 250;
    every pair they generate has [short < long], so the skip test never
    fires and the pairs left after it are all 11 x 16 = 176; a run on a
    price frame with at least one row scores each of them once, allocating
    one frame per pair. *)
Theorem grid_all_valid (sqrt : float64 -> float64) (h : store) (data : ref)
    (df : gmap string Series) (close : Series) :
  h !! data = Some df ->
  df !! "Close" = Some close ->
  close <> [] ->
  short_window_range = [10; 15; 20; 25; 30; 35; 40; 45; 50; 55; 60]
  /\ long_window_range
     = [100; 110; 120; 130; 140; 150; 160; 170; 180; 190; 200; 210; 220;
        230; 240; 250]
  /\ Forall (fun p => p.1 < p.2) candidates
  /\ filter (fun p => ~ p.2 <= p.1) candidates = candidates
  /\ length candidates = 176
  /\ (forall short long best h0,
        In (short, long) candidates -> h0 !! data = Some df ->
        exists best', optimise_body sqrt data short long best h0
                      = (Ok best', h0 ++ [candidate_frame df close (short, long)]))
  /\ exists (best : nat * nat) (h' : store),
       optimise_strategy sqrt data h = (Ok best, h')
       /\ h' = h ++ (candidate_frame df close <$> candidates)
       /\ length h' = length h + 176.
Proof.
  intros Hdf Hclose Hne.
  assert (Hlt : Forall (fun p => p.1 < p.2) candidates).
  { apply List.Forall_forall. intros [short long] Hin.
    apply in_prod_iff in Hin as [Hs Hl].
    pose proof ranges_ordered as Hr.
    rewrite List.Forall_forall in Hr. specialize (Hr short Hs).
    rewrite List.Forall_forall in Hr. exact (Hr long Hl). }
  split; [vm_compute; reflexivity|].
  split; [vm_compute; reflexivity|].
  split; [exact Hlt|].
  split.
  { clear -Hlt. induction Hlt as [|p ps Hp Hps IH]; [done|].
    rewrite filter_cons_True by lia. by f_equal. }
  split; [vm_compute; reflexivity|].
  split.
  { intros short long best h0 Hin Hdf0. eexists.
    apply optimise_body_run; [exact Hclose | exact Hne | exact Hdf0 |].
    rewrite List.Forall_forall in Hlt. exact (Hlt _ Hin). }
  eexists _, _. split; [by apply optimise_strategy_run|].
  split; [reflexivity|]. rewrite length_app, length_fmap. reflexivity.
Qed.

Lemma grid_all_valid_witness :
  short_window_range = [10; 15; 20; 25; 30; 35; 40; 45; 50; 55; 60]
  /\ long_window_range
     = [100; 110; 120; 130; 140; 150; 160; 170; 180; 190; 200; 210; 220;
        230; 240; 250]
  /\ Forall (fun p => p.1 < p.2) candidates
  /\ filter (fun p => ~ p.2 <= p.1) candidates = candidates
  /\ length candidates = 176
  /\ (forall short long best h0,
        In (short, long) candidates ->
        h0 !! 0 = Some (prices_frame demo_prices) ->
        exists best', optimise_body sample_sqrt 0 short long best h0
                      = (Ok best',
                         h0 ++ [candidate_frame (prices_frame demo_prices)
                                  (Fin <$> demo_prices) (short, long)]))
  /\ exists (best : nat * nat) (h' : store),
       optimise_strategy sample_sqrt 0 [prices_frame demo_prices] = (Ok best, h')
       /\ h' = [prices_frame demo_prices]
               ++ (candidate_frame (prices_frame demo_prices)
                     (Fin <$> demo_prices) <$> candidates)
       /\ length h' = length [prices_frame demo_prices] + 176.
Proof.
  apply (grid_all_valid sample_sqrt [prices_frame demo_prices] 0
           (prices_frame demo_prices) (Fin <$> demo_prices)).
  - reflexivity.
  - vm_compute. reflexivity.
  - discriminate.
Defined.

(** ** C5: which pair the optimiser returns *)

(** C5. On a price frame with at least one row, [optimise_strategy] scores
    the pairs short-outer, long-inner, both ascending; the incumbent starts
    as (-inf, (0, 0)) and is replaced only by a strictly greater Sharpe
    ratio, so an equal one keeps the earlier pair and a NaN one never
    replaces it; the result is the first pair whose Sharpe ratio no pair
    beats, and it is the sentinel (0, 0) when no Sharpe ratio is greater
    than -inf, as on a constant price series, where every Sharpe ratio is
    NaN. *)
Theorem optimiser_selection (sqrt : float64 -> float64) (h : store)
    (data : ref) (df : gmap string Series) (close : Series) :
  sqrt_spec sqrt ->
  h !! data = Some df ->
  df !! "Close" = Some close ->
  close <> [] ->
  exists (best : incumbent) (h' : store),
    optimise_strategy sqrt data h = (Ok best.2, h')
    /\ candidates
       = flat_map (fun i => (fun j => (10 + 5 * i, 100 + 10 * j)) <$> seq 0 16)
           (seq 0 11)
    /\ h' = h ++ (candidate_frame df close <$> candidates)
    /\ best = select (candidate_sharpe sqrt close) candidates (NInf, (0, 0))
    /\ (forall ps p b,
          select (candidate_sharpe sqrt close) (ps ++ [p]) b
          = let b' := select (candidate_sharpe sqrt close) ps b in
            if fgtb (candidate_sharpe sqrt close p) b'.1
            then (candidate_sharpe sqrt close p, p) else b')
    /\ (forall sharpe p b, feqb sharpe b.1 = true -> improve sharpe p b = b)
    /\ (forall p b, improve NaN p b = b)
    /\ first_strict_max (candidate_sharpe sqrt close) candidates
         (NInf, (0, 0)) best
    /\ (Forall (fun q => fgtb (candidate_sharpe sqrt close q) NInf = false)
          candidates ->
        best.2 = (0, 0))
    /\ (forall c : Q,
          close = replicate (length close) (Fin c) ->
          Forall (fun q => candidate_sharpe sqrt close q = NaN) candidates
          /\ best.2 = (0, 0)).
Proof.
  intros Hsqrt Hdf Hclose Hne.
  exists (select (candidate_sharpe sqrt close) candidates (NInf, (0, 0))).
  eexists. split; [by apply optimise_strategy_run|].
  split; [vm_compute; reflexivity|].
  split; [reflexivity|]. split; [reflexivity|].
  split_and!.
  - intros ps p b. apply select_snoc.
  - apply improve_tie.
  - apply improve_nan.
  - apply select_first_strict_max.
  - intros Hall. by rewrite select_none.
  - intros c Hc.
    assert (Hnan : forall q, candidate_sharpe sqrt close q = NaN).
    { intros q. rewrite Hc. by apply constant_sharpe. }
    split.
    + apply Forall_forall. intros q _. apply Hnan.
    + rewrite select_none; [done|].
      apply Forall_forall. intros q _. by rewrite Hnan.
Qed.

Lemma optimiser_selection_witness :
  exists (best : incumbent) (h' : store),
    optimise_strategy sample_sqrt 0 [prices_frame flat_prices] = (Ok best.2, h')
    /\ candidates
       = flat_map (fun i => (fun j => (10 + 5 * i, 100 + 10 * j)) <$> seq 0 16)
           (seq 0 11)
    /\ h' = [prices_frame flat_prices]
            ++ (candidate_frame (prices_frame flat_prices) (Fin <$> flat_prices)
                  <$> candidates)
    /\ best = select (candidate_sharpe sample_sqrt (Fin <$> flat_prices))
                candidates (NInf, (0, 0))
    /\ (forall ps p b,
          select (candidate_sharpe sample_sqrt (Fin <$> flat_prices)) (ps ++ [p]) b
          = let b' := select (candidate_sharpe sample_sqrt (Fin <$> flat_prices))
                        ps b in
            if fgtb (candidate_sharpe sample_sqrt (Fin <$> flat_prices) p) b'.1
            then (candidate_sharpe sample_sqrt (Fin <$> flat_prices) p, p)
            else b')
    /\ (forall sharpe p b, feqb sharpe b.1 = true -> improve sharpe p b = b)
    /\ (forall p b, improve NaN p b = b)
    /\ first_strict_max (candidate_sharpe sample_sqrt (Fin <$> flat_prices))
         candidates (NInf, (0, 0)) best
    /\ (Forall (fun q => fgtb (candidate_sharpe sample_sqrt (Fin <$> flat_prices) q)
                           NInf = false)
          candidates ->
        best.2 = (0, 0))
    /\ (forall c : Q,
          Fin <$> flat_prices = replicate (length (Fin <$> flat_prices)) (Fin c) ->
          Forall (fun q => candidate_sharpe sample_sqrt (Fin <$> flat_prices) q = NaN)
            candidates
          /\ best.2 = (0, 0)).
Proof.
  apply (optimiser_selection sample_sqrt [prices_frame flat_prices] 0
           (prices_frame flat_prices) (Fin <$> flat_prices)).
  - exact sample_sqrt_spec.
  - reflexivity.
  - vm_compute. reflexivity.
  - discriminate.
Defined.

(** On three constant prices the optimiser returns the sentinel. *)
Example optimise_constant_prices :
  (optimise_strategy sample_sqrt 0 [prices_frame flat_prices]).1 = Ok (0, 0).
Proof.
  rewrite (optimise_strategy_run sample_sqrt 0 (prices_frame flat_prices)
             (replicate 3 (Fin 100))) by (reflexivity || discriminate).
  cbn [fst]. vm_compute. reflexivity.
Qed.

(** ** C8: which frames a call changes *)

Section FrameEffects.

(** [m] changes at most the columns [cols] of the frame at [r]: the store
    keeps its length, every other frame and every other column of that
    frame is as before. *)
Definition writes_only {A} (r : ref) (cols : list string) (m : M A) : Prop :=
  forall h : store,
    length (m h).2 = length h
    /\ (forall r', r' <> r -> (m h).2 !! r' = h !! r')
    /\ (forall name, name ∉ cols -> frame (m h).2 r !! name = frame h r !! name).

Lemma writes_only_ret {A} r cols (a : A) : writes_only r cols (ret a).
Proof. intros h. done. Qed.

Lemma writes_only_raise {A} r cols e : writes_only r cols (@raise A e).
Proof. intros h. done. Qed.

Lemma writes_only_getcol r cols name : writes_only r cols (getcol r name).
Proof. intros h. unfold getcol. by destruct (frame h r !! name). Qed.

Lemma writes_only_iloc_last r cols (s : Series) : writes_only r cols (iloc_last s).
Proof. intros h. unfold iloc_last. by destruct (last s). Qed.

Lemma writes_only_setcol r cols name (s : Series) :
  name ∈ cols -> writes_only r cols (setcol r name s).
Proof.
  intros Hin h. unfold setcol. cbn [snd]. split_and!.
  - apply length_insert.
  - intros r' Hr'. by apply list_lookup_insert_ne.
  - intros name' Hnot.
    destruct (decide (r < length h)) as [Hr|Hr].
    + rewrite frame_insert by done. apply lookup_insert_ne.
      intros ->. done.
    + by rewrite list_insert_ge by lia.
Qed.

Lemma writes_only_bind {A B} r cols (m : M A) (k : A -> M B) :
  writes_only r cols m -> (forall a, writes_only r cols (k a)) ->
  writes_only r cols (bind m k).
Proof.
  intros Hm Hk h. unfold bind.
  destruct (Hm h) as (Hlen & Hother & Hcols).
  destruct (m h) as [[a|e] h1]; [|done].
  destruct (Hk a h1) as (Hlen' & Hother' & Hcols'). cbn [snd] in *.
  split_and!.
  - congruence.
  - intros r' Hr'. by rewrite Hother', Hother.
  - intros name Hname. by rewrite Hcols', Hcols.
Qed.

(** The columns [calculate_metrics] assigns. *)
Definition metric_columns : list string :=
  ["Daily_Return"; "Strategy_Return"; "Cumulative_Benchmark";
   "Cumulative_Strategy"; "Cumulative_Max"; "Drawdown"].

Variable sqrt : float64 -> float64.

Lemma calculate_metrics_writes_only (data : ref) :
  writes_only data metric_columns (calculate_metrics sqrt data).
Proof.
  unfold calculate_metrics.
  repeat first
    [ apply writes_only_bind; [|intros ?]
    | apply writes_only_getcol
    | apply writes_only_iloc_last
    | apply writes_only_ret
    | apply writes_only_setcol; unfold metric_columns; set_solver ].
Qed.

Lemma analyze_strategy_performance_writes_only (data : ref) :
  writes_only data metric_columns (analyze_strategy_performance data).
Proof.
  unfold analyze_strategy_performance.
  repeat first
    [ apply writes_only_bind; [|intros ?]
    | apply writes_only_getcol
    | apply writes_only_iloc_last
    | apply writes_only_ret
    | apply writes_only_setcol; unfold metric_columns; set_solver ].
Qed.

(** [calc_strategy_performance] appends one frame to the store and returns
    a reference to it. *)
Lemma calc_strategy_performance_appends (h : store) (data : ref)
    (short_window long_window : nat) :
  exists f : gmap string Series,
    (calc_strategy_performance data short_window long_window h).2 = h ++ [f]
    /\ forall r, (calc_strategy_performance data short_window long_window h).1 = Ok r ->
         r = length h.
Proof.
  destruct (frame h data !! "Close") as [close|] eqn:Hclose.
  - rewrite (calc_strategy_performance_run _ _ _ _ close Hclose).
    eexists. split; [done|]. by intros r [= <-].
  - unfold calc_strategy_performance.
    rewrite (bind_ok (copy data) _ h (length h) (h ++ [frame h data])) by done.
    erewrite bind_raise by (apply getcol_raise; by rewrite frame_snoc).
    eexists. split; [done|]. by intros r [=].
Qed.

(** A store that agrees with [h ++ [f]] except at the last frame. *)
Lemma same_but_last (h h' : store) (f : gmap string Series) :
  length h' = length (h ++ [f]) ->
  (forall r, r <> length h -> h' !! r = (h ++ [f]) !! r) ->
  h' = h ++ [frame h' (length h)].
Proof.
  intros Hlen Hother. apply list_eq. intros r.
  destruct (decide (r = length h)) as [->|Hr].
  - rewrite lookup_app_r, Nat.sub_diag by done. cbn.
    rewrite length_app in Hlen. cbn in Hlen.
    destruct (lookup_lt_is_Some_2 h' (length h)) as [x Hx]; [lia|].
    by rewrite (frame_lookup _ _ _ Hx).
  - rewrite Hother by done.
    destruct (decide (r < length h)).
    + by rewrite !lookup_app_l.
    + rewrite !lookup_ge_None_2; [done| |]; rewrite length_app; cbn; lia.
Qed.

Lemma optimise_body_appends (data : ref) (short long : nat) (best : incumbent)
    (h : store) :
  exists fs, (optimise_body sqrt data short long best h).2 = h ++ fs.
Proof.
  unfold optimise_body.
  destruct (decide (long <= short)); [exists []; by rewrite app_nil_r|].
  destruct (calc_strategy_performance_appends h data short long)
    as (f & Hstore & Href).
  unfold bind at 1.
  destruct (calc_strategy_performance data short long h) as [[r|e] h1];
    cbn [fst snd] in *; subst h1; [|by eexists].
  rewrite (Href r eq_refl).
  destruct (calculate_metrics_writes_only (length h) (h ++ [f]))
    as (Hlen & Hother & _).
  unfold bind.
  destruct (calculate_metrics sqrt (length h) (h ++ [f])) as [[m|e] h2];
    cbn [snd] in *.
  - exists [frame h2 (length h)].
    destruct (fgtb _ _); cbn [snd]; by eapply same_but_last.
  - exists [frame h2 (length h)]. by eapply same_but_last.
Qed.

Lemma for_each_appends {A S} (xs : list A) (body : A -> S -> M S) (s : S)
    (h : store) :
  (forall x s h, exists fs, (body x s h).2 = h ++ fs) ->
  exists fs, (for_each xs body s h).2 = h ++ fs.
Proof.
  intros Hbody. revert s h.
  induction xs as [|x xs IH]; intros s h; cbn [for_each].
  { exists []. by rewrite app_nil_r. }
  unfold bind. destruct (Hbody x s h) as [fs1 H1].
  destruct (body x s h) as [[s'|e] h1]; cbn [snd] in *; subst h1.
  - destruct (IH s' (h ++ fs1)) as [fs2 H2].
    exists (fs1 ++ fs2). by rewrite H2, app_assoc.
  - by eexists.
Qed.

Lemma optimise_strategy_appends (data : ref) (h : store) :
  exists fs, (optimise_strategy sqrt data h).2 = h ++ fs.
Proof.
  unfold optimise_strategy.
  destruct (for_each_appends short_window_range
              (fun short => for_each long_window_range (optimise_body sqrt data short))
              (NInf, (0, 0)) h) as [fs Hfs].
  { intros short s h0. apply for_each_appends.
    intros long s0 h1. apply optimise_body_appends. }
  unfold bind.
  destruct (for_each _ _ _ h) as [[best|e] h1]; cbn [snd] in *; by exists fs.
Qed.

End FrameEffects.

(** C8, as stated, fails for [calculate_metrics]: it writes its columns
    into the frame it is given. After the call the frame the caller passed
    has a "Daily_Return" column it did not have before. *)
Lemma calculate_metrics_mutates_input :
  exists (r : ref) (h1 : store) (m : Metrics) (h2 : store),
    calc_strategy_performance 0 2 4 [prices_frame demo_prices] = (Ok r, h1)
    /\ calculate_metrics sample_sqrt r h1 = (Ok m, h2)
    /\ frame h1 r !! "Daily_Return" = None
    /\ frame h2 r !! "Daily_Return"
       = Some (daily_return_of (Fin <$> demo_prices))
    /\ h2 !! r <> h1 !! r.
Proof.
  pose (close := Fin <$> demo_prices).
  pose (sf := signals_frame 2 4 close (frame [prices_frame demo_prices] 0)).
  assert (Hnone : sf !! "Daily_Return" = None).
  { unfold sf, signals_frame, frame, prices_frame. by simplify_map_eq. }
  exists 1, ([prices_frame demo_prices] ++ [sf]). eexists _, _.
  split.
  { refine (calc_strategy_performance_run [prices_frame demo_prices] 0 2 4 close _).
    vm_compute. reflexivity. }
  split.
  { apply calculate_metrics_run with (df := sf) (close := close)
      (position := position_of 2 4 close);
      [ reflexivity
      | by apply signals_frame_close
      | apply signals_frame_position
      | apply position_length
      | discriminate ]. }
  assert (H1 : frame ([prices_frame demo_prices] ++ [sf]) 1 = sf) by reflexivity.
  assert (H2 : frame (<[1 := metrics_frame close (position_of 2 4 close) sf]>
                        ([prices_frame demo_prices] ++ [sf])) 1
               = metrics_frame close (position_of 2 4 close) sf) by reflexivity.
  rewrite H1, H2, metrics_frame_daily_return. split_and!; [done|done|].
  intros E.
  change (Some (metrics_frame close (position_of 2 4 close) sf) = Some sf) in E.
  apply (inj Some) in E. rename E into E'.
  pose proof (metrics_frame_daily_return close sf (position_of 2 4 close)) as Hd.
  rewrite E', Hnone in Hd. discriminate Hd.
Qed.

(** C8, amended. [calc_strategy_performance] leaves every frame of the
    store as it was and returns a reference to a new frame.
    [calculate_metrics] writes the six columns of [metric_columns] into the
    frame it is given, and changes no other column of it and no other
    frame. [optimise_strategy] applies [calculate_metrics] only to the
    copies, so each iteration and the whole search leave every frame that
    existed before, the caller's prices among them, as it was. *)
Theorem frame_effects (sqrt : float64 -> float64) (h : store) (data : ref)
    (short_window long_window : nat) :
  (exists f : gmap string Series,
     (calc_strategy_performance data short_window long_window h).2 = h ++ [f]
     /\ forall r, (calc_strategy_performance data short_window long_window h).1
                  = Ok r -> r = length h)
  /\ (length (calculate_metrics sqrt data h).2 = length h
      /\ (forall r, r <> data -> (calculate_metrics sqrt data h).2 !! r = h !! r)
      /\ (forall name, name ∉ metric_columns ->
            frame (calculate_metrics sqrt data h).2 data !! name
            = frame h data !! name))
  /\ (forall best,
        exists fs, (optimise_body sqrt data short_window long_window best h).2
                   = h ++ fs)
  /\ (exists fs, (optimise_strategy sqrt data h).2 = h ++ fs)
  /\ (forall r df, h !! r = Some df ->
        (calc_strategy_performance data short_window long_window h).2 !! r = Some df
        /\ (optimise_strategy sqrt data h).2 !! r = Some df).
Proof.
  pose proof (calc_strategy_performance_appends h data short_window long_window)
    as Hcalc.
  pose proof (optimise_strategy_appends sqrt data h) as Hopt.
  split_and!.
  - exact Hcalc.
  - apply calculate_metrics_writes_only.
  - apply calculate_metrics_writes_only.
  - apply calculate_metrics_writes_only.
  - intros best. apply optimise_body_appends.
  - exact Hopt.
  - intros r df Hr. destruct Hcalc as (f & -> & _), Hopt as (fs & ->).
    split; by apply lookup_app_l_Some.
Qed.

(** ** C4: the guards of the Sharpe and Calmar ratios *)

Section Ratios.

Implicit Types (x y : float64).

Lemma feqb_fin (a b : Q) : feqb (Fin a) (Fin b) = true <-> (a == b)%Q.
Proof.
  unfold feqb, fcmp. rewrite Qeq_alt.
  destruct (a ?= b)%Q; split; (done || intros; congruence).
Qed.

Lemma feqb_fin_false (a b : Q) : feqb (Fin a) (Fin b) = false <-> ~ (a == b)%Q.
Proof. by rewrite <- not_true_iff_false, feqb_fin. Qed.

Lemma inf_of_sign_nonzero (q : Q) :
  ~ (q == 0)%Q ->
  inf_of_sign (qsgn q) = PInf \/ inf_of_sign (qsgn q) = NInf.
Proof.
  intros Hq. unfold qsgn. destruct q as [[|n|n] d]; cbn.
  - destruct Hq. reflexivity.
  - by left.
  - by right.
Qed.

(** A product of two numbers other than 0 is not 0; infinities and NaN
    never compare equal to 0. *)
Lemma fmul_nonzero x (r : Q) :
  feqb x (Fin 0) = false -> ~ (r == 0)%Q -> feqb (fmul x (Fin r)) (Fin 0) = false.
Proof.
  intros Hx Hr. destruct x as [| |q|]; [done| |  |].
  - cbn. destruct (inf_of_sign_nonzero r Hr) as [E|E].
    + unfold qsgn in *. destruct (Qnum r); by cbn in *.
    + unfold qsgn in *. destruct (Qnum r); by cbn in *.
  - apply feqb_fin_false in Hx. unfold fmul. apply feqb_fin_false.
    rewrite Qred_correct. intros E. apply Qmult_integral in E. tauto.
  - cbn. unfold qsgn in *.
    destruct (inf_of_sign_nonzero r Hr) as [E|E];
      unfold qsgn in *; destruct (Qnum r); by cbn in *.
Qed.

Lemma fdiv_finite (a b : Q) :
  feqb (Fin b) (Fin 0) = false -> is_finite (fdiv (Fin a) (Fin b)) = true.
Proof.
  intros Hb. apply feqb_fin_false in Hb. unfold fdiv.
  destruct (Qeq_bool b 0) eqn:E; [|done]. by apply Qeq_bool_eq in E.
Qed.

Variable sqrt : float64 -> float64.
Hypothesis Hsqrt : sqrt_spec sqrt.

Lemma sharpe_guard (sr : Series) :
  (feqb (std sqrt sr) (Fin 0) = true -> sharpe_of sqrt sr = NaN)
  /\ (feqb (std sqrt sr) (Fin 0) = false ->
        sharpe_of sqrt sr
        = fdiv (fmul (mean sr) (Fin 252)) (fmul (std sqrt sr) (sqrt (Fin 252)))
        /\ feqb (fmul (std sqrt sr) (sqrt (Fin 252))) (Fin 0) = false)
  /\ (std sqrt sr = NaN -> sharpe_of sqrt sr = NaN)
  /\ (is_finite (std sqrt sr) = true -> feqb (std sqrt sr) (Fin 0) = false ->
        is_finite (mean sr) = true -> is_finite (sharpe_of sqrt sr) = true).
Proof.
  destruct (sqrt_252 _ Hsqrt) as (r & Hr & Hr0).
  unfold sharpe_of. rewrite Hr. split_and!.
  - by intros ->.
  - intros E. rewrite E. split; [done|]. by apply fmul_nonzero.
  - intros ->. cbn. apply fdiv_nan_r.
  - intros Hfin E Hmean. rewrite E.
    destruct (std sqrt sr) as [| |q|]; try done.
    destruct (mean sr) as [| |mu|]; try done.
    apply fdiv_finite. by apply (fmul_nonzero (Fin q)).
Qed.

Lemma calmar_guard (sr : Series) (max_drawdown : float64) :
  (feqb max_drawdown (Fin 0) = true -> calmar_of sr max_drawdown = NaN)
  /\ (feqb max_drawdown (Fin 0) = false ->
        calmar_of sr max_drawdown = fdiv (fmul (mean sr) (Fin 252)) max_drawdown)
  /\ (max_drawdown = NaN -> calmar_of sr max_drawdown = NaN)
  /\ (is_finite max_drawdown = true -> feqb max_drawdown (Fin 0) = false ->
        is_finite (mean sr) = true ->
        is_finite (calmar_of sr max_drawdown) = true).
Proof.
  unfold calmar_of. split_and!.
  - by intros ->.
  - by intros ->.
  - intros ->. cbn. apply fdiv_nan_r.
  - intros Hfin E Hmean. rewrite E.
    destruct max_drawdown as [| |q|]; try done.
    destruct (mean sr) as [| |mu|]; try done.
    by apply fdiv_finite.
Qed.

End Ratios.

(** C4, as stated, fails in its "exactly when": on two prices the
    strategy returns are all NaN, so their standard deviation and the
    maximum drawdown are NaN, not 0, and the Sharpe and Calmar ratios are
    NaN all the same. *)
Lemma sharpe_nan_without_zero_std :
  exists (r : ref) (m : Metrics) (h' : store) (sr : Series),
    backtest sample_sqrt 0 2 4 [prices_frame [100; 101]%Q] = (Ok (r, m), h')
    /\ frame h' r !! "Strategy_Return" = Some sr
    /\ std sample_sqrt sr = NaN
    /\ maximum_drawdown m = NaN
    /\ ~ (sharpe_ratio m = NaN <-> feqb (std sample_sqrt sr) (Fin 0) = true)
    /\ ~ (calmar_ratio m = NaN <-> feqb (maximum_drawdown m) (Fin 0) = true).
Proof.
  eexists _, _, _, _. split.
  { refine (backtest_run sample_sqrt 2 4 [Fin 100; Fin 101]
              [prices_frame [100; 101]%Q] 0 _ _);
      [vm_compute; reflexivity | discriminate]. }
  rewrite frame_snoc, metrics_frame_strategy_return.
  split; [reflexivity|].
  split; [vm_compute; reflexivity|].
  split; [vm_compute; reflexivity|].
  split.
  - intros [Hnan _].
    assert (E : feqb (std sample_sqrt
                        (strategy_return_of [Fin 100; Fin 101]
                           (position_of 2 4 [Fin 100; Fin 101]))) (Fin 0) = false)
      by (vm_compute; reflexivity).
    rewrite Hnan in E; [discriminate E | vm_compute; reflexivity].
  - intros [Hnan _].
    assert (E : feqb (maximum_drawdown
                        (metrics_of sample_sqrt [Fin 100; Fin 101]
                           (position_of 2 4 [Fin 100; Fin 101]))) (Fin 0) = false)
      by (vm_compute; reflexivity).
    rewrite Hnan in E; [discriminate E | vm_compute; reflexivity].
Qed.

(** C4, amended. [calculate_metrics] never divides by zero for the Sharpe
    or the Calmar ratio. The Sharpe ratio is NaN when the standard
    deviation of the strategy returns is 0, and otherwise it is
    (mean * 252) / (std * sqrt(252)), whose divisor is not 0; that quotient
    is a number when mean and std are numbers and is NaN when std is NaN.
    The Calmar ratio is NaN when the maximum drawdown is 0, and otherwise
    it is (mean * 252) / max_drawdown; that quotient is a number when mean
    and max_drawdown are numbers and is NaN when max_drawdown is NaN. *)
Theorem sharpe_calmar_guards (sqrt : float64 -> float64) (h : store)
    (data : ref) (df : gmap string Series) (close position : Series) :
  sqrt_spec sqrt ->
  h !! data = Some df ->
  df !! "Close" = Some close ->
  df !! "Position" = Some position ->
  length position = length close ->
  close <> [] ->
  exists (m : Metrics) (h' : store) (sr : Series),
    calculate_metrics sqrt data h = (Ok m, h')
    /\ frame h' data !! "Strategy_Return" = Some sr
    /\ ((feqb (std sqrt sr) (Fin 0) = true -> sharpe_ratio m = NaN)
        /\ (feqb (std sqrt sr) (Fin 0) = false ->
              sharpe_ratio m
              = fdiv (fmul (mean sr) (Fin 252))
                     (fmul (std sqrt sr) (sqrt (Fin 252)))
              /\ feqb (fmul (std sqrt sr) (sqrt (Fin 252))) (Fin 0) = false)
        /\ (std sqrt sr = NaN -> sharpe_ratio m = NaN)
        /\ (is_finite (std sqrt sr) = true ->
            feqb (std sqrt sr) (Fin 0) = false ->
            is_finite (mean sr) = true ->
            is_finite (sharpe_ratio m) = true))
    /\ ((feqb (maximum_drawdown m) (Fin 0) = true -> calmar_ratio m = NaN)
        /\ (feqb (maximum_drawdown m) (Fin 0) = false ->
              calmar_ratio m
              = fdiv (fmul (mean sr) (Fin 252)) (maximum_drawdown m))
        /\ (maximum_drawdown m = NaN -> calmar_ratio m = NaN)
        /\ (is_finite (maximum_drawdown m) = true ->
            feqb (maximum_drawdown m) (Fin 0) = false ->
            is_finite (mean sr) = true ->
            is_finite (calmar_ratio m) = true)).
Proof.
  intros Hsqrt Hdf Hclose Hpos Hlen Hne.
  eexists _, _, _. split; [by eapply calculate_metrics_run|].
  rewrite frame_insert by (by eapply lookup_lt_Some).
  rewrite metrics_frame_strategy_return. split; [reflexivity|].
  unfold metrics_of. cbn [sharpe_ratio calmar_ratio maximum_drawdown].
  split; [by apply sharpe_guard | apply calmar_guard].
Qed.

(** The frame [calc_strategy_performance] makes of the demo prices. *)
Definition demo_signals : gmap string Series :=
  signals_frame 2 4 (Fin <$> demo_prices) (prices_frame demo_prices).

Lemma sharpe_calmar_guards_witness :
  exists (m : Metrics) (h' : store) (sr : Series),
    calculate_metrics sample_sqrt 0 [demo_signals] = (Ok m, h')
    /\ frame h' 0 !! "Strategy_Return" = Some sr
    /\ ((feqb (std sample_sqrt sr) (Fin 0) = true -> sharpe_ratio m = NaN)
        /\ (feqb (std sample_sqrt sr) (Fin 0) = false ->
              sharpe_ratio m
              = fdiv (fmul (mean sr) (Fin 252))
                     (fmul (std sample_sqrt sr) (sample_sqrt (Fin 252)))
              /\ feqb (fmul (std sample_sqrt sr) (sample_sqrt (Fin 252))) (Fin 0)
                 = false)
        /\ (std sample_sqrt sr = NaN -> sharpe_ratio m = NaN)
        /\ (is_finite (std sample_sqrt sr) = true ->
            feqb (std sample_sqrt sr) (Fin 0) = false ->
            is_finite (mean sr) = true ->
            is_finite (sharpe_ratio m) = true))
    /\ ((feqb (maximum_drawdown m) (Fin 0) = true -> calmar_ratio m = NaN)
        /\ (feqb (maximum_drawdown m) (Fin 0) = false ->
              calmar_ratio m
              = fdiv (fmul (mean sr) (Fin 252)) (maximum_drawdown m))
        /\ (maximum_drawdown m = NaN -> calmar_ratio m = NaN)
        /\ (is_finite (maximum_drawdown m) = true ->
            feqb (maximum_drawdown m) (Fin 0) = false ->
            is_finite (mean sr) = true ->
            is_finite (calmar_ratio m) = true)).
Proof.
  apply (sharpe_calmar_guards sample_sqrt [demo_signals] 0 demo_signals
           (Fin <$> demo_prices) (position_of 2 4 (Fin <$> demo_prices))).
  - exact sample_sqrt_spec.
  - reflexivity.
  - apply signals_frame_close. vm_compute. reflexivity.
  - apply signals_frame_position.
  - apply position_length.
  - discriminate.
Defined.

(** ** C7: a price series shorter than the long window *)

Section ShortSeries.

Implicit Types (x y : float64) (s : Series) (n k : nat) (p q : Q).

Definition finite x : Prop := is_finite x = true.

(** A column that is NaN in its first two rows and [v] below. *)
Definition flat_shape (n : nat) (v : float64) : Series :=
  match n with
  | 0 => []
  | 1 => [NaN]
  | S (S k) => NaN :: NaN :: replicate k v
  end.

Lemma pct_change_cons x s :
  pct_change (x :: s)
  = fsub (fdiv x NaN) (Fin 1) :: ((fun y => fsub y (Fin 1)) <$> pairwise fdiv x s).
Proof.
  unfold pct_change, sub_scalar, sdiv, shift1. simpl. do 2 f_equal.
  apply zip_shift.
Qed.

Lemma pairwise_length (f : float64 -> float64 -> float64) x s :
  length (pairwise f x s) = length s.
Proof. revert x. induction s as [|y s IH]; intros x; simpl; by rewrite ?IH. Qed.

Lemma Qeq_bool_pos p : (0 < p)%Q -> Qeq_bool p 0 = false.
Proof.
  intros Hp. destruct (Qeq_bool p 0) eqn:E; [|done].
  apply Qeq_bool_eq in E. lra.
Qed.

Lemma pairwise_fdiv_finite p (ps : list Q) :
  (0 < p)%Q -> Forall (fun q => (0 < q)%Q) ps ->
  Forall finite (pairwise fdiv (Fin p) (Fin <$> ps)).
Proof.
  intros Hp Hps. revert p Hp.
  induction Hps as [|q ps Hq Hps IH]; intros p Hp; [constructor|].
  cbn [fmap list_fmap pairwise]. constructor; [|by apply IH].
  unfold finite, fdiv. by rewrite Qeq_bool_pos.
Qed.

(** On positive prices the daily return is NaN in the first row and a
    number in every other row. *)
Lemma daily_return_positive p (ps : list Q) :
  (0 < p)%Q -> Forall (fun q => (0 < q)%Q) ps ->
  exists ds : Series,
    daily_return_of (Fin <$> p :: ps) = NaN :: ds
    /\ length ds = length ps
    /\ Forall finite ds.
Proof.
  intros Hp Hps. unfold daily_return_of.
  cbn [fmap list_fmap]. rewrite pct_change_cons.
  eexists. split; [reflexivity|]. split.
  - by rewrite length_fmap, pairwise_length, length_fmap.
  - apply Forall_fmap.
    eapply Forall_impl; [by apply pairwise_fdiv_finite|].
    intros x Hx. unfold finite in *. cbn. by destruct x.
Qed.

Lemma zip_fmul_zeros (ds : Series) :
  Forall finite ds ->
  zip_with fmul ds (replicate (length ds) (Fin 0)) = replicate (length ds) (Fin 0).
Proof.
  induction 1 as [|x ds Hx Hds IH]; [done|].
  cbn. rewrite IH. f_equal.
  destruct x as [| |q|]; try done. apply fmul_zero_r.
Qed.

Lemma shift1_snoc s x : shift1 (s ++ [x]) = NaN :: s.
Proof.
  unfold shift1. rewrite length_app. cbn.
  replace (length s + 1) with (S (length s)) by lia.
  cbn. f_equal. apply take_app_length.
Qed.

Lemma shift1_zeros k : shift1 (replicate (S k) (Fin 0)) = NaN :: replicate k (Fin 0).
Proof. rewrite replicate_S_end. apply shift1_snoc. Qed.

Lemma shift1_nan_zeros k :
  shift1 (NaN :: replicate (S k) (Fin 0)) = NaN :: NaN :: replicate k (Fin 0).
Proof.
  rewrite replicate_S_end.
  change (NaN :: replicate k (Fin 0) ++ [Fin 0])
    with ((NaN :: replicate k (Fin 0)) ++ [Fin 0]).
  apply shift1_snoc.
Qed.

(** With a flat position the strategy return is NaN in the first two
    rows and 0 below. *)
Lemma flat_strategy_return p (ps : list Q) :
  (0 < p)%Q -> Forall (fun q => (0 < q)%Q) ps ->
  strategy_return_of (Fin <$> p :: ps)
    (shift1 (replicate (length (p :: ps)) (Fin 0)))
  = flat_shape (length (p :: ps)) (Fin 0).
Proof.
  intros Hp Hps.
  destruct (daily_return_positive p ps Hp Hps) as (ds & Hd & Hlen & Hfin).
  unfold strategy_return_of, smul. rewrite Hd. cbn [length].
  rewrite shift1_zeros.
  destruct ps as [|p1 ps].
  { destruct ds; [reflexivity | done]. }
  cbn [length] in *. rewrite shift1_nan_zeros.
  destruct ds as [|d ds]; [done|]. cbn [length] in Hlen.
  apply Forall_cons in Hfin as [_ Hfin].
  cbn [zip_with flat_shape].
  assert (length ds = length ps) as <- by lia.
  by rewrite zip_fmul_zeros, !fmul_nan_r.
Qed.

End ShortSeries.

Section FlatMetrics.

Implicit Types (x v : float64) (s : Series) (n k : nat).

Lemma signal_short short_window long_window (close : Series) :
  length close <= long_window ->
  signal_of short_window long_window close = replicate (length close) (Fin 0).
Proof.
  intros Hlen. unfold signal_of.
  rewrite take_ge by (by rewrite length_replicate).
  rewrite !drop_ge by (by rewrite rolling_mean_length).
  apply app_nil_r.
Qed.

Lemma count_le_length s : count s <= length s.
Proof. apply length_filter. Qed.

Lemma slow_ma_short long_window (close : Series) :
  length close < long_window ->
  rolling_mean long_window close = replicate (length close) NaN.
Proof.
  intros Hlen. apply list_eq. intros t.
  destruct (decide (t < length close)) as [Ht|Ht].
  - rewrite rolling_mean_lookup, lookup_replicate_2 by done. f_equal.
    unfold rolling_mean_at. cbv zeta. apply decide_False.
    pose proof (count_le_length (window long_window t close)) as Hc.
    unfold window in *. rewrite length_take in Hc. lia.
  - rewrite !lookup_ge_None_2;
      rewrite ?rolling_mean_length, ?length_replicate; (done || lia).
Qed.

Lemma scalar_add_flat n :
  scalar_add (Fin 1) (flat_shape n (Fin 0)) = flat_shape n (Fin 1).
Proof.
  destruct n as [|[|k]]; cbn; [done|done|].
  unfold scalar_add. by rewrite fmap_replicate.
Qed.

Lemma accumulate_const (f : float64 -> float64 -> float64) v acc k :
  is_nan v = false -> f acc v = v -> f v v = v ->
  accumulate f acc (replicate k v) = replicate k v.
Proof.
  intros Hv Hacc Hvv. revert acc Hacc.
  induction k as [|k IH]; intros acc Hacc; [done|].
  cbn. rewrite Hv, Hacc. f_equal. by apply IH.
Qed.

Lemma cumprod_flat n : cumprod (flat_shape n (Fin 1)) = flat_shape n (Fin 1).
Proof.
  unfold cumprod. destruct n as [|[|k]]; cbn; [done|done|].
  by rewrite accumulate_const.
Qed.

Lemma cummax_flat n : cummax (flat_shape n (Fin 1)) = flat_shape n (Fin 1).
Proof.
  unfold cummax. destruct n as [|[|k]]; cbn; [done|done|].
  by rewrite accumulate_const.
Qed.

Lemma drawdown_flat n :
  sdiv (ssub (flat_shape n (Fin 1)) (flat_shape n (Fin 1))) (flat_shape n (Fin 1))
  = flat_shape n (Fin 0).
Proof.
  unfold sdiv, ssub. destruct n as [|[|k]]; cbn; [done|done|].
  by rewrite !zip_with_replicate.
Qed.

Lemma last_value_flat n v :
  last_value (flat_shape n v) = if decide (3 <= n) then v else NaN.
Proof.
  destruct n as [|[|[|k]]]; [done|done|done|].
  rewrite decide_True by lia. unfold last_value, flat_shape.
  rewrite replicate_S_end.
  change (NaN :: NaN :: replicate k v ++ [v])
    with ((NaN :: NaN :: replicate k v) ++ [v]).
  by rewrite last_snoc.
Qed.

Lemma valid_zeros k : valid (replicate k (Fin 0)) = replicate k (Fin 0).
Proof.
  unfold valid. induction k as [|k IH]; [done|].
  cbn [replicate]. rewrite filter_cons_True by done. by rewrite IH.
Qed.

Lemma foldl_fmax_zeros k : foldl fmax (Fin 0) (replicate k (Fin 0)) = Fin 0.
Proof. induction k as [|k IH]; [done|]. exact IH. Qed.

Lemma smax_flat n :
  smax (flat_shape n (Fin 0)) = if decide (3 <= n) then Fin 0 else NaN.
Proof.
  destruct n as [|[|[|k]]]; [done|done|done|].
  rewrite decide_True by lia. unfold smax, flat_shape.
  change (valid (NaN :: NaN :: replicate (S k) (Fin 0)))
    with (valid (replicate (S k) (Fin 0))).
  rewrite valid_zeros. cbn [replicate]. apply foldl_fmax_zeros.
Qed.

Lemma flat_shape_nullish n : Forall nullish (flat_shape n (Fin 0)).
Proof.
  destruct n as [|[|k]]; repeat constructor; try (by left).
  apply Forall_replicate. by right.
Qed.

End FlatMetrics.

Section ShortSeriesMetrics.

Variable sqrt : float64 -> float64.
Hypothesis Hsqrt : sqrt_spec sqrt.

(** The report when the strategy return is NaN in the first two rows and
    0 below. *)
Lemma flat_metrics (close position : Series) (n : nat) :
  strategy_return_of close position = flat_shape n (Fin 0) ->
  let m := metrics_of sqrt close position in
  sharpe_ratio m = NaN
  /\ calmar_ratio m = NaN
  /\ total_strategy_return m = (if decide (3 <= n) then Fin 0 else NaN)
  /\ maximum_drawdown m = (if decide (3 <= n) then Fin 0 else NaN).
Proof.
  intros Hsr m.
  assert (Hcs : cumulative_strategy_of close position = flat_shape n (Fin 1)).
  { unfold cumulative_strategy_of. by rewrite Hsr, scalar_add_flat, cumprod_flat. }
  assert (Hdd : drawdown_of close position = flat_shape n (Fin 0)).
  { unfold drawdown_of, cumulative_max_of.
    by rewrite Hcs, cummax_flat, drawdown_flat. }
  unfold m, metrics_of.
  cbn [sharpe_ratio calmar_ratio total_strategy_return maximum_drawdown].
  rewrite Hsr, Hcs, Hdd, last_value_flat, smax_flat.
  split_and!.
  - apply sharpe_nullish; [done | apply flat_shape_nullish].
  - unfold calmar_of. destruct (decide (3 <= n)); [done|].
    cbn. apply fdiv_nan_r.
  - by destruct (decide (3 <= n)).
  - done.
Qed.

End ShortSeriesMetrics.

(** ** A strategy that holds nothing *)

(** The strategy return of row [t] while no position is held two rows
    up: NaN in the first two rows and in a row whose daily return is not
    a finite number (NaN * 0 and inf * 0 are NaN), 0 in every other
    row. *)
Definition idle_return (daily_return : Series) (t : nat) : float64 :=
  if decide (2 <= t) then
    if is_finite (at_row daily_return t) then Fin 0 else NaN
  else NaN.

Section NoPosition.

Implicit Types (x y : float64) (s a b close position : Series) (t : nat).

Lemma fmul_zero_any x : fmul x (Fin 0) = if is_finite x then Fin 0 else NaN.
Proof. destruct x as [| |q|]; try done. apply fmul_zero_r. Qed.

Lemma fmul_nullish x y : nullish x -> nullish (fmul x y).
Proof.
  intros [-> | ->]; [by left|].
  destruct y as [| |q|]; [by left | by left | | by left].
  right. apply fmul_zero_l.
Qed.

Lemma fdiv_nullish x y : nullish x -> nullish (fdiv x y).
Proof.
  intros [-> | ->]; [left; by destruct y|].
  destruct y as [| |q|]; [by left | by right | | by right].
  unfold fdiv. destruct (Qeq_bool q 0) eqn:E; [by left|].
  apply Qeq_bool_neq in E.
  assert (Hz : Qred (0 / q) = 0%Q) by (apply Qred_zero; by field).
  right. by rewrite Hz.
Qed.

Lemma fsub_nullish x y : nullish x -> nullish y -> nullish (fsub x y).
Proof. intros [-> | ->] [-> | ->]; (by left) || (by right). Qed.

Lemma fadd_nullish x y : nullish x -> nullish y -> nullish (fadd x y).
Proof. intros [-> | ->] [-> | ->]; (by left) || (by right). Qed.

Lemma foldl_fadd_nullish x s :
  nullish x -> Forall nullish s -> nullish (foldl fadd x s).
Proof.
  intros Hx Hs. revert x Hx.
  induction Hs as [|y s Hy Hs IH]; intros x Hx; [done|].
  cbn [foldl]. by apply IH, fadd_nullish.
Qed.

Variables (short_window long_window : nat).

Lemma position_at_row_warm_up close t :
  S t < length close -> t < long_window ->
  at_row (position_of short_window long_window close) (S t) = Fin 0.
Proof.
  intros Ht Hl. apply at_row_lookup. unfold position_of.
  rewrite shift1_lookup_S by (by rewrite signal_length).
  rewrite signal_lookup by lia. by rewrite decide_False by lia.
Qed.

Lemma position_at_row_0 close :
  close <> [] -> at_row (position_of short_window long_window close) 0 = NaN.
Proof.
  intros Hne. apply at_row_lookup, shift1_lookup_0, nonempty_length.
  rewrite signal_length. by apply nonempty_length.
Qed.

Lemma strategy_return_lookup_0 close position :
  close <> [] -> length position = length close ->
  strategy_return_of close position !! 0 = Some NaN.
Proof.
  intros Hne Hlen. apply nonempty_length in Hne.
  unfold strategy_return_of, smul.
  rewrite lookup_zip_with, shift1_lookup_0
    by (apply nonempty_length; lia).
  rewrite (lookup_at_row (daily_return_of close))
    by (unfold daily_return_of; rewrite pct_change_length; lia).
  cbn. by rewrite fmul_nan_r.
Qed.

(** Up to row [long_window + 1] the position two rows up is flat. *)
Lemma strategy_return_idle_row close t :
  t < length close -> t < long_window + 2 ->
  strategy_return_of close (position_of short_window long_window close) !! t
  = Some (idle_return (daily_return_of close) t).
Proof.
  intros Ht Hl.
  assert (Hne : close <> []) by (intros ->; cbn in Ht; lia).
  unfold idle_return. destruct t as [|[|t]].
  - rewrite decide_False by lia.
    apply strategy_return_lookup_0; [done | apply position_length].
  - rewrite decide_False by lia.
    rewrite strategy_return_lookup_S by (apply position_length || lia).
    by rewrite position_at_row_0, fmul_nan_r.
  - rewrite decide_True by lia.
    rewrite strategy_return_lookup_S by (apply position_length || lia).
    rewrite position_at_row_warm_up by lia. by rewrite fmul_zero_any.
Qed.

Lemma idle_return_nullish (daily_return : Series) t :
  nullish (idle_return daily_return t).
Proof.
  unfold idle_return. destruct (decide _); [|by left].
  destruct (is_finite _); by (left + right).
Qed.

Lemma strategy_return_idle close :
  length close <= long_window + 2 ->
  Forall nullish
    (strategy_return_of close (position_of short_window long_window close)).
Proof.
  intros Hlen. apply Forall_lookup. intros t x Hx.
  assert (Ht : t < length close).
  { apply lookup_lt_Some in Hx.
    by rewrite strategy_return_length in Hx by apply position_length. }
  rewrite strategy_return_idle_row in Hx by lia.
  injection Hx as <-. apply idle_return_nullish.
Qed.

(** With returns that are 0 or NaN the equity curve is 1 wherever it is
    defined, and so is its running maximum. *)
Definition unitary x : Prop := x = NaN \/ x = Fin 1.

Lemma scalar_add_nullish s :
  Forall nullish s -> Forall unitary (scalar_add (Fin 1) s).
Proof.
  intros Hs. apply Forall_fmap. eapply Forall_impl; [exact Hs|].
  intros x [-> | ->]; by (left + right).
Qed.

Lemma accumulate_fmul_unitary s :
  Forall unitary s -> accumulate fmul (Fin 1) s = s.
Proof.
  induction 1 as [|x s [-> | ->] Hs IH]; [done|..].
  - cbn [accumulate is_nan]. by rewrite IH.
  - cbn [accumulate is_nan]. cbv zeta.
    change (fmul (Fin 1) (Fin 1)) with (Fin 1). by rewrite IH.
Qed.

Lemma accumulate_fmax_unitary (top : float64) s :
  top = NInf \/ top = Fin 1 ->
  Forall unitary s -> accumulate fmax top s = s.
Proof.
  intros Htop Hs. revert top Htop.
  induction Hs as [|x s [-> | ->] Hs IH]; intros top Htop; [done|..].
  - cbn [accumulate is_nan]. by rewrite IH.
  - cbn [accumulate is_nan]. cbv zeta.
    assert (E : fmax top (Fin 1) = Fin 1) by (by destruct Htop as [-> | ->]).
    rewrite E, IH; [done | by right].
Qed.

Lemma drawdown_unitary s :
  Forall nullish s ->
  sdiv (ssub (scalar_add (Fin 1) s) (scalar_add (Fin 1) s))
       (scalar_add (Fin 1) s)
  = s.
Proof.
  unfold sdiv, ssub, scalar_add.
  induction 1 as [|x s [-> | ->] Hs IH]; [done|..];
    cbn [fmap list_fmap zip_with]; by rewrite IH.
Qed.

Lemma idle_curves close position :
  Forall nullish (strategy_return_of close position) ->
  cumulative_strategy_of close position
  = scalar_add (Fin 1) (strategy_return_of close position)
  /\ drawdown_of close position = strategy_return_of close position.
Proof.
  intros Hs. pose proof (scalar_add_nullish _ Hs) as Hu.
  assert (Hcs : cumulative_strategy_of close position
                = scalar_add (Fin 1) (strategy_return_of close position)).
  { unfold cumulative_strategy_of, cumprod. by apply accumulate_fmul_unitary. }
  split; [exact Hcs|].
  unfold drawdown_of, cumulative_max_of, cummax. rewrite Hcs.
  rewrite accumulate_fmax_unitary by (done || by left).
  by apply drawdown_unitary.
Qed.

Lemma last_value_idle s :
  Forall nullish s ->
  fsub (last_value (scalar_add (Fin 1) s)) (Fin 1) = last_value s.
Proof.
  intros Hs. unfold last_value, scalar_add. rewrite fmap_last.
  destruct (last s) as [x|] eqn:E; [|done].
  apply last_Some_elem_of in E. rewrite Forall_forall in Hs.
  by destruct (Hs x E) as [-> | ->].
Qed.

Lemma smax_nullish s :
  Forall nullish s -> smax s = if count s is 0 then NaN else Fin 0.
Proof.
  intros Hs. unfold smax. rewrite (valid_nullish s Hs).
  destruct (count s) as [|k]; [done|]. cbn [replicate]. apply foldl_fmax_zeros.
Qed.

Lemma count_none s : (forall t x, s !! t = Some x -> x = NaN) -> count s = 0.
Proof.
  intros Hs. unfold count, valid.
  induction s as [|x s IH]; [done|].
  rewrite (Hs 0 x eq_refl). rewrite filter_cons_False by (by intros [=]).
  apply IH. intros t y Hy. exact (Hs (S t) y Hy).
Qed.

Lemma count_some s t : s !! t = Some (Fin 0) -> count s <> 0.
Proof.
  intros Ht. unfold count.
  assert (Hin : Fin 0 ∈ valid s).
  { unfold valid. apply list_elem_of_filter. split; [done|].
    by eapply list_elem_of_lookup_2. }
  destruct (valid s); [by apply elem_of_nil in Hin | done].
Qed.

(** The covariance with a column of zeros. *)
Lemma cov_nullish a b : Forall nullish a -> nullish (cov a b).
Proof.
  intros Ha. unfold cov.
  set (rows := filter _ (zip a b)).
  assert (Hrows : Forall (fun p : float64 * float64 => p.1 = Fin 0) rows).
  { apply Forall_forall. intros [x y] Hin.
    apply list_elem_of_filter in Hin as [Hna Hin]. cbn [fst snd] in *.
    apply elem_of_zip_l in Hin. rewrite Forall_forall in Ha.
    destruct (Ha x Hin) as [-> | ->]; done. }
  cbv zeta. destruct (length rows) as [|k] eqn:Hn; [by left|].
  assert (H1 : rows.*1 = replicate (length rows) (Fin 0)).
  { clear Hn. induction Hrows as [|[x y] rows Hx Hrows IH]; [done|].
    cbn in Hx. subst x. cbn. by rewrite <- IH. }
  rewrite Hn in H1. rewrite H1, foldl_fadd_zeros, fdiv_zero_of_nat_S.
  apply fdiv_nullish, foldl_fadd_nullish; [by right|].
  apply Forall_fmap. eapply Forall_impl; [exact Hrows|].
  intros [x y] Hx. cbn in Hx. subst x. cbn [fst snd].
  change (fsub (Fin 0) (Fin 0)) with (Fin 0). apply fmul_nullish. by right.
Qed.

Variable sqrt : float64 -> float64.
Hypothesis Hsqrt : sqrt_spec sqrt.

(** The report of a strategy whose return is 0 wherever it is defined. *)
Lemma idle_report close position :
  Forall nullish (strategy_return_of close position) ->
  let m := metrics_of sqrt close position in
  sharpe_ratio m = NaN
  /\ calmar_ratio m = NaN
  /\ total_strategy_return m = last_value (strategy_return_of close position)
  /\ maximum_drawdown m
     = (if count (strategy_return_of close position) is 0 then NaN else Fin 0)
  /\ nullish (annualised_volatility m)
  /\ nullish (beta m)
  /\ nullish (annualised_alpha m).
Proof.
  intros Hs m. destruct (idle_curves close position Hs) as [Hcs Hdd].
  unfold m, metrics_of.
  cbn [sharpe_ratio calmar_ratio total_strategy_return maximum_drawdown
       annualised_volatility beta annualised_alpha].
  rewrite Hcs, Hdd, (smax_nullish _ Hs).
  assert (Hmean : nullish (mean (strategy_return_of close position))).
  { rewrite mean_nullish by done. destruct (count _); by (left + right). }
  assert (Hbeta : nullish (beta_of (strategy_return_of close position)
                             (daily_return_of close))).
  { unfold beta_of. by apply fdiv_nullish, cov_nullish. }
  split_and!.
  - by apply sharpe_nullish.
  - unfold calmar_of. destruct (count _); [|done]. cbn. apply fdiv_nan_r.
  - by apply last_value_idle.
  - done.
  - apply fmul_nullish. unfold std. rewrite var_nullish by done.
    destruct (decide _).
    + left. apply (sqrt_nan _ Hsqrt).
    + right. apply (sqrt_zero _ Hsqrt).
  - exact Hbeta.
  - apply fmul_nullish, fsub_nullish; [done|]. by apply fmul_nullish.
Qed.

End NoPosition.

(** C7, as stated, fails twice. On an empty price series
    [calculate_metrics] raises IndexError at [.iloc[-1]]; and on three
    prices with a long window of four the total strategy return and the
    maximum drawdown are the number 0, not an undefined value. *)
Lemma short_series_not_all_undefined :
  (backtest sample_sqrt 0 2 4 [prices_frame []]).1 = Raise IndexError
  /\ exists (r : ref) (m : Metrics) (h' : store),
       backtest sample_sqrt 0 2 4 [prices_frame [100; 101; 102]%Q]
       = (Ok (r, m), h')
       /\ total_strategy_return m = Fin 0
       /\ maximum_drawdown m = Fin 0
       /\ total_benchmark_return m = Fin (1 # 50).
Proof.
  split.
  { rewrite (backtest_empty sample_sqrt 2 4 [prices_frame []] 0)
      by (vm_compute; reflexivity).
    reflexivity. }
  eexists _, _, _. split.
  { refine (backtest_run sample_sqrt 2 4 [Fin 100; Fin 101; Fin 102]
              [prices_frame [100; 101; 102]%Q] 0 _ _);
      [vm_compute; reflexivity | discriminate]. }
  split_and!; vm_compute; reflexivity.
Qed.

(** C7, amended. For a non-empty price series shorter than
    [long_window], [calc_strategy_performance] followed by
    [calculate_metrics] returns a report without raising: the slow average
    is NaN in every row, the signal is 0 in every row, the Sharpe and
    Calmar ratios are NaN.  The strategy return is NaN in the first two
    rows and in every row whose daily return is not a finite number, and 0
    in every other row; the total strategy return is the value this gives
    for the last row, and the maximum drawdown is 0 when some row has
    strategy return 0 and NaN when none has, so both are NaN on fewer than
    three rows.  The total buy-and-hold return is the last cumulative
    benchmark value minus 1, and NaN when the series has one row. *)
Theorem short_series_metrics (sqrt : float64 -> float64) (h : store)
    (data : ref) (df : gmap string Series) (close : Series)
    (short_window long_window : nat) :
  sqrt_spec sqrt ->
  h !! data = Some df ->
  df !! "Close" = Some close ->
  close <> [] ->
  length close < long_window ->
  exists (r : ref) (m : Metrics) (h' : store)
         (slow_ma signal daily_return strategy_return cumulative_benchmark
            : Series),
    backtest sqrt data short_window long_window h = (Ok (r, m), h')
    /\ frame h' r !! "Slow_MA" = Some slow_ma
    /\ slow_ma = replicate (length close) NaN
    /\ frame h' r !! "Signal" = Some signal
    /\ signal = replicate (length close) (Fin 0)
    /\ frame h' r !! "Daily_Return" = Some daily_return
    /\ frame h' r !! "Strategy_Return" = Some strategy_return
    /\ frame h' r !! "Cumulative_Benchmark" = Some cumulative_benchmark
    /\ (forall t, t < length close ->
          strategy_return !! t = Some (idle_return daily_return t))
    /\ sharpe_ratio m = NaN
    /\ calmar_ratio m = NaN
    /\ total_strategy_return m = idle_return daily_return (length close - 1)
    /\ ((exists t, t < length close /\ idle_return daily_return t = Fin 0) ->
          maximum_drawdown m = Fin 0)
    /\ ((forall t, t < length close -> idle_return daily_return t = NaN) ->
          maximum_drawdown m = NaN)
    /\ (length close < 3 ->
          total_strategy_return m = NaN /\ maximum_drawdown m = NaN)
    /\ total_benchmark_return m = fsub (last_value cumulative_benchmark) (Fin 1)
    /\ (length close = 1 -> total_benchmark_return m = NaN).
Proof.
  intros Hsqrt Hdf Hclose Hne Hlen.
  set (position := position_of short_window long_window close).
  set (sr := strategy_return_of close position).
  assert (Hrow : forall t, t < length close ->
            sr !! t = Some (idle_return (daily_return_of close) t)).
  { intros t Ht. apply strategy_return_idle_row; lia. }
  assert (Hnull : Forall nullish sr) by (apply strategy_return_idle; lia).
  assert (Hsl : length sr = length close).
  { unfold sr. apply strategy_return_length, position_length. }
  destruct (idle_report sqrt Hsqrt close position Hnull)
    as (Hsharpe & Hcalmar & Htotal & Hmdd & _).
  fold sr in Htotal, Hmdd.
  assert (Hlast : last_value sr
                  = idle_return (daily_return_of close) (length close - 1)).
  { unfold last_value. rewrite last_lookup, Hsl.
    replace (pred (length close)) with (length close - 1) by lia.
    rewrite Hrow; [done|]. apply nonempty_length in Hne. lia. }
  assert (Hzero : (exists t, t < length close
                     /\ idle_return (daily_return_of close) t = Fin 0) ->
                  maximum_drawdown (metrics_of sqrt close position) = Fin 0).
  { intros (t & Ht & E). rewrite Hmdd.
    pose proof (count_some sr t) as Hc. rewrite Hrow, E in Hc by done.
    specialize (Hc eq_refl). by destruct (count sr). }
  assert (Hnone : (forall t, t < length close ->
                     idle_return (daily_return_of close) t = NaN) ->
                  maximum_drawdown (metrics_of sqrt close position) = NaN).
  { intros Hall. rewrite Hmdd, count_none; [done|].
    intros t x Hx.
    assert (Ht : t < length close) by (apply lookup_lt_Some in Hx; lia).
    rewrite Hrow in Hx by done. injection Hx as <-. by apply Hall. }
  subst sr position.
  eexists _, _, _, _, _, _, _, _. split.
  { apply backtest_run; [by rewrite (frame_lookup _ _ _ Hdf) | done]. }
  rewrite frame_snoc, metrics_frame_daily_return,
    metrics_frame_strategy_return.
  rewrite !metrics_frame_other, signals_frame_slow_ma, signals_frame_signal
    by done.
  split; [reflexivity|]. split; [apply slow_ma_short; lia|].
  split; [reflexivity|]. split; [apply signal_short; lia|].
  split; [reflexivity|]. split; [reflexivity|].
  split; [unfold metrics_frame; by simplify_map_eq|].
  split; [exact Hrow|].
  split; [exact Hsharpe|]. split; [exact Hcalmar|].
  split; [by rewrite Htotal|].
  split; [exact Hzero|]. split; [exact Hnone|].
  split_and!.
  - intros H3. split.
    + rewrite Htotal, Hlast. unfold idle_return. by rewrite decide_False by lia.
    + apply Hnone. intros t Ht. unfold idle_return.
      by rewrite decide_False by lia.
  - reflexivity.
  - intros H1. destruct close as [|x [|y close]]; [done | | cbn in H1; lia].
    unfold metrics_of. cbn [total_benchmark_return]. by destruct x.
Qed.

Lemma short_series_metrics_witness :
  exists (r : ref) (m : Metrics) (h' : store)
         (slow_ma signal daily_return strategy_return cumulative_benchmark
            : Series),
    backtest sample_sqrt 0 2 4 [prices_frame [100; 101; 102]%Q] = (Ok (r, m), h')
    /\ frame h' r !! "Slow_MA" = Some slow_ma
    /\ slow_ma = replicate (length (Fin <$> [100; 101; 102]%Q)) NaN
    /\ frame h' r !! "Signal" = Some signal
    /\ signal = replicate (length (Fin <$> [100; 101; 102]%Q)) (Fin 0)
    /\ frame h' r !! "Daily_Return" = Some daily_return
    /\ frame h' r !! "Strategy_Return" = Some strategy_return
    /\ frame h' r !! "Cumulative_Benchmark" = Some cumulative_benchmark
    /\ (forall t, t < length (Fin <$> [100; 101; 102]%Q) ->
          strategy_return !! t = Some (idle_return daily_return t))
    /\ sharpe_ratio m = NaN
    /\ calmar_ratio m = NaN
    /\ total_strategy_return m
       = idle_return daily_return (length (Fin <$> [100; 101; 102]%Q) - 1)
    /\ ((exists t, t < length (Fin <$> [100; 101; 102]%Q)
                   /\ idle_return daily_return t = Fin 0) ->
          maximum_drawdown m = Fin 0)
    /\ ((forall t, t < length (Fin <$> [100; 101; 102]%Q) ->
           idle_return daily_return t = NaN) ->
          maximum_drawdown m = NaN)
    /\ (length (Fin <$> [100; 101; 102]%Q) < 3 ->
          total_strategy_return m = NaN /\ maximum_drawdown m = NaN)
    /\ total_benchmark_return m = fsub (last_value cumulative_benchmark) (Fin 1)
    /\ (length (Fin <$> [100; 101; 102]%Q) = 1 ->
          total_benchmark_return m = NaN).
Proof.
  apply (short_series_metrics sample_sqrt [prices_frame [100; 101; 102]%Q] 0
           (prices_frame [100; 101; 102]%Q) (Fin <$> [100; 101; 102]%Q) 2 4).
  - exact sample_sqrt_spec.
  - reflexivity.
  - vm_compute. reflexivity.
  - discriminate.
  - simpl. lia.
Defined.

(** * Further properties of the engine *)

(** ** What [plot_data] hands to the renderer *)

(** The rows a selection [data.loc[data[name] == v]] keeps, by position. *)
Definition rows_eq (s : Series) (v : float64) : list nat :=
  filter (fun t => feqb (at_row s t) v = true) (seq 0 (length s)).

(** A column restricted to selected rows, each with its position. *)
Definition at_rows (rows : list nat) (s : Series) : list (nat * float64) :=
  (fun t => (t, at_row s t)) <$> rows.

(** What is drawn: the three price lines, the buy and sell markers (row
    and close), the two cumulative-return lines and, in the newer script,
    the drawdown area. Labels, titles and colours are left out. *)
Record Figure : Type := {
  price_line : Series;
  fast_line : Series;
  slow_line : Series;
  buy_markers : list (nat * float64);
  sell_markers : list (nat * float64);
  strategy_line : Series;
  benchmark_line : Series;
  drawdown_area : option Series
}.

(** [plot_data] of the newer script; the windows, the metrics and the
    ticker only go into titles and labels. *)
Definition plot_data (data : ref) : M Figure :=
  close <- getcol data "Close" ;;
  fast_ma <- getcol data "Fast_MA" ;;
  slow_ma <- getcol data "Slow_MA" ;;
  crossover <- getcol data "Crossover" ;;
  let buy_signals := rows_eq crossover (Fin 1) in
  buy_close <- getcol data "Close" ;;
  crossover <- getcol data "Crossover" ;;
  let sell_signals := rows_eq crossover (Fin (-1)) in
  sell_close <- getcol data "Close" ;;
  cumulative_strategy <- getcol data "Cumulative_Strategy" ;;
  cumulative_benchmark <- getcol data "Cumulative_Benchmark" ;;
  drawdown <- getcol data "Drawdown" ;;
  ret {| price_line := close;
         fast_line := fast_ma;
         slow_line := slow_ma;
         buy_markers := at_rows buy_signals buy_close;
         sell_markers := at_rows sell_signals sell_close;
         strategy_line := cumulative_strategy;
         benchmark_line := cumulative_benchmark;
         drawdown_area := Some drawdown |}.

(** [plot_data] of the older script: two panels, no drawdown. *)
Definition legacy_plot_data (data : ref) : M Figure :=
  close <- getcol data "Close" ;;
  fast_ma <- getcol data "Fast_MA" ;;
  slow_ma <- getcol data "Slow_MA" ;;
  crossover <- getcol data "Crossover" ;;
  let buy_signals := rows_eq crossover (Fin 1) in
  buy_close <- getcol data "Close" ;;
  crossover <- getcol data "Crossover" ;;
  let sell_signals := rows_eq crossover (Fin (-1)) in
  sell_close <- getcol data "Close" ;;
  cumulative_strategy <- getcol data "Cumulative_Strategy" ;;
  cumulative_benchmark <- getcol data "Cumulative_Benchmark" ;;
  ret {| price_line := close;
         fast_line := fast_ma;
         slow_line := slow_ma;
         buy_markers := at_rows buy_signals buy_close;
         sell_markers := at_rows sell_signals sell_close;
         strategy_line := cumulative_strategy;
         benchmark_line := cumulative_benchmark;
         drawdown_area := None |}.

(** ** Missing columns and frames without rows *)

Section MissingData.

Variable sqrt : float64 -> float64.

Lemma calculate_metrics_no_close (h : store) (data : ref) :
  frame h data !! "Close" = None ->
  calculate_metrics sqrt data h = (Raise (KeyError "Close"), h).
Proof.
  intros Hclose. unfold calculate_metrics.
  by erewrite bind_raise by (by apply getcol_raise).
Qed.

Lemma calculate_metrics_no_position (h : store) (data : ref)
    (df : gmap string Series) (close : Series) :
  h !! data = Some df ->
  df !! "Close" = Some close ->
  df !! "Position" = None ->
  calculate_metrics sqrt data h
  = (Raise (KeyError "Position"),
     <[data := <["Daily_Return" := pct_change close]> df]> h).
Proof.
  intros Hdf Hclose Hpos.
  assert (Hr : data < length h) by (by eapply lookup_lt_Some).
  assert (Hf : frame h data = df) by (by apply frame_lookup).
  unfold calculate_metrics.
  erewrite bind_ok; [| erewrite getcol_ok by (rewrite Hf; eassumption); reflexivity].
  erewrite bind_ok; [| erewrite setcol_at by (done || exact Hf); reflexivity].
  cbn beta iota.
  erewrite bind_ok; [| step_at Hr; reflexivity].
  erewrite bind_raise; [reflexivity|].
  apply getcol_raise. rewrite frame_insert by done. by simplify_map_eq.
Qed.

End MissingData.

(** X1. When the frame it is given has no "Close" column,
    [calc_strategy_performance] raises KeyError("Close"); the copy it made
    first stays in the store and no frame that existed before changes. *)
Theorem signals_need_close (h : store) (data : ref)
    (short_window long_window : nat) :
  frame h data !! "Close" = None ->
  calc_strategy_performance data short_window long_window h
  = (Raise (KeyError "Close"), h ++ [frame h data]).
Proof.
  intros Hclose. unfold calc_strategy_performance.
  rewrite (bind_ok (copy data) _ h (length h) (h ++ [frame h data])) by done.
  by erewrite bind_raise by (apply getcol_raise; by rewrite frame_snoc).
Qed.

Lemma signals_need_close_witness :
  calc_strategy_performance 0 2 4 [{["Open" := [Fin 1; Fin 2]]}]
  = (Raise (KeyError "Close"),
     [{["Open" := [Fin 1; Fin 2]]}] ++ [frame [{["Open" := [Fin 1; Fin 2]]}] 0]).
Proof.
  apply (signals_need_close [{["Open" := [Fin 1; Fin 2]]}] 0 2 4).
  vm_compute. reflexivity.
Defined.

(** X2. [calculate_metrics] on a frame without a "Position" column
    raises: KeyError("Close"), with the store untouched, when "Close" is
    missing too, and otherwise KeyError("Position") after "Daily_Return"
    has already been written into the caller's frame. *)
Theorem metrics_need_position (sqrt : float64 -> float64) (h : store)
    (data : ref) (df : gmap string Series) :
  h !! data = Some df ->
  df !! "Position" = None ->
  calculate_metrics sqrt data h
  = match df !! "Close" with
    | None => (Raise (KeyError "Close"), h)
    | Some close =>
        (Raise (KeyError "Position"),
         <[data := <["Daily_Return" := pct_change close]> df]> h)
    end.
Proof.
  intros Hdf Hpos. destruct (df !! "Close") as [close|] eqn:Hclose.
  - by apply calculate_metrics_no_position.
  - apply calculate_metrics_no_close. by rewrite (frame_lookup _ _ _ Hdf).
Qed.

Lemma metrics_need_position_witness :
  calculate_metrics sample_sqrt 0 [prices_frame demo_prices]
  = match prices_frame demo_prices !! "Close" with
    | None => (Raise (KeyError "Close"), [prices_frame demo_prices])
    | Some close =>
        (Raise (KeyError "Position"),
         <[0 := <["Daily_Return" := pct_change close]> (prices_frame demo_prices)]>
           [prices_frame demo_prices])
    end.
Proof.
  apply (metrics_need_position sample_sqrt [prices_frame demo_prices] 0
           (prices_frame demo_prices)).
  - reflexivity.
  - vm_compute. reflexivity.
Defined.

Section NoRows.

Variable sqrt : float64 -> float64.

Lemma analyze_strategy_performance_empty (h : store) (data : ref)
    (df : gmap string Series) (position : Series) :
  h !! data = Some df ->
  df !! "Close" = Some [] ->
  df !! "Position" = Some position ->
  analyze_strategy_performance data h
  = (Raise IndexError, <[data := returns_frame [] position df]> h).
Proof.
  intros Hdf Hclose Hpos.
  assert (Hr : data < length h) by (by eapply lookup_lt_Some).
  assert (Hf : frame h data = df) by (by apply frame_lookup).
  unfold analyze_strategy_performance.
  erewrite bind_ok; [| erewrite getcol_ok by (rewrite Hf; eassumption); reflexivity].
  erewrite bind_ok; [| erewrite setcol_at by (done || exact Hf); reflexivity].
  cbn beta iota.
  do 8 (erewrite bind_ok; [| step_at Hr; reflexivity]).
  erewrite bind_raise; [reflexivity | apply iloc_last_nil].
Qed.

Lemma legacy_backtest_empty (short_window long_window : nat) (h : store)
    (data : ref) :
  frame h data !! "Close" = Some [] ->
  legacy_backtest data short_window long_window h
  = (Raise IndexError,
     h ++ [returns_frame [] (position_of short_window long_window [])
             (signals_frame short_window long_window [] (frame h data))]).
Proof.
  intros Hclose. unfold legacy_backtest.
  erewrite bind_ok by (by apply calc_strategy_performance_run).
  erewrite analyze_strategy_performance_empty;
    [ by rewrite insert_snoc
    | by rewrite lookup_app_r, Nat.sub_diag
    | by apply signals_frame_close
    | apply signals_frame_position ].
Qed.

End NoRows.

(** X3. On a price frame without rows [calc_strategy_performance]
    succeeds, and [calculate_metrics] (like the older
    [analyze_strategy_performance]) then raises IndexError at [.iloc[-1]];
    the new frame is left in the store with its five signal columns and
    the four return columns written so far, all without rows, and without
    "Cumulative_Max" and "Drawdown". *)
Theorem no_rows_raise (sqrt : float64 -> float64) (h : store) (data : ref)
    (short_window long_window : nat) :
  frame h data !! "Close" = Some [] ->
  exists f : gmap string Series,
    backtest sqrt data short_window long_window h = (Raise IndexError, h ++ [f])
    /\ legacy_backtest data short_window long_window h
       = (Raise IndexError, h ++ [f])
    /\ Forall (fun name => f !! name = Some [])
         ["Close"; "Fast_MA"; "Slow_MA"; "Signal"; "Crossover"; "Position";
          "Daily_Return"; "Strategy_Return"; "Cumulative_Benchmark";
          "Cumulative_Strategy"]
    /\ f !! "Cumulative_Max" = frame h data !! "Cumulative_Max"
    /\ f !! "Drawdown" = frame h data !! "Drawdown".
Proof.
  intros Hclose. eexists. split; [by apply backtest_empty|].
  split; [by apply legacy_backtest_empty|].
  assert (Hs : signal_of short_window long_window [] = [])
    by (apply nil_length_inv, signal_length).
  unfold returns_frame, signals_frame, position_of, crossover_of.
  rewrite Hs.
  split; [|split; by simplify_map_eq].
  repeat (constructor; [simplify_map_eq; reflexivity|]). constructor.
Qed.

Lemma no_rows_raise_witness :
  exists f : gmap string Series,
    backtest sample_sqrt 0 2 4 [prices_frame []]
    = (Raise IndexError, [prices_frame []] ++ [f])
    /\ legacy_backtest 0 2 4 [prices_frame []]
       = (Raise IndexError, [prices_frame []] ++ [f])
    /\ Forall (fun name => f !! name = Some [])
         ["Close"; "Fast_MA"; "Slow_MA"; "Signal"; "Crossover"; "Position";
          "Daily_Return"; "Strategy_Return"; "Cumulative_Benchmark";
          "Cumulative_Strategy"]
    /\ f !! "Cumulative_Max" = frame [prices_frame []] 0 !! "Cumulative_Max"
    /\ f !! "Drawdown" = frame [prices_frame []] 0 !! "Drawdown".
Proof.
  apply (no_rows_raise sample_sqrt [prices_frame []] 0 2 4).
  vm_compute. reflexivity.
Defined.

(** ** Every column has the rows of "Close" *)

Section Alignment.

Variables (short_window long_window : nat) (close : Series).

Lemma cumulative_max_length (position : Series) :
  length position = length close ->
  length (cumulative_max_of close position) = length close.
Proof.
  intros E. unfold cumulative_max_of, cummax.
  by rewrite accumulate_length, cumulative_strategy_length.
Qed.

Lemma drawdown_length (position : Series) :
  length position = length close ->
  length (drawdown_of close position) = length close.
Proof.
  intros E. unfold drawdown_of, sdiv, ssub.
  rewrite !length_zip_with, cumulative_max_length,
    cumulative_strategy_length by done.
  lia.
Qed.

Lemma daily_return_length : length (daily_return_of close) = length close.
Proof. apply pct_change_length. Qed.

End Alignment.

(** X4. After [calc_strategy_performance] and [calculate_metrics] on a
    price frame with at least one row, each of the eleven columns the two
    calls write has exactly as many rows as "Close". *)
Theorem columns_aligned (sqrt : float64 -> float64) (h : store) (data : ref)
    (close : Series) (short_window long_window : nat) :
  frame h data !! "Close" = Some close ->
  close <> [] ->
  exists (r : ref) (m : Metrics) (h' : store),
    backtest sqrt data short_window long_window h = (Ok (r, m), h')
    /\ Forall (fun name =>
                 exists s : Series,
                   frame h' r !! name = Some s /\ length s = length close)
         ["Close"; "Fast_MA"; "Slow_MA"; "Signal"; "Crossover"; "Position";
          "Daily_Return"; "Strategy_Return"; "Cumulative_Benchmark";
          "Cumulative_Strategy"; "Cumulative_Max"; "Drawdown"].
Proof.
  intros Hclose Hne. eexists _, _, _. split; [by apply backtest_run|].
  rewrite frame_snoc.
  pose proof (position_length short_window long_window close) as Hpos.
  repeat (constructor;
    [ eexists; split;
      [ unfold metrics_frame, signals_frame; simplify_map_eq; reflexivity
      | first [ reflexivity
              | apply rolling_mean_length
              | apply signal_length
              | apply crossover_length
              | apply position_length
              | apply daily_return_length
              | by apply strategy_return_length
              | apply cumulative_benchmark_length
              | by apply cumulative_strategy_length
              | by apply cumulative_max_length
              | by apply drawdown_length ] ] |]).
  constructor.
Qed.

Lemma columns_aligned_witness :
  exists (r : ref) (m : Metrics) (h' : store),
    backtest sample_sqrt 0 2 4 [prices_frame demo_prices] = (Ok (r, m), h')
    /\ Forall (fun name =>
                 exists s : Series,
                   frame h' r !! name = Some s
                   /\ length s = length (Fin <$> demo_prices))
         ["Close"; "Fast_MA"; "Slow_MA"; "Signal"; "Crossover"; "Position";
          "Daily_Return"; "Strategy_Return"; "Cumulative_Benchmark";
          "Cumulative_Strategy"; "Cumulative_Max"; "Drawdown"].
Proof.
  apply (columns_aligned sample_sqrt [prices_frame demo_prices] 0
           (Fin <$> demo_prices) 2 4).
  - vm_compute. reflexivity.
  - discriminate.
Defined.

(** ** Values of the signal columns and the markers drawn from them *)

Section Markers.

Implicit Types (s close : Series) (t : nat) (a b v : float64).

Lemma elem_of_rows_eq s v t :
  t ∈ rows_eq s v <-> t < length s /\ feqb (at_row s t) v = true.
Proof.
  unfold rows_eq. rewrite list_elem_of_filter, elem_of_seq. split.
  - intros (Hv & _ & Ht). split; [lia | done].
  - intros (Ht & Hv). split; [done | lia].
Qed.

Lemma elem_of_at_rows (rows : list nat) s t (c : float64) :
  (t, c) ∈ at_rows rows s <-> t ∈ rows /\ c = at_row s t.
Proof.
  unfold at_rows. rewrite list_elem_of_fmap. split.
  - intros (t' & [= -> ->] & Hin). done.
  - intros (Hin & ->). by exists t.
Qed.

Lemma step_up_iff a b :
  binary a -> binary b ->
  feqb (fsub a b) (Fin 1) = true <-> a = Fin 1 /\ b = Fin 0.
Proof. intros [-> | ->] [-> | ->]; vm_compute; split; (done || by intros []). Qed.

Lemma step_down_iff a b :
  binary a -> binary b ->
  feqb (fsub a b) (Fin (-1)) = true <-> a = Fin 0 /\ b = Fin 1.
Proof. intros [-> | ->] [-> | ->]; vm_compute; split; (done || by intros []). Qed.

Lemma step_values a b :
  binary a -> binary b ->
  fsub a b = Fin (-1) \/ fsub a b = Fin 0 \/ fsub a b = Fin 1.
Proof. intros [-> | ->] [-> | ->]; vm_compute; auto. Qed.

Variables (short_window long_window : nat).

Lemma signal_at_row_binary close t :
  t < length close -> binary (at_row (signal_of short_window long_window close) t).
Proof.
  intros Ht. rewrite (at_row_lookup _ _ _ (signal_lookup _ _ _ _ Ht)).
  destruct (decide _); [destruct (fgtb _ _)|]; by (left + right).
Qed.

Lemma signal_at_row_one close t :
  t < length close ->
  at_row (signal_of short_window long_window close) t = Fin 1 ->
  long_window <= t.
Proof.
  intros Ht. rewrite (at_row_lookup _ _ _ (signal_lookup _ _ _ _ Ht)).
  destruct (decide _); [done|]. intros [=].
Qed.

Lemma crossover_at_row_0 close :
  at_row (crossover_of short_window long_window close) 0 = NaN.
Proof.
  destruct close as [|x close].
  - unfold at_row. rewrite lookup_ge_None_2; [done|].
    rewrite crossover_length. cbn. lia.
  - apply at_row_lookup, crossover_lookup_0. done.
Qed.

Lemma crossover_at_row_S close t :
  S t < length close ->
  at_row (crossover_of short_window long_window close) (S t)
  = fsub (at_row (signal_of short_window long_window close) (S t))
         (at_row (signal_of short_window long_window close) t).
Proof.
  intros Ht. by rewrite (at_row_lookup _ _ _ (crossover_lookup_S _ _ _ _ Ht)).
Qed.

End Markers.

(** X6. In the frame [calc_strategy_performance] returns, every signal is
    0.0 or 1.0, and below the first row every position is 0.0 or 1.0 and
    every crossover is -1.0, 0.0 or 1.0; no other value, NaN included,
    occurs there. *)
Theorem column_values (h : store) (data : ref) (close : Series)
    (short_window long_window : nat) :
  frame h data !! "Close" = Some close ->
  exists (r : ref) (h' : store) (signal crossover position : Series),
    calc_strategy_performance data short_window long_window h = (Ok r, h')
    /\ frame h' r !! "Signal" = Some signal
    /\ frame h' r !! "Crossover" = Some crossover
    /\ frame h' r !! "Position" = Some position
    /\ forall t, t < length close ->
         (signal !! t = Some (Fin 0) \/ signal !! t = Some (Fin 1))
         /\ (0 < t ->
             (position !! t = Some (Fin 0) \/ position !! t = Some (Fin 1))
             /\ (crossover !! t = Some (Fin (-1))
                 \/ crossover !! t = Some (Fin 0)
                 \/ crossover !! t = Some (Fin 1))).
Proof.
  intros Hclose. eexists _, _, _, _, _. split.
  { by apply calc_strategy_performance_run. }
  rewrite frame_snoc, signals_frame_signal, signals_frame_crossover,
    signals_frame_position.
  split_and!; try reflexivity.
  intros t Ht. split.
  - rewrite lookup_at_row by (by rewrite signal_length).
    destruct (signal_at_row_binary short_window long_window close t Ht)
      as [-> | ->]; auto.
  - intros Hpos. destruct t as [|t]; [lia|]. split.
    + unfold position_of.
      rewrite shift1_lookup_S by (by rewrite signal_length).
      rewrite lookup_at_row by (rewrite signal_length; lia).
      destruct (signal_at_row_binary short_window long_window close t)
        as [-> | ->]; auto; lia.
    + rewrite crossover_lookup_S by done.
      destruct (step_values
                  (at_row (signal_of short_window long_window close) (S t))
                  (at_row (signal_of short_window long_window close) t))
        as [-> | [-> | ->]]; auto;
        apply signal_at_row_binary; lia.
Qed.

Lemma column_values_witness :
  exists (r : ref) (h' : store) (signal crossover position : Series),
    calc_strategy_performance 0 2 4 [prices_frame demo_prices] = (Ok r, h')
    /\ frame h' r !! "Signal" = Some signal
    /\ frame h' r !! "Crossover" = Some crossover
    /\ frame h' r !! "Position" = Some position
    /\ forall t, t < length (Fin <$> demo_prices) ->
         (signal !! t = Some (Fin 0) \/ signal !! t = Some (Fin 1))
         /\ (0 < t ->
             (position !! t = Some (Fin 0) \/ position !! t = Some (Fin 1))
             /\ (crossover !! t = Some (Fin (-1))
                 \/ crossover !! t = Some (Fin 0)
                 \/ crossover !! t = Some (Fin 1))).
Proof.
  apply (column_values [prices_frame demo_prices] 0 (Fin <$> demo_prices) 2 4).
  vm_compute. reflexivity.
Defined.

(** ** Plotting after the back-test *)

(** What the script does once the windows are known, printing left out:
    signals, metrics, then the figure of the same frame. *)
Definition report (sqrt : float64 -> float64) (data : ref)
    (short_window long_window : nat) : M (Metrics * Figure) :=
  data_with_signals <- calc_strategy_performance data short_window long_window ;;
  metrics <- calculate_metrics sqrt data_with_signals ;;
  figure <- plot_data data_with_signals ;;
  ret (metrics, figure).

(** The older script plots the frame [analyze_strategy_performance]
    returns. *)
Definition legacy_report (data : ref) (short_window long_window : nat)
    : M Figure :=
  data_with_signals <- calc_strategy_performance data short_window long_window ;;
  data_with_metrics <- analyze_strategy_performance data_with_signals ;;
  legacy_plot_data data_with_metrics.

Section Plotting.

Variable sqrt : float64 -> float64.
Variables (short_window long_window : nat) (close : Series).

(** The figure of a back-tested frame. *)
Definition figure_of (with_drawdown : bool) : Figure :=
  let position := position_of short_window long_window close in
  {| price_line := close;
     fast_line := rolling_mean short_window close;
     slow_line := rolling_mean long_window close;
     buy_markers :=
       at_rows (rows_eq (crossover_of short_window long_window close) (Fin 1))
         close;
     sell_markers :=
       at_rows (rows_eq (crossover_of short_window long_window close) (Fin (-1)))
         close;
     strategy_line := cumulative_strategy_of close position;
     benchmark_line := cumulative_benchmark_of close;
     drawdown_area :=
       if with_drawdown then Some (drawdown_of close position) else None |}.

Lemma plot_data_run (h : store) (df : gmap string Series) :
  df !! "Close" = Some close ->
  plot_data (length h)
    (h ++ [metrics_frame close (position_of short_window long_window close)
             (signals_frame short_window long_window close df)])
  = (Ok (figure_of true),
     h ++ [metrics_frame close (position_of short_window long_window close)
             (signals_frame short_window long_window close df)]).
Proof.
  intros Hclose. unfold plot_data.
  repeat (erewrite bind_ok;
          [| apply getcol_ok; rewrite frame_snoc;
             unfold metrics_frame, signals_frame; simplify_map_eq; reflexivity]).
  reflexivity.
Qed.

Lemma legacy_plot_data_run (h : store) (df : gmap string Series) :
  df !! "Close" = Some close ->
  legacy_plot_data (length h)
    (h ++ [metrics_frame close (position_of short_window long_window close)
             (signals_frame short_window long_window close df)])
  = (Ok (figure_of false),
     h ++ [metrics_frame close (position_of short_window long_window close)
             (signals_frame short_window long_window close df)]).
Proof.
  intros Hclose. unfold legacy_plot_data.
  repeat (erewrite bind_ok;
          [| apply getcol_ok; rewrite frame_snoc;
             unfold metrics_frame, signals_frame; simplify_map_eq; reflexivity]).
  reflexivity.
Qed.

Lemma report_run (h : store) (data : ref) :
  frame h data !! "Close" = Some close ->
  close <> [] ->
  report sqrt data short_window long_window h
  = (Ok (metrics_of sqrt close (position_of short_window long_window close),
         figure_of true),
     h ++ [metrics_frame close (position_of short_window long_window close)
             (signals_frame short_window long_window close (frame h data))]).
Proof.
  intros Hclose Hne. unfold report.
  erewrite bind_ok by (by apply calc_strategy_performance_run).
  erewrite bind_ok.
  2:{ apply calculate_metrics_run with
        (df := signals_frame short_window long_window close (frame h data))
        (close := close)
        (position := position_of short_window long_window close);
        [ by rewrite lookup_app_r, Nat.sub_diag
        | by apply signals_frame_close
        | apply signals_frame_position
        | apply position_length
        | done ]. }
  rewrite insert_snoc.
  erewrite bind_ok by (by apply plot_data_run).
  reflexivity.
Qed.

Lemma legacy_report_run (h : store) (data : ref) :
  frame h data !! "Close" = Some close ->
  close <> [] ->
  legacy_report data short_window long_window h
  = (Ok (figure_of false),
     h ++ [metrics_frame close (position_of short_window long_window close)
             (signals_frame short_window long_window close (frame h data))]).
Proof.
  intros Hclose Hne. unfold legacy_report.
  erewrite bind_ok by (by apply calc_strategy_performance_run).
  erewrite bind_ok.
  2:{ apply analyze_strategy_performance_run with
        (df := signals_frame short_window long_window close (frame h data))
        (close := close)
        (position := position_of short_window long_window close);
        [ by rewrite lookup_app_r, Nat.sub_diag
        | by apply signals_frame_close
        | apply signals_frame_position
        | apply position_length
        | done ]. }
  rewrite insert_snoc. by apply legacy_plot_data_run.
Qed.

(** Straight after [calc_strategy_performance] the cumulative columns are
    not there yet. *)
Lemma plot_data_too_early (h : store) (df : gmap string Series) :
  df !! "Close" = Some close ->
  df !! "Cumulative_Strategy" = None ->
  plot_data (length h) (h ++ [signals_frame short_window long_window close df])
  = (Raise (KeyError "Cumulative_Strategy"),
     h ++ [signals_frame short_window long_window close df])
  /\ legacy_plot_data (length h)
       (h ++ [signals_frame short_window long_window close df])
     = (Raise (KeyError "Cumulative_Strategy"),
        h ++ [signals_frame short_window long_window close df]).
Proof.
  intros Hclose Hnone. unfold plot_data, legacy_plot_data. split.
  all: do 7 (erewrite bind_ok;
          [| apply getcol_ok; rewrite frame_snoc;
             unfold signals_frame; simplify_map_eq; reflexivity]).
  all: erewrite bind_raise; [reflexivity|].
  all: apply getcol_raise; rewrite frame_snoc; unfold signals_frame;
         by simplify_map_eq.
Qed.

End Plotting.

(** X7. In the figure [plot_data] draws after the back-test, a row
    carries a buy marker exactly when the signal rose from 0.0 in the row
    before to 1.0 in that row, and a sell marker exactly when it fell from
    1.0 to 0.0; the marker sits at that row's close. So no row carries
    both, no buy marker lies before row [long_window] and no sell marker
    before row [long_window + 1]. *)
Theorem markers_mark_signal_changes (sqrt : float64 -> float64) (h : store)
    (data : ref) (close : Series) (short_window long_window : nat) :
  frame h data !! "Close" = Some close ->
  close <> [] ->
  exists (m : Metrics) (fig : Figure) (h' : store) (signal : Series),
    report sqrt data short_window long_window h = (Ok (m, fig), h')
    /\ frame h' (length h) !! "Signal" = Some signal
    /\ (forall t c,
          (t, c) ∈ buy_markers fig
          <-> 0 < t /\ t < length close
              /\ at_row signal (t - 1) = Fin 0 /\ at_row signal t = Fin 1
              /\ c = at_row close t)
    /\ (forall t c,
          (t, c) ∈ sell_markers fig
          <-> 0 < t /\ t < length close
              /\ at_row signal (t - 1) = Fin 1 /\ at_row signal t = Fin 0
              /\ c = at_row close t)
    /\ (forall t c c', (t, c) ∈ buy_markers fig -> (t, c') ∉ sell_markers fig)
    /\ (forall t c, (t, c) ∈ buy_markers fig -> long_window <= t)
    /\ (forall t c, (t, c) ∈ sell_markers fig -> long_window < t).
Proof.
  intros Hclose Hne. eexists _, _, _, _. split; [by apply report_run|].
  rewrite frame_snoc, !metrics_frame_other, signals_frame_signal by done.
  split; [reflexivity|].
  set (signal := signal_of short_window long_window close).
  assert (Hbuy : forall t c,
            (t, c) ∈ buy_markers (figure_of short_window long_window close true)
            <-> 0 < t /\ t < length close
                /\ at_row signal (t - 1) = Fin 0 /\ at_row signal t = Fin 1
                /\ c = at_row close t).
  { intros t c. cbn [buy_markers figure_of].
    rewrite elem_of_at_rows, elem_of_rows_eq, crossover_length.
    destruct t as [|t].
    - rewrite crossover_at_row_0. split; [by intros [[_ [=]] _] | lia].
    - replace (S t - 1) with t by lia. split.
      + intros [[Ht Hv] ->]. rewrite crossover_at_row_S in Hv by done.
        apply step_up_iff in Hv as [H1 H0];
          [| apply signal_at_row_binary; lia ..].
        split_and!; (done || lia).
      + intros (_ & Ht & H0 & H1 & ->). split; [|done]. split; [done|].
        rewrite crossover_at_row_S by done.
        apply step_up_iff; [apply signal_at_row_binary; lia ..|done]. }
  assert (Hsell : forall t c,
            (t, c) ∈ sell_markers (figure_of short_window long_window close true)
            <-> 0 < t /\ t < length close
                /\ at_row signal (t - 1) = Fin 1 /\ at_row signal t = Fin 0
                /\ c = at_row close t).
  { intros t c. cbn [sell_markers figure_of].
    rewrite elem_of_at_rows, elem_of_rows_eq, crossover_length.
    destruct t as [|t].
    - rewrite crossover_at_row_0. split; [by intros [[_ [=]] _] | lia].
    - replace (S t - 1) with t by lia. split.
      + intros [[Ht Hv] ->]. rewrite crossover_at_row_S in Hv by done.
        apply step_down_iff in Hv as [H0 H1];
          [| apply signal_at_row_binary; lia ..].
        split_and!; (done || lia).
      + intros (_ & Ht & H1 & H0 & ->). split; [|done]. split; [done|].
        rewrite crossover_at_row_S by done.
        apply step_down_iff; [apply signal_at_row_binary; lia ..|done]. }
  split; [exact Hbuy|]. split; [exact Hsell|]. split_and!.
  - intros t c c' Hb Hs. apply Hbuy in Hb as (_ & _ & _ & H1 & _).
    apply Hsell in Hs as (_ & _ & _ & H0 & _). congruence.
  - intros t c Hb. apply Hbuy in Hb as (_ & Ht & _ & H1 & _).
    by eapply signal_at_row_one.
  - intros t c Hs. apply Hsell in Hs as (Hpos & Ht & H1 & _ & _).
    apply signal_at_row_one in H1; lia.
Qed.

Lemma markers_mark_signal_changes_witness :
  exists (m : Metrics) (fig : Figure) (h' : store) (signal : Series),
    report sample_sqrt 0 2 4 [prices_frame demo_prices] = (Ok (m, fig), h')
    /\ frame h' (length [prices_frame demo_prices]) !! "Signal" = Some signal
    /\ (forall t c,
          (t, c) ∈ buy_markers fig
          <-> 0 < t /\ t < length (Fin <$> demo_prices)
              /\ at_row signal (t - 1) = Fin 0 /\ at_row signal t = Fin 1
              /\ c = at_row (Fin <$> demo_prices) t)
    /\ (forall t c,
          (t, c) ∈ sell_markers fig
          <-> 0 < t /\ t < length (Fin <$> demo_prices)
              /\ at_row signal (t - 1) = Fin 1 /\ at_row signal t = Fin 0
              /\ c = at_row (Fin <$> demo_prices) t)
    /\ (forall t c c', (t, c) ∈ buy_markers fig -> (t, c') ∉ sell_markers fig)
    /\ (forall t c, (t, c) ∈ buy_markers fig -> 4 <= t)
    /\ (forall t c, (t, c) ∈ sell_markers fig -> 4 < t).
Proof.
  apply (markers_mark_signal_changes sample_sqrt [prices_frame demo_prices] 0
           (Fin <$> demo_prices) 2 4).
  - vm_compute. reflexivity.
  - discriminate.
Defined.

(** The same figure drawn by the older script, which has no drawdown
    panel. *)
Definition without_drawdown (fig : Figure) : Figure :=
  {| price_line := price_line fig; fast_line := fast_line fig;
     slow_line := slow_line fig; buy_markers := buy_markers fig;
     sell_markers := sell_markers fig; strategy_line := strategy_line fig;
     benchmark_line := benchmark_line fig; drawdown_area := None |}.

(** X8. [plot_data] only reads: after [calculate_metrics] (newer script)
    or [analyze_strategy_performance] (older script) has written its
    columns into the signalled frame it returns a figure made of that
    frame's columns and leaves the store as it is; called on the frame
    [calc_strategy_performance] returned, before either has run, it raises
    KeyError("Cumulative_Strategy") when the price frame has no such
    column. The older script draws the same figure without the drawdown
    panel. *)
Theorem plot_needs_metric_columns (sqrt : float64 -> float64) (h : store)
    (data : ref) (close : Series) (short_window long_window : nat) :
  frame h data !! "Close" = Some close ->
  frame h data !! "Cumulative_Strategy" = None ->
  close <> [] ->
  exists (r : ref) (m : Metrics) (fig : Figure) (h1 h2 : store),
    calc_strategy_performance data short_window long_window h = (Ok r, h1)
    /\ plot_data r h1 = (Raise (KeyError "Cumulative_Strategy"), h1)
    /\ legacy_plot_data r h1 = (Raise (KeyError "Cumulative_Strategy"), h1)
    /\ calculate_metrics sqrt r h1 = (Ok m, h2)
    /\ analyze_strategy_performance r h1 = (Ok r, h2)
    /\ plot_data r h2 = (Ok fig, h2)
    /\ legacy_plot_data r h2 = (Ok (without_drawdown fig), h2)
    /\ report sqrt data short_window long_window h = (Ok (m, fig), h2)
    /\ legacy_report data short_window long_window h
       = (Ok (without_drawdown fig), h2)
    /\ frame h2 r !! "Close" = Some (price_line fig)
    /\ frame h2 r !! "Fast_MA" = Some (fast_line fig)
    /\ frame h2 r !! "Slow_MA" = Some (slow_line fig)
    /\ frame h2 r !! "Cumulative_Strategy" = Some (strategy_line fig)
    /\ frame h2 r !! "Cumulative_Benchmark" = Some (benchmark_line fig)
    /\ frame h2 r !! "Drawdown" = drawdown_area fig.
Proof.
  intros Hclose Hnone Hne.
  set (sf := signals_frame short_window long_window close (frame h data)).
  set (position := position_of short_window long_window close).
  exists (length h), (metrics_of sqrt close position),
    (figure_of short_window long_window close true),
    (h ++ [sf]), (h ++ [metrics_frame close position sf]).
  destruct (plot_data_too_early short_window long_window close h
              (frame h data) Hclose Hnone) as [Hp Hl].
  split; [by apply calc_strategy_performance_run|].
  split; [exact Hp|]. split; [exact Hl|].
  split.
  { erewrite calculate_metrics_run with (df := sf) (close := close)
      (position := position);
      [ by rewrite insert_snoc
      | by rewrite lookup_app_r, Nat.sub_diag
      | by apply signals_frame_close
      | apply signals_frame_position
      | apply position_length
      | done ]. }
  split.
  { erewrite analyze_strategy_performance_run with (df := sf) (close := close)
      (position := position);
      [ by rewrite insert_snoc
      | by rewrite lookup_app_r, Nat.sub_diag
      | by apply signals_frame_close
      | apply signals_frame_position
      | apply position_length
      | done ]. }
  split; [by apply plot_data_run|].
  split; [by apply legacy_plot_data_run|].
  split; [by apply report_run|].
  split; [by apply legacy_report_run|].
  rewrite frame_snoc. unfold sf, metrics_frame, signals_frame.
  split_and!; simplify_map_eq; reflexivity.
Qed.

Lemma plot_needs_metric_columns_witness :
  exists (r : ref) (m : Metrics) (fig : Figure) (h1 h2 : store),
    calc_strategy_performance 0 2 4 [prices_frame demo_prices] = (Ok r, h1)
    /\ plot_data r h1 = (Raise (KeyError "Cumulative_Strategy"), h1)
    /\ legacy_plot_data r h1 = (Raise (KeyError "Cumulative_Strategy"), h1)
    /\ calculate_metrics sample_sqrt r h1 = (Ok m, h2)
    /\ analyze_strategy_performance r h1 = (Ok r, h2)
    /\ plot_data r h2 = (Ok fig, h2)
    /\ legacy_plot_data r h2 = (Ok (without_drawdown fig), h2)
    /\ report sample_sqrt 0 2 4 [prices_frame demo_prices] = (Ok (m, fig), h2)
    /\ legacy_report 0 2 4 [prices_frame demo_prices]
       = (Ok (without_drawdown fig), h2)
    /\ frame h2 r !! "Close" = Some (price_line fig)
    /\ frame h2 r !! "Fast_MA" = Some (fast_line fig)
    /\ frame h2 r !! "Slow_MA" = Some (slow_line fig)
    /\ frame h2 r !! "Cumulative_Strategy" = Some (strategy_line fig)
    /\ frame h2 r !! "Cumulative_Benchmark" = Some (benchmark_line fig)
    /\ frame h2 r !! "Drawdown" = drawdown_area fig.
Proof.
  apply (plot_needs_metric_columns sample_sqrt [prices_frame demo_prices] 0
           (Fin <$> demo_prices) 2 4).
  - vm_compute. reflexivity.
  - vm_compute. reflexivity.
  - discriminate.
Defined.

(** ** Equal windows never trade *)

Section EqualWindows.

Lemma rows_eq_nil (s : Series) (v : float64) :
  (forall t, t < length s -> feqb (at_row s t) v = false) -> rows_eq s v = [].
Proof.
  intros Hno. apply elem_of_nil_inv. intros t Ht.
  apply elem_of_rows_eq in Ht as [Hlt Hv]. rewrite Hno in Hv; done.
Qed.

Lemma signal_equal_windows (w : nat) (close : Series) :
  signal_of w w close = replicate (length close) (Fin 0).
Proof.
  apply list_eq. intros t.
  destruct (decide (t < length close)) as [Ht|Ht].
  - rewrite signal_lookup, lookup_replicate_2 by done.
    rewrite fgtb_irrefl. by destruct (decide _).
  - rewrite !lookup_ge_None_2; rewrite ?signal_length, ?length_replicate;
      (done || lia).
Qed.

Lemma crossover_flat (short_window long_window : nat) (close : Series)
    (v : float64) :
  signal_of short_window long_window close = replicate (length close) (Fin 0) ->
  feqb (Fin 0) v = false ->
  rows_eq (crossover_of short_window long_window close) v = [].
Proof.
  intros Hsig Hv. apply rows_eq_nil. intros t.
  rewrite crossover_length. intros Ht. destruct t as [|t].
  - rewrite crossover_at_row_0. by destruct v.
  - rewrite crossover_at_row_S by done. rewrite Hsig.
    unfold at_row. by rewrite !lookup_replicate_2 by lia.
Qed.

End EqualWindows.

(** X9. Equal windows are accepted and never trade: with
    [short_window = long_window] the two averages coincide, the
    comparison is strict, so every signal is 0.0 and the figure carries no
    buy and no sell marker. *)
Theorem equal_windows_never_trade (sqrt : float64 -> float64) (h : store)
    (data : ref) (close : Series) (w : nat) :
  frame h data !! "Close" = Some close ->
  close <> [] ->
  exists (m : Metrics) (fig : Figure) (h' : store),
    report sqrt data w w h = (Ok (m, fig), h')
    /\ fast_line fig = slow_line fig
    /\ frame h' (length h) !! "Signal" = Some (replicate (length close) (Fin 0))
    /\ buy_markers fig = []
    /\ sell_markers fig = [].
Proof.
  intros Hclose Hne. eexists _, _, _. split; [by apply report_run|].
  rewrite frame_snoc, !metrics_frame_other, signals_frame_signal by done.
  pose proof (signal_equal_windows w close) as Hsig.
  split; [reflexivity|]. split; [by rewrite Hsig|].
  cbn [buy_markers sell_markers figure_of].
  by rewrite !crossover_flat.
Qed.

Lemma equal_windows_never_trade_witness :
  exists (m : Metrics) (fig : Figure) (h' : store),
    report sample_sqrt 0 3 3 [prices_frame demo_prices] = (Ok (m, fig), h')
    /\ fast_line fig = slow_line fig
    /\ frame h' (length [prices_frame demo_prices]) !! "Signal"
       = Some (replicate (length (Fin <$> demo_prices)) (Fin 0))
    /\ buy_markers fig = []
    /\ sell_markers fig = [].
Proof.
  apply (equal_windows_never_trade sample_sqrt [prices_frame demo_prices] 0
           (Fin <$> demo_prices) 3).
  - vm_compute. reflexivity.
  - discriminate.
Defined.

(** ** The warm-up of the strategy return *)

Section WarmUp.

Variables (short_window long_window : nat).

Lemma daily_return_at_row_finite (prices : list Q) (t : nat) :
  Forall (fun q => (0 < q)%Q) prices ->
  S t < length prices ->
  exists q : Q, at_row (daily_return_of (Fin <$> prices)) (S t) = Fin q.
Proof.
  intros Hpos Ht. destruct prices as [|p ps]; [cbn in Ht; lia|].
  apply Forall_cons in Hpos as [Hp Hps].
  destruct (daily_return_positive p ps Hp Hps) as (ds & Hd & Hlen & Hfin).
  rewrite Hd. change (at_row (NaN :: ds) (S t)) with (at_row ds t).
  destruct (lookup_lt_is_Some_2 ds t) as [x Hx]; [cbn in Ht; lia|].
  rewrite (at_row_lookup _ _ _ Hx).
  rewrite Forall_lookup in Hfin. specialize (Hfin t x Hx).
  destruct x; try done. by eexists.
Qed.

End WarmUp.

Lemma strategy_return_warm_up_rows (prices : list Q)
    (short_window long_window : nat) (t : nat) :
  prices <> [] ->
  Forall (fun q => (0 < q)%Q) prices ->
  t < length prices ->
  let sr := strategy_return_of (Fin <$> prices)
              (position_of short_window long_window (Fin <$> prices)) in
  (t < 2 -> sr !! t = Some NaN)
  /\ (2 <= t -> t < long_window + 2 -> sr !! t = Some (Fin 0)).
Proof.
  intros Hne Hpos Ht sr. unfold sr.
  assert (Hne' : Fin <$> prices <> []) by (by destruct prices).
  assert (Hn : length (Fin <$> prices) = length prices) by apply length_fmap.
  destruct t as [|t].
  - split; [intros _ | lia].
    unfold strategy_return_of, smul.
    rewrite lookup_zip_with, shift1_lookup_0.
    + rewrite lookup_at_row
        by (unfold daily_return_of; rewrite pct_change_length; lia).
      cbn. by rewrite fmul_nan_r.
    + apply nonempty_length. rewrite position_length. lia.
  - rewrite strategy_return_lookup_S by (apply position_length || lia).
    split.
    + intros H2. assert (t = 0) as -> by lia.
      by rewrite position_at_row_0, fmul_nan_r.
    + intros H2 Hl. destruct t as [|t]; [lia|].
      rewrite position_at_row_warm_up by lia.
      destruct (daily_return_at_row_finite prices (S t) Hpos Ht) as [q ->].
      by rewrite fmul_zero_r.
Qed.

(** X10. Nothing is earned or lost before row [long_window + 2]: on a
    price frame with at least one row the strategy return is NaN in the
    first two rows, and in every row from the third up to row
    [long_window + 1] it is 0 when the daily return of that row is a
    finite number and NaN when it is not. *)
Theorem no_return_during_warm_up (sqrt : float64 -> float64) (h : store)
    (data : ref) (close : Series) (short_window long_window : nat) :
  frame h data !! "Close" = Some close ->
  close <> [] ->
  exists (r : ref) (m : Metrics) (h' : store)
         (daily_return strategy_return : Series),
    backtest sqrt data short_window long_window h = (Ok (r, m), h')
    /\ frame h' r !! "Daily_Return" = Some daily_return
    /\ frame h' r !! "Strategy_Return" = Some strategy_return
    /\ forall t, t < length close -> t < long_window + 2 ->
         (t < 2 -> strategy_return !! t = Some NaN)
         /\ (2 <= t -> is_finite (at_row daily_return t) = true ->
             strategy_return !! t = Some (Fin 0))
         /\ (2 <= t -> is_finite (at_row daily_return t) = false ->
             strategy_return !! t = Some NaN).
Proof.
  intros Hclose Hne.
  eexists _, _, _, _, _. split; [by apply backtest_run|].
  rewrite frame_snoc, metrics_frame_daily_return,
    metrics_frame_strategy_return.
  split; [reflexivity|]. split; [reflexivity|].
  intros t Ht Hl.
  rewrite (strategy_return_idle_row short_window long_window close t Ht Hl).
  unfold idle_return. split_and!.
  - intros H2. by rewrite decide_False by lia.
  - intros H2 E. by rewrite decide_True, E by lia.
  - intros H2 E. by rewrite decide_True, E by lia.
Qed.

Lemma no_return_during_warm_up_witness :
  exists (r : ref) (m : Metrics) (h' : store)
         (daily_return strategy_return : Series),
    backtest sample_sqrt 0 2 4 [prices_frame demo_prices] = (Ok (r, m), h')
    /\ frame h' r !! "Daily_Return" = Some daily_return
    /\ frame h' r !! "Strategy_Return" = Some strategy_return
    /\ forall t, t < length (Fin <$> demo_prices) -> t < 4 + 2 ->
         (t < 2 -> strategy_return !! t = Some NaN)
         /\ (2 <= t -> is_finite (at_row daily_return t) = true ->
             strategy_return !! t = Some (Fin 0))
         /\ (2 <= t -> is_finite (at_row daily_return t) = false ->
             strategy_return !! t = Some NaN).
Proof.
  apply (no_return_during_warm_up sample_sqrt [prices_frame demo_prices] 0
           (Fin <$> demo_prices) 2 4).
  - vm_compute. reflexivity.
  - discriminate.
Defined.

(** ** Calling twice *)

(** Compare two frames built by assignments, column by column. *)
Ltac by_column name :=
  repeat match goal with
    | |- context [<[?k := _]> _ !! name] =>
        destruct (decide (k = name)) as [<-|?];
        [ by simplify_map_eq
        | rewrite !(lookup_insert_ne _ k name) by done ]
    end;
  try done.

Section Repeat.

Variables (close position : Series).

Lemma metrics_frame_idemp (df : gmap string Series) :
  metrics_frame close position (metrics_frame close position df)
  = metrics_frame close position df.
Proof.
  apply map_eq. intros name. unfold metrics_frame. by_column name.
Qed.

Lemma signals_frame_overwrite (s l s' l' : nat) (df : gmap string Series) :
  signals_frame s' l' close (signals_frame s l close df)
  = signals_frame s' l' close df.
Proof.
  apply map_eq. intros name. unfold signals_frame. by_column name.
Qed.

Lemma signals_frame_other (s l : nat) (df : gmap string Series) (name : string) :
  name ∉ ["Fast_MA"; "Slow_MA"; "Signal"; "Crossover"; "Position"] ->
  signals_frame s l close df !! name = df !! name.
Proof.
  intros Hname. unfold signals_frame.
  rewrite !lookup_insert_ne; [done|..]; intros <-; set_solver.
Qed.

End Repeat.

(** X11. [calculate_metrics] can be called again on the frame it has
    written to: the second call returns the same report and leaves the
    store exactly as the first call left it, and so does a call of the
    older [analyze_strategy_performance]. *)
Theorem metrics_repeatable (sqrt : float64 -> float64) (h : store)
    (data : ref) (df : gmap string Series) (close position : Series) :
  h !! data = Some df ->
  df !! "Close" = Some close ->
  df !! "Position" = Some position ->
  length position = length close ->
  close <> [] ->
  exists (m : Metrics) (h1 : store),
    calculate_metrics sqrt data h = (Ok m, h1)
    /\ calculate_metrics sqrt data h1 = (Ok m, h1)
    /\ analyze_strategy_performance data h1 = (Ok data, h1).
Proof.
  intros Hdf Hclose Hpos Hlen Hne.
  assert (Hr : data < length h) by (by eapply lookup_lt_Some).
  eexists _, _. split; [by eapply calculate_metrics_run|].
  assert (Hmf : <[data := metrics_frame close position df]> h !! data
                = Some (metrics_frame close position df))
    by (by apply list_lookup_insert_eq).
  assert (Hc : metrics_frame close position df !! "Close" = Some close)
    by (by rewrite metrics_frame_other).
  assert (Hp : metrics_frame close position df !! "Position" = Some position)
    by (by rewrite metrics_frame_other).
  split.
  - rewrite (calculate_metrics_run sqrt _ _ _ _ _ Hmf Hc Hp Hlen Hne).
    by rewrite metrics_frame_idemp, list_insert_insert_eq.
  - rewrite (analyze_strategy_performance_run _ _ _ _ _ Hmf Hc Hp Hlen Hne).
    by rewrite metrics_frame_idemp, list_insert_insert_eq.
Qed.

Lemma metrics_repeatable_witness :
  exists (m : Metrics) (h1 : store),
    calculate_metrics sample_sqrt 0 [demo_signals] = (Ok m, h1)
    /\ calculate_metrics sample_sqrt 0 h1 = (Ok m, h1)
    /\ analyze_strategy_performance 0 h1 = (Ok 0, h1).
Proof.
  apply (metrics_repeatable sample_sqrt [demo_signals] 0 demo_signals
           (Fin <$> demo_prices) (position_of 2 4 (Fin <$> demo_prices))).
  - reflexivity.
  - apply signals_frame_close. vm_compute. reflexivity.
  - apply signals_frame_position.
  - apply position_length.
  - discriminate.
Defined.

(** X12. [calc_strategy_performance] keeps every column of its input other
    than the five it assigns, and nothing of an earlier run survives in
    those five: signalling an already signalled frame with new windows
    gives a frame equal to the one obtained by signalling the original
    prices with the new windows, and leaves the earlier frame as it was. *)
Theorem resignal_overwrites (h : store) (data : ref) (close : Series)
    (s l s' l' : nat) :
  frame h data !! "Close" = Some close ->
  exists (r1 r2 r3 : ref) (h1 h2 h3 : store),
    calc_strategy_performance data s l h = (Ok r1, h1)
    /\ calc_strategy_performance r1 s' l' h1 = (Ok r2, h2)
    /\ calc_strategy_performance data s' l' h = (Ok r3, h3)
    /\ frame h2 r2 = frame h3 r3
    /\ frame h2 r1 = frame h1 r1
    /\ forall name,
         name ∉ ["Fast_MA"; "Slow_MA"; "Signal"; "Crossover"; "Position"] ->
         frame h1 r1 !! name = frame h data !! name.
Proof.
  intros Hclose.
  set (f1 := signals_frame s l close (frame h data)).
  assert (H1 : frame (h ++ [f1]) (length h) !! "Close" = Some close).
  { rewrite frame_snoc. by apply signals_frame_close. }
  eexists _, _, _, _, _, _. split; [by apply calc_strategy_performance_run|].
  split; [by apply calc_strategy_performance_run|].
  split; [by apply calc_strategy_performance_run|].
  split_and!.
  - rewrite length_app. cbn [length].
    replace (length h + 1) with (length (h ++ [f1]))
      by (rewrite length_app; cbn; lia).
    rewrite !frame_snoc. apply signals_frame_overwrite.
  - unfold frame. rewrite lookup_app_l; [done|].
    rewrite length_app. cbn. lia.
  - intros name Hname. rewrite frame_snoc. by apply signals_frame_other.
Qed.

Lemma resignal_overwrites_witness :
  exists (r1 r2 r3 : ref) (h1 h2 h3 : store),
    calc_strategy_performance 0 2 4 [prices_frame demo_prices] = (Ok r1, h1)
    /\ calc_strategy_performance r1 3 5 h1 = (Ok r2, h2)
    /\ calc_strategy_performance 0 3 5 [prices_frame demo_prices] = (Ok r3, h3)
    /\ frame h2 r2 = frame h3 r3
    /\ frame h2 r1 = frame h1 r1
    /\ forall name,
         name ∉ ["Fast_MA"; "Slow_MA"; "Signal"; "Crossover"; "Position"] ->
         frame h1 r1 !! name = frame [prices_frame demo_prices] 0 !! name.
Proof.
  apply (resignal_overwrites [prices_frame demo_prices] 0 (Fin <$> demo_prices)
           2 4 3 5).
  vm_compute. reflexivity.
Defined.

(** ** The parameter sweep: failures, and what it can return *)

Section Sweep.

Variable sqrt : float64 -> float64.

Lemma returns_frame_other (close position : Series) (df : gmap string Series)
    (name : string) :
  name ∉ ["Daily_Return"; "Strategy_Return"; "Cumulative_Benchmark";
          "Cumulative_Strategy"] ->
  returns_frame close position df !! name = df !! name.
Proof.
  intros Hname. unfold returns_frame.
  rewrite !lookup_insert_ne; [done|..]; intros <-; set_solver.
Qed.

Lemma candidates_bounds :
  Forall (fun p => 10 <= p.1 <= 60 /\ 100 <= p.2 <= 250) candidates.
Proof.
  assert (H : forallb (fun p => (10 <=? p.1) && (p.1 <=? 60)
                                && (100 <=? p.2) && (p.2 <=? 250))
                candidates = true) by (vm_compute; reflexivity).
  rewrite forallb_forall in H. apply List.Forall_forall. intros p Hp.
  specialize (H p Hp). rewrite !andb_true_iff, !Nat.leb_le in H. lia.
Qed.

Lemma fgtb_ninf (x : float64) : fgtb x NInf = false <-> x = NaN \/ x = NInf.
Proof. destruct x; cbn; split; try done; try (by intros [|]); auto. Qed.

End Sweep.

(** X14. [optimise_strategy] does not check its input: on a frame
    without a "Close" column it raises KeyError("Close"), on a price frame
    without rows IndexError; either way the exception leaves the sweep at
    its first pair (10, 100), with exactly one frame added to the store,
    which carries the columns of the input outside the ones the two
    functions write. *)
Theorem sweep_stops_at_first_failure (sqrt : float64 -> float64) (h : store)
    (data : ref) :
  (forall close, frame h data !! "Close" = Some close -> close = []) ->
  exists f : gmap string Series,
    optimise_strategy sqrt data h
    = (Raise match frame h data !! "Close" with
             | Some _ => IndexError
             | None => KeyError "Close"
             end,
       h ++ [f])
    /\ (frame h data !! "Close" = None -> f = frame h data)
    /\ forall name,
         name ∉ ["Fast_MA"; "Slow_MA"; "Signal"; "Crossover"; "Position";
                 "Daily_Return"; "Strategy_Return"; "Cumulative_Benchmark";
                 "Cumulative_Strategy"] ->
         f !! name = frame h data !! name.
Proof.
  intros Hempty. destruct (frame h data !! "Close") as [close|] eqn:Hclose.
  - rewrite (Hempty close eq_refl) in Hclose. eexists. split.
    { apply optimise_strategy_first_raise, optimise_body_empty; [lia | done]. }
    split; [done|]. intros name Hname.
    rewrite !not_elem_of_cons in Hname.
    rewrite returns_frame_other, signals_frame_other;
      [done|..]; rewrite !not_elem_of_cons; split_and!; (tauto || apply not_elem_of_nil).
  - exists (frame h data). split.
    { apply optimise_strategy_first_raise, optimise_body_no_close; [lia | done]. }
    done.
Qed.

Lemma sweep_stops_at_first_failure_witness :
  exists f : gmap string Series,
    optimise_strategy sample_sqrt 0 [prices_frame []]
    = (Raise match frame [prices_frame []] 0 !! "Close" with
             | Some _ => IndexError
             | None => KeyError "Close"
             end,
       [prices_frame []] ++ [f])
    /\ (frame [prices_frame []] 0 !! "Close" = None
        -> f = frame [prices_frame []] 0)
    /\ forall name,
         name ∉ ["Fast_MA"; "Slow_MA"; "Signal"; "Crossover"; "Position";
                 "Daily_Return"; "Strategy_Return"; "Cumulative_Benchmark";
                 "Cumulative_Strategy"] ->
         f !! name = frame [prices_frame []] 0 !! name.
Proof.
  apply (sweep_stops_at_first_failure sample_sqrt [prices_frame []] 0).
  intros close. vm_compute. congruence.
Defined.

(** X15. On a price frame with at least one row [optimise_strategy]
    returns the sentinel (0, 0) exactly when the Sharpe ratio of every
    pair of the grid is NaN or -inf; otherwise it returns a pair of the
    grid, so 10 <= short <= 60 and 100 <= long <= 250, whose Sharpe ratio
    is neither NaN nor -inf. *)
Theorem sweep_result (sqrt : float64 -> float64) (h : store) (data : ref)
    (df : gmap string Series) (close : Series) :
  h !! data = Some df ->
  df !! "Close" = Some close ->
  close <> [] ->
  exists (best : nat * nat) (h' : store),
    optimise_strategy sqrt data h = (Ok best, h')
    /\ (best = (0, 0)
        <-> Forall (fun p => candidate_sharpe sqrt close p = NaN
                             \/ candidate_sharpe sqrt close p = NInf)
              candidates)
    /\ (best <> (0, 0) ->
        best ∈ candidates
        /\ 10 <= best.1 <= 60 /\ 100 <= best.2 <= 250
        /\ candidate_sharpe sqrt close best <> NaN
        /\ candidate_sharpe sqrt close best <> NInf).
Proof.
  intros Hdf Hclose Hne. eexists _, _.
  split; [by apply optimise_strategy_run|].
  pose proof (select_first_strict_max (candidate_sharpe sqrt close) candidates
                (NInf, (0, 0))) as Hsel.
  set (result := select (candidate_sharpe sqrt close) candidates (NInf, (0, 0)))
    in *.
  pose proof candidates_bounds as Hb.
  destruct Hsel as [[E Hall] | (i & Hi & Hs & Hgt & _)].
  - rewrite E. cbn [snd fst] in *. split; [|done].
    split; [intros _ | done].
    eapply Forall_impl; [exact Hall|]. intros p Hp. by apply fgtb_ninf.
  - cbn [fst] in Hgt. rewrite Hs in Hgt.
    assert (Hin : result.2 ∈ candidates) by (by eapply list_elem_of_lookup_2).
    assert (Hbest : 10 <= result.2.1 <= 60 /\ 100 <= result.2.2 <= 250).
    { rewrite Forall_forall in Hb. by apply Hb. }
    assert (Hnot : ~ (candidate_sharpe sqrt close result.2 = NaN
                      \/ candidate_sharpe sqrt close result.2 = NInf)).
    { rewrite <- fgtb_ninf. congruence. }
    split.
    + split.
      * intros E. rewrite E in Hbest. cbn in Hbest. lia.
      * intros Hall. rewrite Forall_forall in Hall. destruct Hnot. by apply Hall.
    + intros _. split; [done|]. split; [tauto|]. split; [tauto|]. tauto.
Qed.

Lemma sweep_result_witness :
  exists (best : nat * nat) (h' : store),
    optimise_strategy sample_sqrt 0 [prices_frame flat_prices] = (Ok best, h')
    /\ (best = (0, 0)
        <-> Forall (fun p => candidate_sharpe sample_sqrt (Fin <$> flat_prices) p = NaN
                             \/ candidate_sharpe sample_sqrt (Fin <$> flat_prices) p = NInf)
              candidates)
    /\ (best <> (0, 0) ->
        best ∈ candidates
        /\ 10 <= best.1 <= 60 /\ 100 <= best.2 <= 250
        /\ candidate_sharpe sample_sqrt (Fin <$> flat_prices) best <> NaN
        /\ candidate_sharpe sample_sqrt (Fin <$> flat_prices) best <> NInf).
Proof.
  apply (sweep_result sample_sqrt [prices_frame flat_prices] 0
           (prices_frame flat_prices) (Fin <$> flat_prices)).
  - reflexivity.
  - vm_compute. reflexivity.
  - discriminate.
Defined.

(** ** A sweep over too short a history *)

(** The branch [choice == '2'] of the script followed by its common tail:
    the sweep picks the windows, then the signals, the metrics and the
    figure are computed for them. Console input and output and the
    download are left out. *)
Definition automatic_run (sqrt : float64 -> float64) (data : ref)
    : M (Metrics * Figure) :=
  windows <- optimise_strategy sqrt data ;;
  report sqrt data windows.1 windows.2.

Section History.

Variable sqrt : float64 -> float64.
Hypothesis Hsqrt : sqrt_spec sqrt.

Lemma flat_shape_length (n : nat) (v : float64) : length (flat_shape n v) = n.
Proof. destruct n as [|[|k]]; cbn; by rewrite ?length_replicate. Qed.

Lemma flat_shape_lookup (n : nat) (v : float64) (t : nat) :
  t < n -> flat_shape n v !! t = Some (if decide (t < 2) then NaN else v).
Proof.
  intros Ht. destruct n as [|[|k]]; [lia|..].
  - by assert (t = 0) as -> by lia.
  - destruct t as [|[|t]]; [done|done|].
    change (flat_shape (S (S k)) v !! S (S t)) with (replicate k v !! t).
    rewrite lookup_replicate_2 by lia. by rewrite decide_False by lia.
Qed.

(** Until row [long_window + 2] exists, the strategy return is NaN in the
    first two rows and 0 below. *)
Lemma strategy_return_before_first_trade (prices : list Q)
    (short_window long_window : nat) :
  prices <> [] ->
  Forall (fun q => (0 < q)%Q) prices ->
  length prices <= long_window + 2 ->
  strategy_return_of (Fin <$> prices)
    (position_of short_window long_window (Fin <$> prices))
  = flat_shape (length prices) (Fin 0).
Proof.
  intros Hne Hpos Hlen. apply list_eq. intros t.
  destruct (decide (t < length prices)) as [Ht|Ht].
  - rewrite flat_shape_lookup by done.
    destruct (strategy_return_warm_up_rows prices short_window long_window t
                Hne Hpos Ht) as [H0 H2].
    destruct (decide (t < 2)); [by apply H0 | apply H2; lia].
  - rewrite !lookup_ge_None_2; [done|..].
    + rewrite flat_shape_length. lia.
    + rewrite strategy_return_length; rewrite ?position_length, length_fmap;
        (done || lia).
Qed.

Lemma rolling_mean_window_0 (close : Series) :
  rolling_mean 0 close = replicate (length close) NaN.
Proof.
  apply list_eq. intros t.
  destruct (decide (t < length close)) as [Ht|Ht].
  - rewrite rolling_mean_lookup, lookup_replicate_2 by done.
    by rewrite rolling_mean_at_window_0.
  - rewrite !lookup_ge_None_2;
      rewrite ?rolling_mean_length, ?length_replicate; (done || lia).
Qed.

Variables (data : ref) (df : gmap string Series) (prices : list Q).
Hypothesis Hclose : df !! "Close" = Some (Fin <$> prices).
Hypothesis Hne : prices <> [].
Hypothesis Hpos : Forall (fun q => (0 < q)%Q) prices.
Hypothesis Hlen : length prices <= 102.

Lemma short_history_sharpe :
  Forall (fun p => candidate_sharpe sqrt (Fin <$> prices) p = NaN) candidates.
Proof.
  eapply Forall_impl; [apply candidates_bounds|].
  intros [short long] [_ Hlong]. cbn [fst snd] in *.
  unfold candidate_sharpe. cbn [fst snd].
  eapply (flat_metrics sqrt Hsqrt).
  apply strategy_return_before_first_trade; (done || lia).
Qed.

Lemma short_history_sweep (h : store) :
  h !! data = Some df ->
  optimise_strategy sqrt data h
  = (Ok (0, 0), h ++ (candidate_frame df (Fin <$> prices) <$> candidates)).
Proof.
  intros Hdf.
  assert (Hne' : Fin <$> prices <> []) by (by destruct prices).
  erewrite optimise_strategy_run by done.
  rewrite select_none; [done|].
  eapply Forall_impl; [apply short_history_sharpe|].
  intros p Hp. cbn beta. by rewrite Hp.
Qed.

End History.

(** X16. The sweep needs at least 103 rows to find anything: on a
    non-empty series of positive prices with at most 102 rows no pair of
    the grid has traded in a row that counts, every Sharpe ratio is NaN,
    and [optimise_strategy] returns the sentinel (0, 0) after scoring all
    176 pairs. *)
Theorem sweep_needs_history (sqrt : float64 -> float64) (h : store)
    (data : ref) (df : gmap string Series) (prices : list Q) :
  sqrt_spec sqrt ->
  h !! data = Some df ->
  df !! "Close" = Some (Fin <$> prices) ->
  prices <> [] ->
  Forall (fun q => (0 < q)%Q) prices ->
  length prices <= 102 ->
  exists h' : store,
    optimise_strategy sqrt data h = (Ok (0, 0), h')
    /\ length h' = length h + 176
    /\ Forall (fun p => candidate_sharpe sqrt (Fin <$> prices) p = NaN)
         candidates.
Proof.
  intros Hsqrt Hdf Hclose Hne Hpos Hlen. eexists.
  split; [by eapply short_history_sweep|].
  split; [by rewrite length_app, length_fmap|].
  by apply short_history_sharpe.
Qed.

Lemma sweep_needs_history_witness :
  exists h' : store,
    optimise_strategy sample_sqrt 0 [prices_frame demo_prices] = (Ok (0, 0), h')
    /\ length h' = length [prices_frame demo_prices] + 176
    /\ Forall (fun p => candidate_sharpe sample_sqrt (Fin <$> demo_prices) p = NaN)
         candidates.
Proof.
  apply (sweep_needs_history sample_sqrt [prices_frame demo_prices] 0
           (prices_frame demo_prices) demo_prices).
  - exact sample_sqrt_spec.
  - reflexivity.
  - vm_compute. reflexivity.
  - discriminate.
  - repeat constructor.
  - vm_compute. lia.
Defined.

(** X17. The script does not test for the sentinel. In automatic mode, on
    a non-empty series of positive prices with at most 102 rows, the
    windows (0, 0) the sweep returns go straight into the back-test, which
    accepts them: the run ends without an exception, with both moving
    averages NaN in every row, no buy and no sell marker, a NaN Sharpe
    ratio, 177 frames added to the store and the input frame unchanged. *)
Theorem automatic_run_on_short_history (sqrt : float64 -> float64)
    (h : store) (data : ref) (df : gmap string Series) (prices : list Q) :
  sqrt_spec sqrt ->
  h !! data = Some df ->
  df !! "Close" = Some (Fin <$> prices) ->
  prices <> [] ->
  Forall (fun q => (0 < q)%Q) prices ->
  length prices <= 102 ->
  exists (m : Metrics) (fig : Figure) (h1 h' : store),
    optimise_strategy sqrt data h = (Ok (0, 0), h1)
    /\ report sqrt data 0 0 h1 = (Ok (m, fig), h')
    /\ automatic_run sqrt data h = (Ok (m, fig), h')
    /\ length h' = length h + 177
    /\ h' !! data = Some df
    /\ fast_line fig = replicate (length prices) NaN
    /\ slow_line fig = replicate (length prices) NaN
    /\ buy_markers fig = []
    /\ sell_markers fig = []
    /\ sharpe_ratio m = NaN.
Proof.
  intros Hsqrt Hdf Hclose Hne Hpos Hlen.
  assert (Hne' : Fin <$> prices <> []) by (by destruct prices).
  assert (Hn : length (Fin <$> prices) = length prices) by apply length_fmap.
  pose proof (short_history_sweep sqrt Hsqrt data df prices Hclose Hne Hpos
                Hlen h Hdf) as Hsweep.
  set (h1 := h ++ (candidate_frame df (Fin <$> prices) <$> candidates)) in *.
  assert (Hdf1 : h1 !! data = Some df) by (by apply lookup_app_l_Some).
  assert (Hreport := report_run sqrt 0 0 (Fin <$> prices) h1 data).
  rewrite (frame_lookup _ _ _ Hdf1) in Hreport.
  specialize (Hreport Hclose Hne').
  eexists _, _, h1, _. split; [exact Hsweep|]. split; [exact Hreport|].
  split.
  { unfold automatic_run. erewrite bind_ok by exact Hsweep. exact Hreport. }
  pose proof (signal_equal_windows 0 (Fin <$> prices)) as Hsig.
  split_and!.
  - unfold h1. rewrite !length_app, length_fmap. cbn. 
    change (length candidates) with 176. lia.
  - by apply lookup_app_l_Some.
  - cbn [fast_line figure_of]. by rewrite rolling_mean_window_0, Hn.
  - cbn [slow_line figure_of]. by rewrite rolling_mean_window_0, Hn.
  - cbn [buy_markers figure_of]. by rewrite crossover_flat.
  - cbn [sell_markers figure_of]. by rewrite crossover_flat.
  - destruct prices as [|p ps]; [done|].
    apply Forall_cons in Hpos as [Hp Hps].
    eapply (flat_metrics sqrt Hsqrt).
    unfold position_of. rewrite Hsig, Hn. by apply flat_strategy_return.
Qed.

Lemma automatic_run_on_short_history_witness :
  exists (m : Metrics) (fig : Figure) (h1 h' : store),
    optimise_strategy sample_sqrt 0 [prices_frame demo_prices] = (Ok (0, 0), h1)
    /\ report sample_sqrt 0 0 0 h1 = (Ok (m, fig), h')
    /\ automatic_run sample_sqrt 0 [prices_frame demo_prices] = (Ok (m, fig), h')
    /\ length h' = length [prices_frame demo_prices] + 177
    /\ h' !! 0 = Some (prices_frame demo_prices)
    /\ fast_line fig = replicate (length demo_prices) NaN
    /\ slow_line fig = replicate (length demo_prices) NaN
    /\ buy_markers fig = []
    /\ sell_markers fig = []
    /\ sharpe_ratio m = NaN.
Proof.
  apply (automatic_run_on_short_history sample_sqrt [prices_frame demo_prices] 0
           (prices_frame demo_prices) demo_prices).
  - exact sample_sqrt_spec.
  - reflexivity.
  - vm_compute. reflexivity.
  - discriminate.
  - repeat constructor.
  - vm_compute. lia.
Defined.

(** ** The equity curve of a long-only strategy *)

Section EquityCurve.

Implicit Types (x y top acc : float64) (s close : Series) (a b c g q : Q).

(** A positive number; a value not below -1; one not below 0; one within
    [0, 1].  NaN is allowed by the last three, +inf by the two in the
    middle. *)
Definition positive x : Prop := exists g, x = Fin g /\ (0 < g)%Q.

Definition no_total_loss x : Prop :=
  x = NaN \/ x = PInf \/ exists q, x = Fin q /\ (-1 <= q)%Q.

Definition not_negative x : Prop :=
  x = NaN \/ x = PInf \/ exists c, x = Fin c /\ (0 <= c)%Q.

Definition unit_fraction x : Prop :=
  x = NaN \/ exists q, x = Fin q /\ (0 <= q <= 1)%Q.

(** The running maximum of such a curve: -inf before its first defined
    row. *)
Definition running_max top : Prop :=
  top = NInf \/ top = PInf \/ exists b, top = Fin b /\ (0 <= b)%Q.

Lemma Qdiv_pos a b : (0 < a)%Q -> (0 < b)%Q -> (0 < a / b)%Q.
Proof.
  intros Ha Hb. unfold Qdiv.
  apply Qmult_lt_0_compat; [done | by apply Qinv_lt_0_compat].
Qed.

(** On positive prices no daily return is below -1. *)
Lemma pairwise_no_total_loss x s :
  positive x -> Forall positive s ->
  Forall no_total_loss ((fun y => fsub y (Fin 1)) <$> pairwise fdiv x s).
Proof.
  intros Hx Hs. revert x Hx.
  induction Hs as [|y s Hy Hs IH]; intros x Hx; [constructor|].
  cbn [fmap list_fmap pairwise]. constructor; [|by apply IH].
  destruct Hx as (p & -> & Hp), Hy as (q & -> & Hq).
  unfold fdiv. rewrite Qeq_bool_pos by done. cbn [fsub].
  right; right. eexists. split; [reflexivity|]. rewrite !Qred_correct.
  pose proof (Qdiv_pos q p Hq Hp). lra.
Qed.

Lemma positive_daily_return close :
  Forall positive close -> Forall no_total_loss (daily_return_of close).
Proof.
  intros Hc. unfold daily_return_of.
  destruct Hc as [|x s Hx Hs]; [constructor|].
  rewrite pct_change_cons. constructor; [|by apply pairwise_no_total_loss].
  destruct Hx as (p & -> & _). by left.
Qed.

Lemma fmul_no_total_loss x y :
  no_total_loss x -> y = NaN \/ binary y -> no_total_loss (fmul x y).
Proof.
  intros [-> | [-> | (q & -> & Hq)]] [-> | [-> | ->]];
    try (by left); try (by right; left).
  - right; right. exists 0%Q. split; [apply fmul_zero_r | lra].
  - right; right. eexists. split; [reflexivity|]. rewrite Qred_correct. lra.
Qed.

Lemma strategy_return_no_total_loss (short_window long_window : nat) close :
  Forall no_total_loss (daily_return_of close) ->
  Forall no_total_loss
    (strategy_return_of close (position_of short_window long_window close)).
Proof.
  intros Hd. unfold strategy_return_of, smul.
  apply (Forall_zip_with no_total_loss (fun y => y = NaN \/ binary y));
    [apply fmul_no_total_loss | exact Hd |].
  unfold position_of. apply Forall_shift1; [by left|].
  apply Forall_shift1; [by left|].
  eapply Forall_impl; [apply signal_binary|]. by right.
Qed.

Lemma fadd_one_no_total_loss x :
  no_total_loss x -> not_negative (fadd (Fin 1) x).
Proof.
  intros [-> | [-> | (q & -> & Hq)]]; [by left | by right; left |].
  right; right. eexists. split; [reflexivity|]. rewrite Qred_correct. lra.
Qed.

Lemma qsgn_not_negative c : (0 <= c)%Q -> qsgn c = 0%Z \/ qsgn c = 1%Z.
Proof.
  destruct c as [[|n|n] d]; unfold Qle, qsgn; cbn; intros H; [by left | by right | lia].
Qed.

Lemma fmul_not_negative x y :
  not_negative x -> not_negative y -> not_negative (fmul x y).
Proof.
  intros [-> | [-> | (c & -> & Hc)]] [-> | [-> | (g & -> & Hg)]];
    try (by left); try (by right; left).
  - unfold fmul, fsign.
    destruct (qsgn_not_negative g Hg) as [-> | ->]; [by left | by right; left].
  - unfold fmul, fsign.
    destruct (qsgn_not_negative c Hc) as [-> | ->]; [by left | by right; left].
  - right; right. eexists. split; [reflexivity|]. rewrite Qred_correct.
    by apply Qmult_le_0_compat.
Qed.

Lemma fmax_running top x :
  running_max top -> not_negative x -> x <> NaN -> running_max (fmax top x).
Proof.
  intros [-> | [-> | (b & -> & Hb)]] [-> | [-> | (c & -> & Hc)]] Hx;
    try done; unfold fmax;
    try destruct (fgtb _ _);
    unfold running_max; eauto.
Qed.

Lemma drawdown_value b c :
  (0 <= c)%Q -> (c <= b)%Q ->
  unit_fraction (fdiv (fsub (Fin b) (Fin c)) (Fin b)).
Proof.
  intros Hc Hb. cbn [fsub]. unfold fdiv.
  destruct (Qeq_bool b 0) eqn:E.
  - apply Qeq_bool_eq in E.
    rewrite (Qred_zero (b - c)) by lra. by left.
  - apply Qeq_bool_neq in E. right. eexists. split; [reflexivity|].
    rewrite !Qred_correct. split.
    + apply Qle_shift_div_l; lra.
    + apply Qle_shift_div_r; lra.
Qed.

Lemma drawdown_step top x :
  running_max top -> not_negative x -> x <> NaN ->
  unit_fraction (fdiv (fsub (fmax top x) x) (fmax top x)).
Proof.
  intros [-> | [-> | (b & -> & Hb)]] [-> | [-> | (c & -> & Hc)]] Hx;
    try done; try (by left).
  - change (fmax NInf (Fin c)) with (Fin c). apply drawdown_value; lra.
  - unfold fmax. destruct (fgtb (Fin c) (Fin b)) eqn:E.
    + apply drawdown_value; lra.
    + apply fgtb_fin_false in E. by apply drawdown_value.
Qed.

(** From growth factors that are not negative: an equity curve that is
    not negative and drawdowns within [0, 1]. *)
Lemma equity_curve (gs : Series) acc top :
  Forall not_negative gs -> not_negative acc -> running_max top ->
  Forall not_negative (accumulate fmul acc gs)
  /\ Forall unit_fraction
       (sdiv (ssub (accumulate fmax top (accumulate fmul acc gs))
                   (accumulate fmul acc gs))
             (accumulate fmax top (accumulate fmul acc gs))).
Proof.
  intros Hgs. revert acc top.
  induction Hgs as [|g gs Hg Hgs IH]; intros acc top Hacc Htop.
  { split; constructor. }
  cbn [accumulate]. destruct (is_nan g) eqn:Eg.
  { destruct (IH acc top Hacc Htop) as [IH1 IH2].
    cbn [accumulate is_nan]. unfold sdiv, ssub. cbn [zip_with].
    split; constructor; (by left) || done. }
  cbv zeta.
  assert (Hacc' : not_negative (fmul acc g)) by (by apply fmul_not_negative).
  set (acc' := fmul acc g) in *.
  cbn [accumulate]. destruct (is_nan acc') eqn:Ea.
  { destruct (IH acc' top Hacc' Htop) as [IH1 IH2].
    unfold sdiv, ssub. cbn [zip_with].
    split; constructor; (by left) || done. }
  cbv zeta.
  assert (Hnn : acc' <> NaN) by (intros E; by rewrite E in Ea).
  destruct (IH acc' (fmax top acc') Hacc' (fmax_running _ _ Htop Hacc' Hnn))
    as [IH1 IH2].
  unfold sdiv, ssub. cbn [zip_with].
  split; constructor; try done. by apply drawdown_step.
Qed.

Lemma fmax_closed x y :
  (exists q, x = Fin q /\ (0 <= q <= 1)%Q) ->
  (exists q, y = Fin q /\ (0 <= q <= 1)%Q) ->
  exists q, fmax x y = Fin q /\ (0 <= q <= 1)%Q.
Proof.
  intros (a & -> & Ha) (b & -> & Hb). unfold fmax.
  destruct (fgtb _ _); by eexists.
Qed.

Lemma smax_unit_fraction s : Forall unit_fraction s -> unit_fraction (smax s).
Proof.
  intros Hs.
  assert (Hv : Forall (fun x => exists q, x = Fin q /\ (0 <= q <= 1)%Q) (valid s)).
  { apply Forall_forall. intros x Hx.
    apply list_elem_of_filter in Hx as [Hna Hx].
    rewrite Forall_forall in Hs. by destruct (Hs x Hx) as [-> | ?]. }
  unfold smax. destruct Hv as [|x xs Hx Hxs]; [by left|].
  right. revert x Hx.
  induction Hxs as [|y xs Hy Hxs IH]; intros x Hx; [done|].
  cbn [foldl]. by apply IH, fmax_closed.
Qed.

Lemma last_not_negative s : Forall not_negative s -> not_negative (last_value s).
Proof.
  intros Hs. unfold last_value.
  destruct (last s) as [x|] eqn:E; [|by left].
  apply last_Some_elem_of in E. rewrite Forall_forall in Hs. by apply Hs.
Qed.

Lemma fsub_one_not_negative x : not_negative x -> no_total_loss (fsub x (Fin 1)).
Proof.
  intros [-> | [-> | (c & -> & Hc)]]; [by left | by right; left |].
  right; right. eexists. split; [reflexivity|]. rewrite Qred_correct. lra.
Qed.

End EquityCurve.

(** X18. A long-only strategy cannot lose more than everything.  On
    positive prices no daily return is below -1; and whenever no daily
    return is below -1 (NaN and +inf allowed), every cumulative strategy
    value is NaN, +inf or not negative, every drawdown and the maximum
    drawdown are NaN or between 0 and 1, and the total strategy return is
    NaN, +inf or at least -1. *)
Theorem drawdown_is_a_fraction (sqrt : float64 -> float64) (h : store)
    (data : ref) (close : Series) (short_window long_window : nat) :
  frame h data !! "Close" = Some close ->
  close <> [] ->
  exists (r : ref) (m : Metrics) (h' : store)
         (daily_return cumulative_strategy drawdown : Series),
    backtest sqrt data short_window long_window h = (Ok (r, m), h')
    /\ frame h' r !! "Daily_Return" = Some daily_return
    /\ frame h' r !! "Cumulative_Strategy" = Some cumulative_strategy
    /\ frame h' r !! "Drawdown" = Some drawdown
    /\ (Forall positive close -> Forall no_total_loss daily_return)
    /\ (Forall no_total_loss daily_return ->
          Forall not_negative cumulative_strategy
          /\ Forall unit_fraction drawdown
          /\ unit_fraction (maximum_drawdown m)
          /\ no_total_loss (total_strategy_return m)).
Proof.
  intros Hclose Hne.
  eexists _, _, _, _, _, _. split; [by apply backtest_run|].
  rewrite frame_snoc, metrics_frame_daily_return.
  split; [reflexivity|].
  split; [unfold metrics_frame; by simplify_map_eq|].
  split; [unfold metrics_frame; by simplify_map_eq|].
  split; [apply positive_daily_return|].
  intros Hd.
  pose proof (strategy_return_no_total_loss short_window long_window close Hd)
    as Hsr.
  set (position := position_of short_window long_window close) in *.
  assert (Hgs : Forall not_negative
                  (scalar_add (Fin 1) (strategy_return_of close position))).
  { apply Forall_fmap. eapply Forall_impl; [exact Hsr|].
    apply fadd_one_no_total_loss. }
  destruct (equity_curve _ (Fin 1) NInf Hgs) as [Hcurve Hdraw].
  { right; right. exists 1%Q. split; [done | lra]. }
  { by left. }
  split; [exact Hcurve|]. split; [exact Hdraw|].
  unfold metrics_of. cbn [maximum_drawdown total_strategy_return].
  split.
  - by apply smax_unit_fraction.
  - by apply fsub_one_not_negative, last_not_negative.
Qed.

Lemma drawdown_is_a_fraction_witness :
  exists (r : ref) (m : Metrics) (h' : store)
         (daily_return cumulative_strategy drawdown : Series),
    backtest sample_sqrt 0 2 4 [prices_frame demo_prices] = (Ok (r, m), h')
    /\ frame h' r !! "Daily_Return" = Some daily_return
    /\ frame h' r !! "Cumulative_Strategy" = Some cumulative_strategy
    /\ frame h' r !! "Drawdown" = Some drawdown
    /\ (Forall positive (Fin <$> demo_prices) ->
          Forall no_total_loss daily_return)
    /\ (Forall no_total_loss daily_return ->
          Forall not_negative cumulative_strategy
          /\ Forall unit_fraction drawdown
          /\ unit_fraction (maximum_drawdown m)
          /\ no_total_loss (total_strategy_return m)).
Proof.
  apply (drawdown_is_a_fraction sample_sqrt [prices_frame demo_prices] 0
           (Fin <$> demo_prices) 2 4).
  - vm_compute. reflexivity.
  - discriminate.
Defined.

(** ** Risk measures of a run that never trades *)

(** X19. A run that never trades carries no risk measure other than 0:
    on a price frame with at least one row and no more than
    [long_window + 2], the annualised volatility, beta, the annualised
    alpha, the total strategy return and the maximum drawdown are each 0
    or NaN. *)
Theorem idle_run_risk_measures (sqrt : float64 -> float64) (h : store)
    (data : ref) (close : Series) (short_window long_window : nat) :
  sqrt_spec sqrt ->
  frame h data !! "Close" = Some close ->
  close <> [] ->
  length close <= long_window + 2 ->
  exists (r : ref) (m : Metrics) (h' : store),
    backtest sqrt data short_window long_window h = (Ok (r, m), h')
    /\ nullish (annualised_volatility m)
    /\ nullish (beta m)
    /\ nullish (annualised_alpha m)
    /\ nullish (total_strategy_return m)
    /\ nullish (maximum_drawdown m).
Proof.
  intros Hsqrt Hclose Hne Hlen.
  pose proof (strategy_return_idle short_window long_window close Hlen) as Hnull.
  destruct (idle_report sqrt Hsqrt close _ Hnull)
    as (_ & _ & Htotal & Hmdd & Hvol & Hbeta & Halpha).
  eexists _, _, _. split; [by apply backtest_run|].
  split; [exact Hvol|]. split; [exact Hbeta|]. split; [exact Halpha|].
  split.
  - rewrite Htotal. unfold last_value.
    destruct (last _) as [x|] eqn:E; [|by left].
    apply last_Some_elem_of in E. rewrite Forall_forall in Hnull.
    by apply Hnull.
  - rewrite Hmdd. destruct (count _); by (left + right).
Qed.

Lemma idle_run_risk_measures_witness :
  exists (r : ref) (m : Metrics) (h' : store),
    backtest sample_sqrt 0 2 4 [prices_frame [100; 101; 102; 101]%Q]
    = (Ok (r, m), h')
    /\ nullish (annualised_volatility m)
    /\ nullish (beta m)
    /\ nullish (annualised_alpha m)
    /\ nullish (total_strategy_return m)
    /\ nullish (maximum_drawdown m).
Proof.
  apply (idle_run_risk_measures sample_sqrt
           [prices_frame [100; 101; 102; 101]%Q] 0
           (Fin <$> [100; 101; 102; 101]%Q) 2 4).
  - exact sample_sqrt_spec.
  - vm_compute. reflexivity.
  - discriminate.
  - vm_compute. lia.
Defined.
